(** * Kiwi: the tree-walking evaluator, embedded in Rocq

    A shallow embedding of the parts of [kiwi/include/interpreter.h],
    [include/interp_helper.h] and [include/stackframe.h] that the checked
    properties are about: the value universe, the call stack and its frames,
    the slice engine, the visitors for identifiers, ranges, member access,
    indexing, assignment, slice assignment and [try]/[catch]/[finally],
    function calls with [return], the [for] loop over a list, the lambda
    built-ins of lists, and the token look-ahead of the stream helper.

    Conventions.
    - [k_int] is a signed 64-bit integer, carried as [Z]; the narrowing
      [k_int -> int] of the slice engine is written out ([to_int]).
    - Lists, hashes and objects are [std::shared_ptr]s in the source: a value
      holds an address and the cells live in the [heap] of the state, so that
      in-place mutation is seen through every alias.
    - A visitor is a state transformer that returns a value, throws a
      [KiwiError], or crashes (a host exception that no [try] of the language
      catches, undefined behaviour of C++, or exhausted fuel).
    - Source locations (tokens) carried by nodes and errors are left out. *)

From Stdlib Require Import ZArith Lia Ascii String.
From stdpp Require Import gmap strings list fin_maps pretty.

Local Open Scope string_scope.
Local Open Scope list_scope.
Local Open Scope Z_scope.

(** ** Value universe *)

(** Address of a shared [List], [Hash] or [Object]. *)
Definition loc := nat.

(** [k_value]: the tagged variant of typing/value.h, as the evaluator uses it
    ([std::holds_alternative<k_int>], [k_list], [k_hash], [k_object],
    [k_lambda], [k_class], ...). A double is kept as its binary64 bit pattern;
    nothing below computes with it. *)
Inductive Value :=
| VInt (n : Z)
| VDouble (bits : Z)
| VBool (b : bool)
| VString (s : string)
| VList (l : loc)
| VHash (l : loc)
| VObject (l : loc)
| VLambda (identifier : string)
| VClass (identifier : string).

(** Modelled from the spec: the default-constructed [k_value] ([k_value result;]
    and [k_value{}]); typing/value.h is not among the sources, and the spec says
    that integer zero is the unit result throughout. *)
Definition default_value : Value := VInt 0.

(** Modelled from the spec: [Hash] of typing/value.h, a key sequence in insertion
    order beside the mapping; re-inserting a key updates its value and leaves
    the order alone. The evaluator reads [hash->keys] and [hash->kvp] and calls
    [hasKey], [get] and [add]. *)
Record Hash := mkHash {
  keys : list string;
  kvp : gmap string Value
}.

Definition hasKey (h : Hash) (key : string) : bool :=
  bool_decide (is_Some (kvp h !! key)).

Definition hash_get (h : Hash) (key : string) : Value :=
  default default_value (kvp h !! key).

Definition hash_add (h : Hash) (key : string) (v : Value) : Hash :=
  if hasKey h key
  then mkHash (keys h) (<[key := v]> (kvp h))
  else mkHash (keys h ++ [key]) (<[key := v]> (kvp h)).

(** [Object]: class name, instance variables, optional identifier. *)
Record Object := mkObject {
  className : string;
  instanceVariables : gmap string Value;
  obj_identifier : string
}.

Inductive Cell :=
| CList (elements : list Value)
| CHash (h : Hash)
| CObject (o : Object).

(** ** Operators and built-in names ([KName]) used by the modelled visitors *)

Inductive KName :=
| Ops_Assign
| Ops_Add
| Ops_Subtract
| Ops_Multiply
| Ops_And
| Ops_Or
| Ops_BitwiseNotAssign
| Builtin_List_Map
| Default_KName.

(** ** Abstract syntax: the node kinds of the modelled fragment

    Fields follow the uses in interpreter.h ([node->tryBody], [node->rangeStart],
    ...); a child pointer that the evaluator tests for null is an [option]. *)
Local Unset Elimination Schemes.
Inductive ASTNode :=
| NoOpNode
| ProgramNode (isScript : bool) (statements : list ASTNode)
| LiteralNode (value : Value)
| IdentifierNode (name : string)
| ListLiteralNode (elements : list ASTNode)
| RangeLiteralNode (rangeStart rangeEnd : ASTNode)
| MemberAccessNode (object : ASTNode) (memberName : string)
| BinaryOperationNode (left : ASTNode) (op : KName) (right : ASTNode)
| PrintNode (expression : ASTNode) (printNewline : bool)
| ThrowNode (errorValue : option ASTNode) (condition : option ASTNode)
| AssignmentNode (left : ASTNode) (name : string) (op : KName)
    (initializer : ASTNode)
| IndexingNode (indexedObject : option ASTNode) (indexExpression : ASTNode)
| SliceNode (slicedObject : option ASTNode)
    (startExpression stopExpression stepExpression : option ASTNode)
| IndexAssignmentNode (object : ASTNode) (op : KName) (initializer : ASTNode)
| TryNode (tryBody catchBody finallyBody : list ASTNode)
    (errorType errorMessage : option ASTNode)
| LambdaNode (parameters : list (string * option ASTNode)) (body : list ASTNode)
| MethodCallNode (object : ASTNode) (methodName : string) (op : KName)
    (arguments : list ASTNode).
Local Set Elimination Schemes.

(** [KInterpreter::id]: the name of a node that is cast to an identifier node. *)
Definition id_name (node : ASTNode) : option string :=
  match node with
  | IdentifierNode name => Some name
  | _ => None
  end.

(** ** Errors *)

(** The subclasses of [KiwiError] thrown by the modelled code, and the root
    class with the type name a [throw] statement gives it. *)
Inductive ErrorKind :=
| KiwiErrorNamed (errorType : string)
| IndexError
| RangeError
| HashKeyError
| InvalidOperationError
| InvalidContextError
| ConversionError
| SyntaxError
| UnknownBuiltinError
| IllegalNameError
| VariableUndefinedError.

Record KiwiError := mkError {
  kind : ErrorKind;
  message : string
}.

(** [e.getError()]: the type name bound to the first catch variable. *)
Definition getError (e : KiwiError) : string :=
  match kind e with
  | KiwiErrorNamed t => t
  | IndexError => "IndexError"
  | RangeError => "RangeError"
  | HashKeyError => "HashKeyError"
  | InvalidOperationError => "InvalidOperationError"
  | InvalidContextError => "InvalidContextError"
  | ConversionError => "ConversionError"
  | SyntaxError => "SyntaxError"
  | UnknownBuiltinError => "UnknownBuiltinError"
  | IllegalNameError => "IllegalNameError"
  | VariableUndefinedError => "VariableUndefinedError"
  end.

(** Why an evaluation stopped without a value and without a [KiwiError]. *)
Inductive CrashKind :=
| HostException       (* std::out_of_range and the like: not a KiwiError *)
| UndefinedBehaviour  (* C++ leaves the behaviour undefined *)
| OutOfFuel           (* the model's bound on loop iterations or depth *)
| NotModelled.        (* a path outside the modelled fragment *)

Inductive Result (A : Type) :=
| Ok (a : A)
| Throw (e : KiwiError)
| Crash (k : CrashKind).

Arguments Ok {A} a.
Arguments Throw {A} e.
Arguments Crash {A} k.

(** ** Frames ([CallStackFrame], stackframe.h) *)

(** [FrameFlags]: a [uint8_t] bitset. *)
Definition FrameFlags := Z.
Definition FlagNone : FrameFlags := 0.
Definition ReturnFlag : FrameFlags := Z.shiftl 1 0.
Definition SubFrame : FrameFlags := Z.shiftl 1 1.
Definition LoopBreak : FrameFlags := Z.shiftl 1 2.
Definition LoopContinue : FrameFlags := Z.shiftl 1 3.
Definition InTry : FrameFlags := Z.shiftl 1 4.
Definition InObject : FrameFlags := Z.shiftl 1 5.

(** [operator~] on the underlying [uint8_t]. *)
Definition flag_not (a : FrameFlags) : FrameFlags := Z.lxor a 255.

Record CallStackFrame := mkFrame {
  variables : gmap string Value;
  returnValue : Value;
  objectContext : option loc;
  flags : FrameFlags
}.

Definition new_frame : CallStackFrame :=
  mkFrame ∅ default_value None FlagNone.

Definition isFlagSet (f : CallStackFrame) (flag : FrameFlags) : bool :=
  Z.land (flags f) flag =? flag.

Definition setFlag (f : CallStackFrame) (flag : FrameFlags) : CallStackFrame :=
  mkFrame (variables f) (returnValue f) (objectContext f) (Z.lor (flags f) flag).

Definition clearFlag (f : CallStackFrame) (flag : FrameFlags) : CallStackFrame :=
  mkFrame (variables f) (returnValue f) (objectContext f)
    (Z.land (flags f) (flag_not flag)).

Definition setObjectContext (f : CallStackFrame) (o : loc) : CallStackFrame :=
  setFlag (mkFrame (variables f) (returnValue f) (Some o) (flags f)) InObject.

Definition inObjectContext (f : CallStackFrame) : bool := isFlagSet f InObject.

Definition hasVariable (f : CallStackFrame) (name : string) : bool :=
  bool_decide (is_Some (variables f !! name)).

Definition set_variables (f : CallStackFrame) (vars : gmap string Value)
  : CallStackFrame :=
  mkFrame vars (returnValue f) (objectContext f) (flags f).

Definition set_returnValue (f : CallStackFrame) (v : Value) : CallStackFrame :=
  mkFrame (variables f) v (objectContext f) (flags f).

(** ** Registries and the interpreter state *)

(** [KLambda]: the declaration's body with the evaluated parameters. *)
Record KLambda := mkLambda {
  lambda_body : list ASTNode;
  lambda_parameters : list (string * Value);
  defaultParameters : list string
}.

(** [KClass]: only the name and the base class are read by the modelled code. *)
Record KClass := mkClass {
  class_name : string;
  baseClass : string
}.

(** The process-wide state of interpreter.h: the call stack (head = top), the
    shared cells, the registries [classes], [lambdas] and [lambdaTable],
    standard output, and the number of identifiers drawn from the random
    generator. An entry of [lambdas] is a [std::unique_ptr]: [None] is the
    null pointer that [std::move] leaves behind. *)
Record State := mkState {
  callStack : list CallStackFrame;
  heap : list Cell;
  classes : gmap string KClass;
  lambdas : gmap string (option KLambda);
  lambdaTable : gmap string string;
  stdout : list string;
  rngDraws : nat
}.

Definition set_callStack (st : State) (cs : list CallStackFrame) : State :=
  mkState cs (heap st) (classes st) (lambdas st) (lambdaTable st) (stdout st)
    (rngDraws st).

Definition set_heap (st : State) (h : list Cell) : State :=
  mkState (callStack st) h (classes st) (lambdas st) (lambdaTable st) (stdout st)
    (rngDraws st).

Definition set_lambdas (st : State) (ls : gmap string (option KLambda)) : State :=
  mkState (callStack st) (heap st) (classes st) ls (lambdaTable st) (stdout st)
    (rngDraws st).

Definition set_lambdaTable (st : State) (t : gmap string string) : State :=
  mkState (callStack st) (heap st) (classes st) (lambdas st) t (stdout st)
    (rngDraws st).

Definition set_stdout (st : State) (o : list string) : State :=
  mkState (callStack st) (heap st) (classes st) (lambdas st) (lambdaTable st) o
    (rngDraws st).

Definition set_rngDraws (st : State) (n : nat) : State :=
  mkState (callStack st) (heap st) (classes st) (lambdas st) (lambdaTable st)
    (stdout st) n.

(** ** The evaluation monad: state, with [KiwiError]s and crashes *)

Definition M (A : Type) : Type := State -> Result A * State.

Definition ret {A} (a : A) : M A := fun st => (Ok a, st).

Definition bind {A B} (m : M A) (k : A -> M B) : M B :=
  fun st =>
    match m st with
    | (Ok a, st') => k a st'
    | (Throw e, st') => (Throw e, st')
    | (Crash c, st') => (Crash c, st')
    end.

Definition throw {A} (k : ErrorKind) (msg : string) : M A :=
  fun st => (Throw (mkError k msg), st).

Definition crash {A} (c : CrashKind) : M A := fun st => (Crash c, st).

Definition get_state : M State := fun st => (Ok st, st).

Definition modify (f : State -> State) : M unit := fun st => (Ok tt, f st).

(** C++ [try { body } catch (const KiwiError& e) { handler }]: only a
    [KiwiError] reaches the handler, and the state is the one at the throw. *)
Definition try_catch {A} (body : M A) (handler : KiwiError -> M A) : M A :=
  fun st =>
    match body st with
    | (Throw e, st') => handler e st'
    | r => r
    end.

Declare Scope kiwi_scope.
Delimit Scope kiwi_scope with kiwi.
Notation "x <- c1 ;; c2" := (bind c1 (fun x => c2))
  (at level 100, c1 at next level, right associativity) : kiwi_scope.
Notation "c1 ;;; c2" := (bind c1 (fun _ => c2))
  (at level 100, right associativity) : kiwi_scope.
Local Open Scope kiwi_scope.

Definition lift {A} (r : Result A) : M A := fun st => (r, st).

(** ** Access to the call stack and to the shared cells *)

(** [callStack.top()]; on an empty stack the behaviour is undefined. *)
Definition top_frame : M CallStackFrame :=
  fun st =>
    match callStack st with
    | f :: _ => (Ok f, st)
    | [] => (Crash UndefinedBehaviour, st)
    end.

(** [auto frame = callStack.top()] keeps a shared pointer to the frame. The
    pointer is modelled by the frame's height above the bottom of the stack,
    which stays the same under pushes above it. *)
Definition top_frame_id : M nat :=
  fun st =>
    match callStack st with
    | _ :: rest => (Ok (length rest), st)
    | [] => (Crash UndefinedBehaviour, st)
    end.

Definition frame_index (cs : list CallStackFrame) (fid : nat) : nat :=
  (length cs - 1 - fid)%nat.

Definition read_frame (fid : nat) : M CallStackFrame :=
  fun st =>
    if (fid <? length (callStack st))%nat
    then match callStack st !! frame_index (callStack st) fid with
         | Some f => (Ok f, st)
         | None => (Crash UndefinedBehaviour, st)
         end
    else (Crash NotModelled, st).

Definition modify_frame (fid : nat) (g : CallStackFrame -> CallStackFrame)
  : M unit :=
  fun st =>
    if (fid <? length (callStack st))%nat
    then (Ok tt, set_callStack st
                   (alter g (frame_index (callStack st) fid) (callStack st)))
    else (Crash NotModelled, st).

(** [frame->variables[name] = v]. *)
Definition set_var (fid : nat) (name : string) (v : Value) : M unit :=
  modify_frame fid (fun f => set_variables f (<[name := v]> (variables f))).

(** [frame->variables.erase(name)]. *)
Definition erase_var (fid : nat) (name : string) : M unit :=
  modify_frame fid (fun f => set_variables f (delete name (variables f))).

(** [frame->variables[name]] read as a value: [operator[]] inserts the default
    value under a missing name. *)
Definition index_var (fid : nat) (name : string) : M Value :=
  f <- read_frame fid ;;
  match variables f !! name with
  | Some v => ret v
  | None => set_var fid name default_value ;;; ret default_value
  end.

Definition push_frame (f : CallStackFrame) : M unit :=
  modify (fun st => set_callStack st (f :: callStack st)).

(** [std::make_shared]: a fresh cell at the end of the heap. *)
Definition alloc (c : Cell) : M loc :=
  fun st => (Ok (length (heap st)), set_heap st (heap st ++ [c])).

Definition read_list (l : loc) : M (list Value) :=
  fun st =>
    match heap st !! l with
    | Some (CList es) => (Ok es, st)
    | _ => (Crash UndefinedBehaviour, st)
    end.

Definition write_list (l : loc) (es : list Value) : M unit :=
  modify (fun st => set_heap st (<[l := CList es]> (heap st))).

Definition read_hash (l : loc) : M Hash :=
  fun st =>
    match heap st !! l with
    | Some (CHash h) => (Ok h, st)
    | _ => (Crash UndefinedBehaviour, st)
    end.

Definition write_hash (l : loc) (h : Hash) : M unit :=
  modify (fun st => set_heap st (<[l := CHash h]> (heap st))).

Definition read_object (l : loc) : M Object :=
  fun st =>
    match heap st !! l with
    | Some (CObject o) => (Ok o, st)
    | _ => (Crash UndefinedBehaviour, st)
    end.

Definition write_object (l : loc) (o : Object) : M unit :=
  modify (fun st => set_heap st (<[l := CObject o]> (heap st))).

(** [frame->getObjectContext()] dereferenced. *)
Definition object_of_frame (f : CallStackFrame) : M loc :=
  match objectContext f with
  | Some l => ret l
  | None => crash UndefinedBehaviour
  end.

(** ** Collaborators that are not among the sources

    The math facade, the serializer, the conversions of typing/value.h and the
    random generator are called by the evaluator and specified only by their
    interfaces, and the greatest size of a vector of values is a constant of
    the C++ implementation. They are parameters of the embedding. *)
Class Collaborators := {
  (* MathImpl.do_binary_op(token, op, left, right) *)
  do_binary_op : KName -> Value -> Value -> M Value;
  (* MathImpl.is_truthy(value) *)
  is_truthy : Value -> State -> bool;
  (* Serializer::serialize(value) *)
  serialize : Value -> State -> string;
  (* get_integer(token, value) and get_string(token, value) *)
  get_integer : Value -> Result Z;
  get_string : Value -> Result string;
  (* RNG::getInstance().random16(), by the number of earlier draws *)
  random16 : nat -> string;
  (* std::vector<k_value>::max_size() *)
  vector_max_size : Z
}.

(** ** The slice engine (interp_helper.h) *)

(** [SliceIndex] of objects/sliceindex.h, as the helper reads it. *)
Record SliceIndex := mkSlice {
  isSlice : bool;
  indexOrStart : Value;
  stopIndex : Value;
  stepValue : Value
}.

Definition INT_MIN : Z := - 2 ^ 31.
Definition INT_MAX : Z := 2 ^ 31 - 1.

(** [int x = std::get<k_int>(v)]: the narrowing conversion from 64 to 32 bits.
    The sizes of the vectors, cast by [static_cast<int>], are taken to fit. *)
Definition to_int (z : Z) : Z := (z + 2 ^ 31) mod 2 ^ 32 - 2 ^ 31.

(** [i += step] on [int]: signed overflow is undefined. *)
Definition int_add (i step : Z) : Result Z :=
  if (INT_MIN <=? i + step) && (i + step <=? INT_MAX)
  then Ok (i + step) else Crash UndefinedBehaviour.

(** [std::holds_alternative<k_int>] with [std::get<k_int>]. *)
Definition as_int (v : Value) : option Z :=
  match v with VInt n => Some n | _ => None end.

(** The [step == 1] branch of [updateListSlice] on the element vector.
    [erase(begin + start, begin + stop)] needs a valid range, and [std::copy]
    needs room for every element of the right-hand side. *)
Definition update_step1 (elems rhs : list Value) (start stop : Z)
  : Result (list Value) :=
  let listSize := Z.of_nat (length elems) in
  let rhsSize := Z.of_nat (length rhs) in
  if stop <=? start then
    if (start =? stop) && (0 <=? start) && (start <=? listSize)
    then Ok (take (Z.to_nat start) elems ++ rhs ++ drop (Z.to_nat start) elems)
    else Crash UndefinedBehaviour
  else
    if (0 <=? start) && (start + rhsSize <=? listSize)
    then Ok (take (Z.to_nat start) elems ++ rhs
               ++ drop (Z.to_nat (start + rhsSize)) elems)
    else Crash UndefinedBehaviour.

(** The loop of the [step != 1] branch. [n] counts the right-hand values not
    yet used ([rhsSize - rhsIndex]): every turn that does not leave the loop
    uses one. When the right-hand side is the target itself ([aliased]) its
    values are read from the vector being written. *)
Fixpoint update_loop (n : nat) (step stop : Z) (aliased : bool)
    (rhs : list Value) (rhsIndex : nat) (i : Z) (elems : list Value)
  : Result (list Value) :=
  match n with
  | O => Ok elems
  | S n' =>
    let listSize := Z.of_nat (length elems) in
    if i =? stop then Ok elems
    else if ((0 <? step) && (i <? listSize)) || ((step <? 0) && (0 <=? i)) then
      match (if aliased then elems else rhs) !! rhsIndex with
      | None => Crash UndefinedBehaviour
      | Some v =>
        if (0 <=? i) && (i <? listSize) then
          match int_add i step with
          | Ok i' =>
            update_loop n' step stop aliased rhs (S rhsIndex) i'
              (<[Z.to_nat i := v]> elems)
          | Throw e => Throw e
          | Crash c => Crash c
          end
        else Crash UndefinedBehaviour
      end
    else Ok elems
  end.

(** The index arithmetic of [updateListSlice] after the type checks. *)
Definition update_elements (insertOp is_slice aliased : bool)
    (start stop step : Z) (elems rhs : list Value) : Result (list Value) :=
  let stop := if negb is_slice && insertOp then start else stop in
  let listSize := Z.of_nat (length elems) in
  let rhsSize := length rhs in
  let start := if start <? 0 then start + listSize else start in
  let stop := if stop <? 0 then stop + listSize else stop in
  let start := if start <? 0 then 0 else start in
  let stop := if listSize <? stop then listSize else stop in
  let stop := if (step <? 0) && (stop =? listSize) then -1 else stop in
  if step =? 1 then
    if aliased && negb (rhsSize =? 0)%nat
    then Crash UndefinedBehaviour
    else update_step1 elems rhs start stop
  else update_loop rhsSize step stop aliased rhs 0 start elems.

(** [InterpHelper::updateListSlice]: the target list is changed in place. *)
Definition updateListSlice (insertOp : bool) (targetList : loc)
    (slice : SliceIndex) (rhsValues : loc) : M unit :=
  match as_int (indexOrStart slice) with
  | None => throw IndexError "Start index must be an integer."
  | Some start =>
    match as_int (stopIndex slice) with
    | None => throw IndexError "Stop index must be an integer."
    | Some stop =>
      match as_int (stepValue slice) with
      | None => throw IndexError "Step value must be an integer."
      | Some step =>
        elems <- read_list targetList ;;
        rhs <- read_list rhsValues ;;
        elems' <- lift (update_elements insertOp (isSlice slice)
                          (bool_decide (targetList = rhsValues))
                          (to_int start) (to_int stop) (to_int step) elems rhs) ;;
        write_list targetList elems'
      end
    end
  end.

(** The forward loop of [interpretListSlice]:
    [for (int i = start; i < stop; i += step)]. *)
Fixpoint slice_up (fuel : nat) (step stop : Z) (elems : list Value) (i : Z)
    (sliced : list Value) : Result (list Value) :=
  match fuel with
  | O => Crash OutOfFuel
  | S fuel' =>
    if i <? stop then
      if Z.of_nat (length elems) <=? i then Ok sliced
      else if i <? 0 then Crash UndefinedBehaviour
      else match elems !! Z.to_nat i with
           | None => Crash UndefinedBehaviour
           | Some v =>
             match int_add i step with
             | Ok i' => slice_up fuel' step stop elems i' (sliced ++ [v])
             | Throw e => Throw e
             | Crash c => Crash c
             end
           end
    else Ok sliced
  end.

(** The backward loop: [for (int i = ...; i >= stop; i += step)]. *)
Fixpoint slice_down (fuel : nat) (step stop : Z) (elems : list Value) (i : Z)
    (sliced : list Value) : Result (list Value) :=
  match fuel with
  | O => Crash OutOfFuel
  | S fuel' =>
    if stop <=? i then
      if (i <? 0) || (Z.of_nat (length elems) <=? i) then Ok sliced
      else match elems !! Z.to_nat i with
           | None => Crash UndefinedBehaviour
           | Some v =>
             match int_add i step with
             | Ok i' => slice_down fuel' step stop elems i' (sliced ++ [v])
             | Throw e => Throw e
             | Crash c => Crash c
             end
           end
    else Ok sliced
  end.

(** "Adjust negative indices" and "adjust stop for reverse slicing". *)
Definition read_start (start listSize : Z) : Z :=
  if start <? 0 then Z.max (start + listSize) 0 else start.

Definition read_stop (stop step listSize : Z) : Z :=
  let stop := if stop <? 0 then stop + listSize else Z.min stop listSize in
  if (step <? 0) && (stop =? listSize) then -1 else stop.

(** The slice branch of [interpretListSlice] after the type checks. *)
Definition slice_elements (fuel : nat) (start stop step : Z)
    (elems : list Value) : Result (list Value) :=
  let listSize := Z.of_nat (length elems) in
  let start := read_start start listSize in
  let stop := read_stop stop step listSize in
  if step <? 0
  then slice_down fuel step stop elems
         (if start =? 0 then listSize - 1 else start) []
  else slice_up fuel step stop elems start [].

(** [InterpHelper::interpretListSlice]: a slice yields a new list, a single
    index the element itself. *)
Definition interpretListSlice (fuel : nat) (slice : SliceIndex) (lst : loc)
  : M Value :=
  if isSlice slice then
    match as_int (indexOrStart slice) with
    | None => throw IndexError "Start index must be an integer."
    | Some start =>
      match as_int (stopIndex slice) with
      | None => throw IndexError "Stop index must be an integer."
      | Some stop =>
        match as_int (stepValue slice) with
        | None => throw IndexError "Step value must be an integer."
        | Some step =>
          elems <- read_list lst ;;
          sliced <- lift (slice_elements fuel (to_int start) (to_int stop)
                            (to_int step) elems) ;;
          l <- alloc (CList sliced) ;;
          ret (VList l)
        end
      end
    end
  else
    match as_int (indexOrStart slice) with
    | None => throw IndexError "Index value must be an integer."
    | Some index64 =>
      elems <- read_list lst ;;
      let index := to_int index64 in
      let listSize := Z.of_nat (length elems) in
      let index := if index <? 0 then index + listSize else index in
      if (index <? 0) || (listSize <=? index)
      then throw RangeError "List index out of range."
      else match elems !! Z.to_nat index with
           | Some v => ret v
           | None => crash UndefinedBehaviour
           end
    end.

(** ** Frame construction and teardown *)

Definition shouldUpdateFrameVariables (varName : string)
    (nextFrame : CallStackFrame) : bool :=
  bool_decide (is_Some (variables nextFrame !! varName)).

(** [InterpHelper::updateVariablesInCallerFrame]: every variable of the dropped
    frame is visited once; it is stored in the caller when the caller binds
    that name. *)
Definition updateVariablesInCallerFrame (vars : gmap string Value)
    (callerFrame : CallStackFrame) : CallStackFrame :=
  map_fold
    (fun name v caller =>
       if shouldUpdateFrameVariables name caller
       then set_variables caller (<[name := v]> (variables caller))
       else caller)
    callerFrame vars.

(** [KInterpreter::dropFrame]. *)
Definition dropFrame : M Value :=
  fun st =>
    match callStack st with
    | frame :: callerFrame :: rest =>
      let returnValue := returnValue frame in
      let topVariables := variables frame in
      let callerFrame := set_returnValue callerFrame returnValue in
      let callerFrame :=
        if isFlagSet callerFrame SubFrame
        then setFlag callerFrame ReturnFlag
        else callerFrame in
      let callerFrame := updateVariablesInCallerFrame topVariables callerFrame in
      (Ok (VInt 0), set_callStack st (callerFrame :: rest))
    | _ => (Crash UndefinedBehaviour, st)
    end.

(** [KInterpreter::createFrame]: the new frame is returned, not pushed. *)
Definition createFrame (isMethodInvocation : bool) : M CallStackFrame :=
  frame <- top_frame ;;
  let subFrame := new_frame in
  let subFrame :=
    if negb isMethodInvocation
    then set_variables subFrame
           (map_fold (fun name v vars => <[name := v]> vars) ∅ (variables frame))
    else subFrame in
  let subFrame :=
    if inObjectContext frame
    then setFlag (mkFrame (variables subFrame) (returnValue subFrame)
                    (objectContext frame) (flags subFrame)) InObject
    else subFrame in
  let subFrame :=
    if isFlagSet frame InTry then setFlag subFrame InTry else subFrame in
  let subFrame :=
    if isFlagSet frame SubFrame then setFlag subFrame SubFrame else subFrame in
  ret subFrame.

(** ** The visitors, over the evaluator [ev] of the child nodes *)

Definition endl : string := String (Ascii.ascii_of_nat 10) "".

(** [name.at(0) == '@']; [at] throws [std::out_of_range] on an empty name. *)
Definition starts_with_at (name : string) : Result bool :=
  match name with
  | EmptyString => Crash HostException
  | String c _ => Ok (Ascii.eqb c "@"%char)
  end.

Definition set_instanceVariable (o : Object) (name : string) (v : Value)
  : Object :=
  mkObject (className o) (<[name := v]> (instanceVariables o)) (obj_identifier o).

Definition K_INT_MIN : Z := - 2 ^ 63.
Definition K_INT_MAX : Z := 2 ^ 63 - 1.

(** [std::abs(stop - start)] on [k_int]: the subtraction overflows when the
    difference is not a 64-bit value, and [std::abs] has no result for the
    least value; both are undefined behaviour. *)
Definition range_distance (start stop : Z) : Result Z :=
  if (K_INT_MIN <? stop - start) && (stop - start <=? K_INT_MAX)
  then Ok (Z.abs (stop - start))
  else Crash UndefinedBehaviour.

(** The loop of [visit(RangeLiteralNode)]:
    [for (auto i = start; i != stop; i += step) elements.emplace_back(i)].
    [i] moves from [start] towards [stop] and so stays between two values of
    [k_int]: the addition never wraps. *)
Fixpoint range_loop (fuel : nat) (stop step : Z) (i : Z) (elements : list Value)
  : Result (list Value) :=
  match fuel with
  | O => Crash OutOfFuel
  | S fuel' =>
    if i =? stop then Ok elements
    else range_loop fuel' stop step (i + step) (elements ++ [VInt i])
  end.

Section Visitors.

Context `{Collaborators}.
Variable ev : ASTNode -> M Value.

(** [interpret(node.get())] on a pointer that may be null. *)
Definition ev_opt (node : option ASTNode) : M Value :=
  match node with
  | Some n => ev n
  | None => ret (VInt 0)
  end.

(** [for (const auto& stmt : body) interpret(stmt.get());] *)
Fixpoint run_stmts (stmts : list ASTNode) : M unit :=
  match stmts with
  | [] => ret tt
  | stmt :: rest => ev stmt ;;; run_stmts rest
  end.

(** [for (...) result = interpret(stmt.get());] *)
Fixpoint last_result (stmts : list ASTNode) (result : Value) : M Value :=
  match stmts with
  | [] => ret result
  | stmt :: rest => r <- ev stmt ;; last_result rest r
  end.

(** The values of a node vector, left to right ([getMethodCallArguments] and
    the list literal). *)
Fixpoint eval_all (nodes : list ASTNode) : M (list Value) :=
  match nodes with
  | [] => ret []
  | n :: rest => v <- ev n ;; vs <- eval_all rest ;; ret (v :: vs)
  end.

Definition visit_ProgramNode (isScript : bool) (statements : list ASTNode)
  : M Value :=
  (if isScript then ret tt
   else g <- alloc (CHash (mkHash [] ∅)) ;;
        push_frame (set_variables new_frame {[ "global" := VHash g ]})) ;;;
  last_result statements default_value.

Definition visit_LiteralNode (value : Value) : M Value := ret value.

Definition visit_ListLiteralNode (elements : list ASTNode) : M Value :=
  vs <- eval_all elements ;;
  l <- alloc (CList vs) ;;
  ret (VList l).

(** [visit(RangeLiteralNode)]. [numElements] is
    [static_cast<size_t>(std::abs(stop - start)) + 1], with [size_t] taken to
    be 64 bits wide, and [elements.reserve(numElements)] throws
    [std::length_error], which is not a [KiwiError], when that is more than
    the vector can ever hold. Running out of memory is left out, as
    everywhere. *)
Definition visit_RangeLiteralNode (fuel : nat) (rangeStart rangeEnd : ASTNode)
  : M Value :=
  startValue <- ev rangeStart ;;
  stopValue <- ev rangeEnd ;;
  match as_int startValue, as_int stopValue with
  | Some start, Some stop =>
    let step := if stop <? start then -1 else 1 in
    distance <- lift (range_distance start stop) ;;
    let numElements := distance + 1 in
    if vector_max_size <? numElements then crash HostException
    else
      elements <- lift (range_loop fuel stop step start []) ;;
      l <- alloc (CList (elements ++ [VInt stop])) ;;
      ret (VList l)
  | _, _ => throw RangeError "Range value must be an integer."
  end.

Definition visit_MemberAccessNode (object : ASTNode) (memberName : string)
  : M Value :=
  obj <- ev object ;;
  match obj with
  | VHash l =>
    hash <- read_hash l ;;
    if negb (hasKey hash memberName)
    then throw HashKeyError memberName
    else ret (hash_get hash memberName)
  | _ => ret (VInt 0)
  end.

Definition visit_IdentifierNode (name : string) : M Value :=
  frame <- top_frame ;;
  instance_ref <- (if inObjectContext frame
                   then lift (starts_with_at name) else ret false) ;;
  if instance_ref then
    o <- object_of_frame frame ;;
    obj <- read_object o ;;
    match instanceVariables obj !! name with
    | Some v => ret v
    | None =>
      write_object o (set_instanceVariable obj name default_value) ;;;
      ret default_value
    end
  else
    st <- get_state ;;
    match variables frame !! name with
    | Some v => ret v
    | None =>
      if bool_decide (is_Some (classes st !! name)) then ret (VClass name)
      else if bool_decide (is_Some (lambdas st !! name)) then ret (VLambda name)
      else
        match lambdaTable st !! name with
        | Some mappedId =>
          if bool_decide (is_Some (lambdas st !! mappedId))
          then ret (VLambda mappedId)
          else ret (VInt 0)
        | None => ret (VInt 0)
        end
    end.

Definition visit_BinaryOperationNode (left : ASTNode) (op : KName)
    (right : ASTNode) : M Value :=
  l <- ev left ;;
  st <- get_state ;;
  let rest := (r <- ev right ;; do_binary_op op l r) in
  match op with
  | Ops_And => if negb (is_truthy l st) then ret (VBool false) else rest
  | Ops_Or => if is_truthy l st then ret (VBool true) else rest
  | _ => rest
  end.

Definition visit_PrintNode (expression : ASTNode) (printNewline : bool)
  : M Value :=
  value <- ev expression ;;
  modify (fun st =>
            set_stdout st
              (stdout st ++
                 [String.append (serialize value st)
                    (if printNewline then endl else "")])) ;;;
  ret (VInt 0).

Definition string_entry (h : Hash) (key : string) (otherwise : string)
  : string :=
  match kvp h !! key with
  | Some (VString s) => s
  | _ => otherwise
  end.

Definition visit_ThrowNode (errorValue condition : option ASTNode) : M Value :=
  err <- match errorValue with
         | None => ret ("KiwiError", "")
         | Some n =>
           v <- ev n ;;
           match v with
           | VHash l =>
             errorHash <- read_hash l ;;
             ret (string_entry errorHash "error" "KiwiError",
                  string_entry errorHash "message" "")
           | VString s => ret ("KiwiError", s)
           | _ => ret ("KiwiError", "")
           end
         end ;;
  raise <- match condition with
           | None => ret true
           | Some c => cv <- ev c ;; st <- get_state ;; ret (is_truthy cv st)
           end ;;
  if raise : bool
  then throw (KiwiErrorNamed (fst err)) (snd err)
  else ret (VInt 0).

Definition is_assign (op : KName) : bool :=
  match op with Ops_Assign => true | _ => false end.

(** [visit(AssignmentNode)]. Compound assignment is modelled on a frame
    variable; the bitwise-not form and the instance-variable form call parts
    of the math facade that no checked property reaches. *)
Definition visit_AssignmentNode (left : ASTNode) (name : string) (op : KName)
    (initializer : ASTNode) : M Value :=
  fid <- top_frame_id ;;
  _ <- ev left ;;
  value <- ev initializer ;;
  if is_assign op then
    if String.eqb name "global" then throw IllegalNameError name
    else
      match value with
      | VLambda lambdaId =>
        modify (fun st =>
                  let moved := default None (lambdas st !! lambdaId) in
                  set_lambdas st
                    (<[name := moved]> (<[lambdaId := None]> (lambdas st)))) ;;;
        ret value
      | _ =>
        frame <- read_frame fid ;;
        instance_ref <- (if inObjectContext frame
                         then lift (starts_with_at name) else ret false) ;;
        if instance_ref then
          o <- object_of_frame frame ;;
          obj <- read_object o ;;
          write_object o (set_instanceVariable obj name value) ;;;
          ret value
        else
          match value with
          | VObject l =>
            obj <- read_object l ;;
            write_object l
              (mkObject (className obj) (instanceVariables obj) name)
          | _ => ret tt
          end ;;;
          set_var fid name value ;;;
          index_var fid name
      end
  else
    frame <- read_frame fid ;;
    match variables frame !! name with
    | Some oldValue =>
      match op with
      | Ops_BitwiseNotAssign => crash NotModelled
      | _ =>
        newValue <- do_binary_op op oldValue value ;;
        set_var fid name newValue ;;;
        index_var fid name
      end
    | None =>
      if inObjectContext frame then crash NotModelled
      else throw VariableUndefinedError name
    end.

Definition is_indexing (node : ASTNode) : bool :=
  match node with IndexingNode _ _ => true | _ => false end.

(** [visit(IndexingNode)]. An index expression that is itself an
    indexing node goes to [handleNestedIndexing], which is outside the
    modelled fragment. *)
Definition visit_IndexingNode (indexedObject : option ASTNode)
    (indexExpression : ASTNode) : M Value :=
  match indexedObject with
  | None => throw InvalidOperationError "Nothing to index."
  | Some indexed =>
    object <- ev indexed ;;
    indexValue <- ev indexExpression ;;
    if is_indexing indexExpression then crash NotModelled
    else
      match object with
      | VList l =>
        index <- lift (get_integer indexValue) ;;
        elems <- read_list l ;;
        if (index <? 0) || (Z.of_nat (length elems) <=? index)
        then throw RangeError "The index was outside the bounds of the list."
        else match elems !! Z.to_nat index with
             | Some v => ret v
             | None => crash HostException
             end
      | VHash l =>
        key <- lift (get_string indexValue) ;;
        hash <- read_hash l ;;
        if negb (hasKey hash key) then throw HashKeyError key
        else ret (hash_get hash key)
      | VString s =>
        index <- lift (get_integer indexValue) ;;
        if (index <? 0) || (Z.of_nat (String.length s) <=? index)
        then throw RangeError "The index was outside the bounds of the string."
        else match String.get (Z.to_nat index) s with
             | Some c => ret (VString (String c ""))
             | None => crash HostException
             end
      | _ => throw IndexError "Invalid indexing operation."
      end
  end.

(** [KInterpreter::getSlice]. *)
Definition getSlice (startExpression stopExpression stepExpression
                     : option ASTNode) (object : Value) : M SliceIndex :=
  size <- match object with
          | VList l => elems <- read_list l ;; ret (VInt (Z.of_nat (length elems)))
          | VString s => ret (VInt (Z.of_nat (String.length s)))
          | _ => ret default_value
          end ;;
  start <- match startExpression with
           | Some e => ev e
           | None => ret (VInt 0)
           end ;;
  stop <- match stopExpression with
          | Some e => ev e
          | None => ret size
          end ;;
  step <- match stepExpression with
          | Some e => ev e
          | None => ret (VInt 1)
          end ;;
  ret (mkSlice true start stop step).

(** [KInterpreter::doSliceAssignment]. *)
Definition doSliceAssignment (slicedObj : Value) (slice : SliceIndex)
    (newValue : Value) : M Value :=
  match slicedObj, newValue with
  | VList targetList, VList rhsValues =>
    updateListSlice false targetList slice rhsValues ;;;
    ret (VList targetList)
  | _, _ => ret slicedObj
  end.

(** [visit(SliceNode)]. The list case is [InterpHelper::interpretListSlice],
    the only read slicing among the sources; string slicing is not among them. *)
Definition visit_SliceNode (fuel : nat) (slicedObject : option ASTNode)
    (startExpression stopExpression stepExpression : option ASTNode) : M Value :=
  match slicedObject with
  | None => throw InvalidOperationError "Nothing to slice."
  | Some sliced =>
    object <- ev sliced ;;
    slice <- getSlice startExpression stopExpression stepExpression object ;;
    match object with
    | VString _ => crash NotModelled
    | VList l => interpretListSlice fuel slice l
    | _ => throw InvalidOperationError "You can only slice lists and strings."
    end
  end.

(** [visit(IndexAssignmentNode)]; nested targets go to
    [handleNestedIndexing], outside the modelled fragment. *)
Definition visit_IndexAssignmentNode (object : ASTNode) (op : KName)
    (initializer : ASTNode) : M Value :=
  fid <- top_frame_id ;;
  newValue <- ev initializer ;;
  match object with
  | SliceNode slicedObject startExpression stopExpression stepExpression =>
    match slicedObject with
    | None => crash UndefinedBehaviour
    | Some (IdentifierNode identifierName) =>
      slicedObj <- index_var fid identifierName ;;
      slice <- getSlice startExpression stopExpression stepExpression slicedObj ;;
      doSliceAssignment slicedObj slice newValue ;;;
      set_var fid identifierName slicedObj
    | Some _ => ret tt
    end
  | IndexingNode indexedObject indexExpression =>
    match indexedObject with
    | None => crash UndefinedBehaviour
    | Some (IdentifierNode identifierName) =>
      indexedObj <- index_var fid identifierName ;;
      index <- ev indexExpression ;;
      match indexedObj, index with
      | VList l, VInt _ =>
        indexValue <- lift (get_integer index) ;;
        let indexValue := to_int indexValue in
        elems <- read_list l ;;
        if (indexValue <? 0) || (Z.of_nat (length elems) <=? indexValue)
        then throw IndexError "The index was outside the bounds of the list."
        else if is_indexing indexExpression then crash NotModelled
        else
          match elems !! Z.to_nat indexValue with
          | None => crash UndefinedBehaviour
          | Some oldValue =>
            stored <- (if is_assign op then ret newValue
                       else do_binary_op op oldValue newValue) ;;
            elems' <- read_list l ;;
            write_list l (<[Z.to_nat indexValue := stored]> elems') ;;;
            set_var fid identifierName (VList l)
          end
      | VHash l, VString _ =>
        key <- lift (get_string index) ;;
        hash <- read_hash l ;;
        if is_assign op then write_hash l (hash_add hash key newValue)
        else if negb (hasKey hash key) then throw HashKeyError key
        else
          stored <- do_binary_op op (hash_get hash key) newValue ;;
          hash' <- read_hash l ;;
          write_hash l (hash_add hash' key stored)
      | _, _ => ret tt
      end
    | Some (IndexingNode _ _) => crash NotModelled
    | Some _ => ret tt
    end
  | _ => ret tt
  end ;;;
  ret (VInt 0).

(** The name of an optional catch variable, bound to [v] in the frame. *)
Definition bind_catch_variable (fid : nat) (node : option ASTNode) (v : Value)
  : M string :=
  match node with
  | None => ret ""
  | Some n =>
    match id_name n with
    | Some name => set_var fid name v ;;; ret name
    | None => crash UndefinedBehaviour
    end
  end.

Definition erase_catch_variable (fid : nat) (node : option ASTNode)
    (name : string) : M unit :=
  match node with
  | None => ret tt
  | Some _ => erase_var fid name
  end.

Definition is_empty (stmts : list ASTNode) : bool :=
  match stmts with [] => true | _ => false end.

(** [visit(TryNode)]. *)
Definition visit_TryNode (tryBody catchBody finallyBody : list ASTNode)
    (errorType errorMessage : option ASTNode) : M Value :=
  try_catch (run_stmts tryBody)
    (fun e =>
       if negb (is_empty catchBody) then
         fid <- top_frame_id ;;
         errorTypeName <-
           bind_catch_variable fid errorType (VString (getError e)) ;;
         errorMessageName <-
           bind_catch_variable fid errorMessage (VString (message e)) ;;
         run_stmts catchBody ;;;
         erase_catch_variable fid errorType errorTypeName ;;;
         erase_catch_variable fid errorMessage errorMessageName
       else ret tt) ;;;
  (if negb (is_empty finallyBody) then run_stmts finallyBody else ret tt) ;;;
  ret (VInt 0).

(** [InterpHelper::getTemporaryId]. *)
Definition getTemporaryId : M string :=
  fun st =>
    (Ok (String.append "temporary_" (random16 (rngDraws st))),
     set_rngDraws st (S (rngDraws st))).

(** The parameter loop of [visit(LambdaNode)]: a parameter without a
    default is bound to 0, one with a default to its value, evaluated now. *)
Fixpoint lambda_parameters_of (params : list (string * option ASTNode))
  : M (list (string * Value) * list string) :=
  match params with
  | [] => ret ([], [])
  | (paramName, dflt) :: rest =>
    paramValue <- match dflt with
                  | Some e => ev e
                  | None => ret (VInt 0)
                  end ;;
    ps <- lambda_parameters_of rest ;;
    ret ((paramName, paramValue) :: fst ps,
         match dflt with
         | Some _ => paramName :: snd ps
         | None => snd ps
         end)
  end.

Definition visit_LambdaNode (parameters : list (string * option ASTNode))
    (body : list ASTNode) : M Value :=
  tmpId <- getTemporaryId ;;
  ps <- lambda_parameters_of parameters ;;
  modify (fun st =>
            set_lambdaTable
              (set_lambdas st
                 (<[tmpId := Some (mkLambda body (fst ps) (snd ps))]> (lambdas st)))
              (<[tmpId := tmpId]> (lambdaTable st))) ;;;
  ret (VLambda tmpId).

(** The inner loop of [lambdaMap]:
    [for (const auto& stmt : decl.body)
       resultList.emplace_back(interpret(stmt.get()));] *)
Fixpoint collect_stmts (stmts : list ASTNode) (resultList : list Value)
  : M (list Value) :=
  match stmts with
  | [] => ret resultList
  | stmt :: rest => v <- ev stmt ;; collect_stmts rest (resultList ++ [v])
  end.

(** The outer loop of [lambdaMap]: [elements] is a reference to the vector of
    the shared list, so its size and its values are read again at every turn. *)
Fixpoint lambdaMap_loop (fuel : nat) (body : list ASTNode) (fid : nat)
    (mapVariable : string) (lst : loc) (i : nat) (resultList : list Value)
  : M (list Value) :=
  match fuel with
  | O => crash OutOfFuel
  | S fuel' =>
    elements <- read_list lst ;;
    if (i <? length elements)%nat then
      match elements !! i with
      | Some x =>
        set_var fid mapVariable x ;;;
        resultList' <- collect_stmts body resultList ;;
        lambdaMap_loop fuel' body fid mapVariable lst (S i) resultList'
      | None => crash HostException
      end
    else ret resultList
  end.

(** [KInterpreter::lambdaMap]. *)
Definition lambdaMap (fuel : nat) (lambda : option KLambda) (lst : loc)
  : M Value :=
  match lambda with
  | None => crash UndefinedBehaviour
  | Some lam =>
    fid <- top_frame_id ;;
    match lambda_parameters lam with
    | [] => ret (VList lst)
    | (mapVariable, _) :: _ =>
      set_var fid mapVariable (VInt 0) ;;;
      resultList <-
        lambdaMap_loop fuel (lambda_body lam) fid mapVariable lst 0 [] ;;
      erase_var fid mapVariable ;;;
      l <- alloc (CList resultList) ;;
      ret (VList l)
    end
  end.

(** [KInterpreter::interpretListBuiltin], for the built-ins of the fragment. *)
Definition interpretListBuiltin (fuel : nat) (object : Value) (op : KName)
    (arguments : list Value) : M Value :=
  match object with
  | VList lst =>
    match arguments with
    | [arg] =>
      match arg with
      | VLambda identifier =>
        st <- get_state ;;
        match lambdas st !! identifier with
        | None =>
          throw InvalidOperationError
            (String.append "Unrecognized lambda '"
               (String.append identifier "'."))
        | Some lambda =>
          match op with
          | Builtin_List_Map => lambdaMap fuel lambda lst
          | _ =>
            throw InvalidOperationError
              "Invalid specialized list builtin invocation."
          end
        end
      | _ =>
        throw InvalidOperationError
          "Expected a lambda in specialized list builtin."
      end
    | _ =>
      throw InvalidOperationError "Invalid specialized list builtin invocation."
    end
  | _ =>
    throw InvalidOperationError "Expected a list for specialized list builtin."
  end.

Definition is_list_builtin (op : KName) : bool :=
  match op with Builtin_List_Map => true | _ => false end.

(** [visit(MethodCallNode)]; calls on objects and classes are outside
    the modelled fragment. *)
Definition visit_MethodCallNode (fuel : nat) (object : ASTNode)
    (methodName : string) (op : KName) (arguments : list ASTNode) : M Value :=
  obj <- ev object ;;
  match obj with
  | VObject _ => crash NotModelled
  | VClass _ => crash NotModelled
  | _ =>
    if is_list_builtin op then
      args <- eval_all arguments ;;
      interpretListBuiltin fuel obj op args
    else throw UnknownBuiltinError methodName
  end.

End Visitors.

(** ** [KInterpreter::interpret]

    [fuel] bounds the depth of the traversal and the turns of each loop. *)
Fixpoint interpret `{Collaborators} (fuel : nat) (node : ASTNode) : M Value :=
  match fuel with
  | O => crash OutOfFuel
  | S fuel' =>
    let ev := interpret fuel' in
    match node with
    | NoOpNode => ret (VInt 0)
    | ProgramNode isScript statements =>
      visit_ProgramNode ev isScript statements
    | LiteralNode value => visit_LiteralNode value
    | IdentifierNode name => visit_IdentifierNode name
    | ListLiteralNode elements => visit_ListLiteralNode ev elements
    | RangeLiteralNode rangeStart rangeEnd =>
      visit_RangeLiteralNode ev fuel' rangeStart rangeEnd
    | MemberAccessNode object memberName =>
      visit_MemberAccessNode ev object memberName
    | BinaryOperationNode lhs op rhs =>
      visit_BinaryOperationNode ev lhs op rhs
    | PrintNode expression printNewline =>
      visit_PrintNode ev expression printNewline
    | ThrowNode errorValue condition => visit_ThrowNode ev errorValue condition
    | AssignmentNode lhs name op initializer =>
      visit_AssignmentNode ev lhs name op initializer
    | IndexingNode indexedObject indexExpression =>
      visit_IndexingNode ev indexedObject indexExpression
    | SliceNode slicedObject startExpression stopExpression stepExpression =>
      visit_SliceNode ev fuel' slicedObject startExpression stopExpression
        stepExpression
    | IndexAssignmentNode object op initializer =>
      visit_IndexAssignmentNode ev object op initializer
    | TryNode tryBody catchBody finallyBody errorType errorMessage =>
      visit_TryNode ev tryBody catchBody finallyBody errorType errorMessage
    | LambdaNode parameters body => visit_LambdaNode ev parameters body
    | MethodCallNode object methodName op arguments =>
      visit_MethodCallNode ev fuel' object methodName op arguments
    end
  end.

(** ** A model of the collaborators, for running programs *)

(** Modelled from the spec: [MathImpl.do_binary_op] on two integers
    (math/functions.h is not among the sources). The spec leaves the overflow
    policy open; sums and products are exact here. *)
Definition do_binary_op_model (op : KName) (a b : Value) : M Value :=
  match op, a, b with
  | Ops_Add, VInt x, VInt y => ret (VInt (x + y))
  | Ops_Subtract, VInt x, VInt y => ret (VInt (x - y))
  | Ops_Multiply, VInt x, VInt y => ret (VInt (x * y))
  | _, _, _ => crash NotModelled
  end.

(** Modelled from the spec: [MathImpl.is_truthy], true for non-zero numbers,
    non-empty strings, lists and hashes, and the boolean true. *)
Definition is_truthy_model (v : Value) (st : State) : bool :=
  match v with
  | VInt n => negb (n =? 0)
  | VDouble bits => negb (Z.land bits (2 ^ 63 - 1) =? 0)
  | VBool b => b
  | VString s => negb (String.eqb s "")
  | VList l =>
    match heap st !! l with
    | Some (CList (_ :: _)) => true
    | _ => false
    end
  | VHash l =>
    match heap st !! l with
    | Some (CHash h) => negb (bool_decide (keys h = []))
    | _ => false
    end
  | _ => false
  end.

Definition join_comma (parts : list string) : string :=
  match parts with
  | [] => ""
  | p :: rest => fold_left (fun acc q => String.append acc (String.append ", " q)) rest p
  end.

(** Modelled from the spec: [Serializer::serialize], as the scenarios print
    values: an integer in decimal, a string as it is, a list as [[1, 9, 9, 5]].
    [depth] bounds the nesting of lists that is followed. *)
Fixpoint serialize_model (depth : nat) (v : Value) (st : State) : string :=
  match v with
  | VInt n => pretty n
  | VBool b => if b then "true" else "false"
  | VString s => s
  | VList l =>
    match depth, heap st !! l with
    | S d, Some (CList es) =>
      String.append "["
        (String.append (join_comma (map (fun e => serialize_model d e st) es)) "]")
    | _, _ => "[...]"
    end
  | _ => "<value>"
  end.

(** Modelled from the spec: [get_integer] and [get_string] of typing/value.h
    (not among the sources) return the integer or the string that the value
    holds; on a value of another kind they are taken to fail with the
    [ConversionError] of the spec's error taxonomy. *)
Definition get_integer_model (v : Value) : Result Z :=
  match v with
  | VInt n => Ok n
  | _ => Throw (mkError ConversionError "Expected an integer value.")
  end.

Definition get_string_model (v : Value) : Result string :=
  match v with
  | VString s => Ok s
  | _ => Throw (mkError ConversionError "Expected a string value.")
  end.

(** The collaborators used to run programs. [vector_max_size] is taken at
    its upper bound on a 64-bit platform, [PTRDIFF_MAX]; an implementation
    gives that or less. *)
#[export] Instance model_collaborators : Collaborators := {
  do_binary_op := do_binary_op_model;
  is_truthy := is_truthy_model;
  serialize := serialize_model 8;
  get_integer := get_integer_model;
  get_string := get_string_model;
  random16 := fun n => pretty (Z.of_nat n);
  vector_max_size := 2 ^ 63 - 1
}.

(** The state before a program starts. *)
Definition initial_state : State := mkState [] [] ∅ ∅ ∅ [] 0.

(** A state with the root frame of a program in place. *)
Definition root_state : State := mkState [new_frame] [] ∅ ∅ ∅ [] 0.

Definition int_lit (n : Z) : ASTNode := LiteralNode (VInt n).
Definition str_lit (s : string) : ASTNode := LiteralNode (VString s).

(** Scenario S1: [x = [1,2,3,4,5]; x[1:4] = [9,9]; println x]. *)
Definition program_S1 : ASTNode :=
  ProgramNode false
    [ AssignmentNode (IdentifierNode "x") "x" Ops_Assign
        (ListLiteralNode [int_lit 1; int_lit 2; int_lit 3; int_lit 4; int_lit 5]);
      IndexAssignmentNode
        (SliceNode (Some (IdentifierNode "x")) (Some (int_lit 1))
           (Some (int_lit 4)) None)
        Ops_Assign (ListLiteralNode [int_lit 9; int_lit 9]);
      PrintNode (IdentifierNode "x") true ].

(** Scenario S3: [f = (x) -> x*2; println [1,2,3].map(f)]. *)
Definition lambda_double : ASTNode :=
  LambdaNode [("x", None)]
    [BinaryOperationNode (IdentifierNode "x") Ops_Multiply (int_lit 2)].

Definition program_S3 : ASTNode :=
  ProgramNode false
    [ AssignmentNode (IdentifierNode "f") "f" Ops_Assign lambda_double;
      PrintNode
        (MethodCallNode (ListLiteralNode [int_lit 1; int_lit 2; int_lit 3])
           "map" Builtin_List_Map [IdentifierNode "f"])
        true ].

(** Scenario S4: [try throw "oops" catch (e, m) println m finally println "done" end]. *)
Definition program_S4 : ASTNode :=
  ProgramNode false
    [ TryNode
        [ThrowNode (Some (str_lit "oops")) None]
        [PrintNode (IdentifierNode "m") true]
        [PrintNode (str_lit "done") true]
        (Some (IdentifierNode "e")) (Some (IdentifierNode "m")) ].

(** A try statement whose catch body raises:
    [try throw "oops" catch (e, m) throw "again" finally println "done" end]. *)
Definition program_catch_raises : ASTNode :=
  ProgramNode false
    [ TryNode
        [ThrowNode (Some (str_lit "oops")) None]
        [ThrowNode (Some (str_lit "again")) None]
        [PrintNode (str_lit "done") true]
        (Some (IdentifierNode "e")) (Some (IdentifierNode "m")) ].

(** [println [10,20,30][-1]]. *)
Definition program_negative_index : ASTNode :=
  ProgramNode false
    [ PrintNode
        (IndexingNode
           (Some (ListLiteralNode [int_lit 10; int_lit 20; int_lit 30]))
           (int_lit (-1)))
        true ].

(** [println [1,2,3].map(g)] for a lambda [g] of one parameter [x] whose body
    has the two statements [x * 2] and [x]. *)
Definition lambda_two_statements : ASTNode :=
  LambdaNode [("x", None)]
    [ BinaryOperationNode (IdentifierNode "x") Ops_Multiply (int_lit 2);
      IdentifierNode "x" ].

Definition program_map_two_statements : ASTNode :=
  ProgramNode false
    [ AssignmentNode (IdentifierNode "g") "g" Ops_Assign lambda_two_statements;
      PrintNode
        (MethodCallNode (ListLiteralNode [int_lit 1; int_lit 2; int_lit 3])
           "map" Builtin_List_Map [IdentifierNode "g"])
        true ].

(** [x = [1,2,3]; x[0:3:0] = [9]; println x[2:1:0]]. *)
Definition program_step_zero : ASTNode :=
  ProgramNode false
    [ AssignmentNode (IdentifierNode "x") "x" Ops_Assign
        (ListLiteralNode [int_lit 1; int_lit 2; int_lit 3]);
      IndexAssignmentNode
        (SliceNode (Some (IdentifierNode "x")) (Some (int_lit 0))
           (Some (int_lit 3)) (Some (int_lit 0)))
        Ops_Assign (ListLiteralNode [int_lit 9]);
      PrintNode
        (SliceNode (Some (IdentifierNode "x")) (Some (int_lit 2))
           (Some (int_lit 1)) (Some (int_lit 0)))
        true ].

(** ** States used to instantiate the theorems *)

(** A frame in the context of the object at address 0 that binds ["@x"] and
    ["y"] locally, and a state whose object has the instance variable ["@x"]. *)
Definition object_frame : CallStackFrame :=
  setObjectContext
    (mkFrame {[ "@x" := VInt 1; "y" := VInt 2 ]} default_value None FlagNone)
    0%nat.

Definition object_state : State :=
  mkState [object_frame] [CObject (mkObject "A" {[ "@x" := VInt 7 ]} "")]
    {[ "A" := mkClass "A" "" ]} ∅ ∅ [] 0.

(** A root frame binding ["x"], with the lambda ["f"] and the class ["A"]
    registered and ["g"] mapped to ["f"] by the indirection table. *)
Definition registry_state : State :=
  mkState [mkFrame {[ "x" := VInt 5 ]} default_value None FlagNone] []
    {[ "A" := mkClass "A" "" ]}
    {[ "f" := Some (mkLambda [IdentifierNode "x"] [("x", VInt 0)] []) ]}
    {[ "g" := "f" ]} [] 0.

(** A callee frame on top of a caller frame that has the SubFrame flag. *)
Definition callee_frame : CallStackFrame :=
  mkFrame {[ "i" := VInt 3; "tmp" := VInt 8 ]} (VInt 42) None FlagNone.

Definition caller_frame : CallStackFrame :=
  mkFrame {[ "i" := VInt 0; "n" := VInt 10 ]} default_value None SubFrame.

Definition call_state : State :=
  mkState [callee_frame; caller_frame] [] ∅ ∅ ∅ [] 0.

(** The lists [[1, 2, 3]] at address 0 and [[9]] at address 1, and the hash
    [{"a": 1}] at address 2. *)
Definition list_state : State :=
  mkState [new_frame]
    [ CList [VInt 1; VInt 2; VInt 3]; CList [VInt 9];
      CHash (mkHash ["a"] {[ "a" := VInt 1 ]}) ]
    ∅ ∅ ∅ [] 0.

(** ** Token look-ahead of the stream helper (interp_helper.h)

    The helper decides what a bracket opens by scanning the tokens ahead of
    the stream position. Only the type of a token is read; the types are the
    ones that the helper names. *)

Inductive TokenType :=
| COLON
| OPERATOR
| OPEN_BRACKET
| CLOSE_BRACKET
| OPEN_BRACE
| CLOSE_BRACE
| OPEN_PAREN
| CLOSE_PAREN
| RANGE
| IDENTIFIER
| LITERAL
| STRING
| KEYWORD
| DECLVAR.

Record Token := mkToken {
  getType : TokenType;
  getText : string
}.

Record TokenStream := mkStream {
  tokens : list Token;
  position : nat
}.

Definition is_colon_or_operator (token : Token) : bool :=
  match getType token with
  | COLON | OPERATOR => true
  | _ => false
  end.

Definition is_range (token : Token) : bool :=
  match getType token with RANGE => true | _ => false end.

Definition is_open_bracket (token : Token) : bool :=
  match getType token with OPEN_BRACKET => true | _ => false end.

Definition is_close_bracket (token : Token) : bool :=
  match getType token with CLOSE_BRACKET => true | _ => false end.

(** The loop of [isSliceAssignmentExpression]; [tokens.at] throws
    [std::out_of_range] past the end. *)
Fixpoint slice_assignment_loop (fuel : nat) (toks : list Token) (pos : nat)
    (token : Token) : Result bool :=
  match fuel with
  | O => Crash OutOfFuel
  | S fuel' =>
    if (pos <? length toks)%nat then
      if is_colon_or_operator token then Ok true
      else match toks !! S pos with
           | Some token' => slice_assignment_loop fuel' toks (S pos) token'
           | None => Crash HostException
           end
    else Ok false
  end.

(** [InterpHelper::isSliceAssignmentExpression]. *)
Definition isSliceAssignmentExpression (fuel : nat) (stream : TokenStream)
  : Result bool :=
  match tokens stream !! position stream with
  | Some token =>
    slice_assignment_loop fuel (tokens stream) (position stream) token
  | None => Crash HostException
  end.

(** The loop of [isRangeExpression]; [counter] is the bracket depth. *)
Fixpoint range_expression_loop (fuel : nat) (toks : list Token) (pos : nat)
    (token : Token) (counter : Z) : Result bool :=
  match fuel with
  | O => Crash OutOfFuel
  | S fuel' =>
    if (pos <? length toks)%nat && (0 <? counter) then
      let counter' :=
        if is_open_bracket token then counter + 1
        else if is_close_bracket token then counter - 1
        else counter in
      if negb (is_open_bracket token) && is_close_bracket token
         && (counter' =? 0)
      then Ok false
      else if is_range token then Ok true
      else match toks !! S pos with
           | Some token' =>
             range_expression_loop fuel' toks (S pos) token' counter'
           | None => Crash HostException
           end
    else Ok false
  end.

(** [InterpHelper::isRangeExpression]: the stream stands on the opening
    bracket. *)
Definition isRangeExpression (fuel : nat) (stream : TokenStream)
  : Result bool :=
  match tokens stream !! S (position stream) with
  | Some token =>
    range_expression_loop fuel (tokens stream) (S (position stream)) token 1
  | None => Crash HostException
  end.

(** ** Function calls *)

(** The six flags of [FrameFlags]. *)
Definition frame_flags : list FrameFlags :=
  [ReturnFlag; SubFrame; LoopBreak; LoopContinue; InTry; InObject].

(** [KFunction] of objects/method.h, as [callFunction] reads it: the body of
    the declaration, the parameters with their default values, and the names
    of the parameters that have a default. *)
Record KFunction := mkFunction {
  function_body : list ASTNode;
  function_parameters : list (string * Value);
  function_defaultParameters : list string
}.

(** [ParameterCountMismatchError]: a subclass of [KiwiError] like the others;
    its message names the function. *)
Definition ParameterCountMismatchError : ErrorKind :=
  KiwiErrorNamed "ParameterCountMismatchError".

(** [throw;] in a handler. *)
Definition rethrow {A} (e : KiwiError) : M A := fun st => (Throw e, st).

Section Calls.

Context `{Collaborators}.
Variable ev : ASTNode -> M Value.

(** [visit(ReturnNode)]. *)
Definition visit_ReturnNode (returnExpression condition : option ASTNode)
  : M Value :=
  fid <- top_frame_id ;;
  value <- ev_opt ev returnExpression ;;
  returns <- match condition with
             | None => ret true
             | Some c => cv <- ev c ;; st <- get_state ;; ret (is_truthy cv st)
             end ;;
  if returns : bool then
    modify_frame fid (fun f => set_returnValue (setFlag f ReturnFlag) value) ;;;
    ret value
  else ret value.

(** [KInterpreter::executeFunctionBody]. *)
Fixpoint executeFunctionBody (body : list ASTNode) (result : Value) : M Value :=
  match body with
  | [] => ret result
  | stmt :: rest =>
    result' <- ev stmt ;;
    frame <- top_frame ;;
    if isFlagSet frame ReturnFlag then ret (returnValue frame)
    else executeFunctionBody rest result'
  end.

(** The parameter loop of [callFunction]: the i-th parameter takes the i-th
    argument, evaluated in the caller; without one it takes its default, and
    without a default the call fails. A lambda argument goes to the
    indirection table instead of the frame. *)
Fixpoint bind_parameters (functionName : string)
    (defaultParameters : list string) (parameters : list (string * Value))
    (arguments : list ASTNode) (functionFrame : CallStackFrame)
  : M CallStackFrame :=
  match parameters with
  | [] => ret functionFrame
  | (paramName, paramDefault) :: rest =>
    argValue <- match arguments with
                | arg :: _ => ev arg
                | [] =>
                  if bool_decide (paramName ∈ defaultParameters)
                  then ret paramDefault
                  else throw ParameterCountMismatchError functionName
                end ;;
    functionFrame' <-
      match argValue with
      | VLambda lambdaId =>
        modify (fun st =>
                  set_lambdaTable st
                    (<[paramName := lambdaId]> (lambdaTable st))) ;;;
        ret functionFrame
      | _ =>
        ret (set_variables functionFrame
               (<[paramName := argValue]> (variables functionFrame)))
      end ;;
    bind_parameters functionName defaultParameters rest (tail arguments)
      functionFrame'
  end.

(** [KInterpreter::callFunction]. *)
Definition callFunction (function : KFunction) (arguments : list ASTNode)
    (functionName : string) : M Value :=
  functionFrame <- createFrame false ;;
  functionFrame <-
    bind_parameters functionName (function_defaultParameters function)
      (function_parameters function) arguments functionFrame ;;
  push_frame functionFrame ;;;
  try_catch
    (result <- executeFunctionBody (function_body function) default_value ;;
     dropFrame ;;;
     ret result)
    (fun e => dropFrame ;;; rethrow e).

End Calls.

(** ** The for loop over a list *)

(** A statement of a loop body: the loops test [stmt->type] for the [next]
    and [break] statements and evaluate every other statement. *)
Inductive LoopStatement :=
| Statement (stmt : ASTNode)
| NextNode (condition : option ASTNode)
| BreakNode (condition : option ASTNode).

Section Loops.

Context `{Collaborators}.
Variable ev : ASTNode -> M Value.

(** [!node->condition || MathImpl.is_truthy(interpret(node->condition.get()))]. *)
Definition loop_condition (condition : option ASTNode) : M bool :=
  match condition with
  | None => ret true
  | Some c => cv <- ev c ;; st <- get_state ;; ret (is_truthy cv st)
  end.

(** The statement loop of [listLoop]: the result so far and [fallOut]. *)
Fixpoint loop_body (fid : nat) (body : list LoopStatement) (result : Value)
  : M (Value * bool) :=
  match body with
  | [] => ret (result, false)
  | stmt :: rest =>
    result' <- match stmt with
               | Statement s => ev s
               | _ => ret result
               end ;;
    frame <- read_frame fid ;;
    if isFlagSet frame ReturnFlag then ret (result', false)
    else
      match stmt with
      | Statement _ => loop_body fid rest result'
      | NextNode condition =>
        leave <- loop_condition condition ;;
        if leave : bool then ret (result', false)
        else loop_body fid rest result'
      | BreakNode condition =>
        leave <- loop_condition condition ;;
        if leave : bool then ret (result', true)
        else loop_body fid rest result'
      end
  end.

(** The element loop of [listLoop]: [elements] is a reference to the vector
    of the shared list and is read again at every turn. *)
Fixpoint listLoop_turns (fuel : nat) (fid : nat) (valueIteratorName : string)
    (indexIteratorName : option string) (body : list LoopStatement)
    (lst : loc) (i : nat) (fallOut : bool) (result : Value) : M Value :=
  match fuel with
  | O => crash OutOfFuel
  | S fuel' =>
    elements <- read_list lst ;;
    if (i <? length elements)%nat then
      if fallOut then ret result
      else
        match elements !! i with
        | None => crash HostException
        | Some x =>
          set_var fid valueIteratorName x ;;;
          match indexIteratorName with
          | Some name => set_var fid name (VInt (Z.of_nat i))
          | None => ret tt
          end ;;;
          r <- loop_body fid body result ;;
          listLoop_turns fuel' fid valueIteratorName indexIteratorName body lst
            (S i) (snd r) (fst r)
        end
    else ret result
  end.

(** [KInterpreter::listLoop]. *)
Definition listLoop (fuel : nat) (valueIterator : ASTNode)
    (indexIterator : option ASTNode) (body : list LoopStatement) (lst : loc)
  : M Value :=
  fid <- top_frame_id ;;
  match id_name valueIterator with
  | None => crash UndefinedBehaviour
  | Some valueIteratorName =>
    indexIteratorName <-
      match indexIterator with
      | None => ret None
      | Some node =>
        match id_name node with
        | Some name => ret (Some name)
        | None => crash UndefinedBehaviour
        end
      end ;;
    result <- listLoop_turns fuel fid valueIteratorName indexIteratorName body
                lst 0 false default_value ;;
    erase_var fid valueIteratorName ;;;
    match indexIteratorName with
    | Some name => erase_var fid name
    | None => ret tt
    end ;;;
    ret result
  end.

(** ** The other lambda built-ins of lists *)

(** The element loop of [lambdaEach] and of [lambdaReduce]. *)
Fixpoint lambdaEach_loop (fuel : nat) (body : list ASTNode) (fid : nat)
    (valueVariable : string) (indexVariable : option string) (lst : loc)
    (i : nat) (result : Value) : M Value :=
  match fuel with
  | O => crash OutOfFuel
  | S fuel' =>
    elements <- read_list lst ;;
    if (i <? length elements)%nat then
      match elements !! i with
      | None => crash HostException
      | Some x =>
        set_var fid valueVariable x ;;;
        match indexVariable with
        | Some name => set_var fid name (VInt (Z.of_nat i))
        | None => ret tt
        end ;;;
        result' <- last_result ev body result ;;
        lambdaEach_loop fuel' body fid valueVariable indexVariable lst (S i)
          result'
      end
    else ret result
  end.

(** The second parameter of a lambda, when it has one. *)
Definition second_parameter (parameters : list (string * Value))
  : option string :=
  match parameters with
  | _ :: (name, _) :: _ => Some name
  | _ => None
  end.

(** [KInterpreter::lambdaEach]. *)
Definition lambdaEach (fuel : nat) (lambda : option KLambda) (lst : loc)
  : M Value :=
  match lambda with
  | None => crash UndefinedBehaviour
  | Some lam =>
    fid <- top_frame_id ;;
    match lambda_parameters lam with
    | [] => ret (VInt 0)
    | (valueVariable, _) :: _ =>
      let indexVariable := second_parameter (lambda_parameters lam) in
      set_var fid valueVariable (VInt 0) ;;;
      match indexVariable with
      | Some name => set_var fid name (VInt 0)
      | None => ret tt
      end ;;;
      result <- lambdaEach_loop fuel (lambda_body lam) fid valueVariable
                  indexVariable lst 0 default_value ;;
      erase_var fid valueVariable ;;;
      match indexVariable with
      | Some name => erase_var fid name
      | None => ret tt
      end ;;;
      ret result
    end
  end.

(** The statement loop of [lambdaSelect]: the element is appended once for
    every statement whose value is truthy. *)
Fixpoint select_stmts (stmts : list ASTNode) (lst : loc) (i : nat)
    (resultList : list Value) : M (list Value) :=
  match stmts with
  | [] => ret resultList
  | stmt :: rest =>
    result <- ev stmt ;;
    st <- get_state ;;
    if is_truthy result st then
      elements <- read_list lst ;;
      match elements !! i with
      | Some x => select_stmts rest lst i (resultList ++ [x])
      | None => crash HostException
      end
    else select_stmts rest lst i resultList
  end.

Fixpoint lambdaSelect_loop (fuel : nat) (body : list ASTNode) (fid : nat)
    (valueVariable : string) (indexVariable : option string) (lst : loc)
    (i : nat) (resultList : list Value) : M (list Value) :=
  match fuel with
  | O => crash OutOfFuel
  | S fuel' =>
    elements <- read_list lst ;;
    if (i <? length elements)%nat then
      match elements !! i with
      | None => crash HostException
      | Some x =>
        set_var fid valueVariable x ;;;
        match indexVariable with
        | Some name => set_var fid name (VInt (Z.of_nat i))
        | None => ret tt
        end ;;;
        resultList' <- select_stmts body lst i resultList ;;
        lambdaSelect_loop fuel' body fid valueVariable indexVariable lst (S i)
          resultList'
      end
    else ret resultList
  end.

(** [KInterpreter::lambdaSelect]. Without parameters [valueVariable] stays
    the empty string, and the elements are bound under that name. *)
Definition lambdaSelect (fuel : nat) (lambda : option KLambda) (lst : loc)
  : M Value :=
  match lambda with
  | None => crash UndefinedBehaviour
  | Some lam =>
    fid <- top_frame_id ;;
    let valueVariable :=
      match lambda_parameters lam with
      | (name, _) :: _ => name
      | [] => ""
      end in
    let indexVariable := second_parameter (lambda_parameters lam) in
    match lambda_parameters lam with
    | [] => ret tt
    | _ :: _ => set_var fid valueVariable (VInt 0)
    end ;;;
    match indexVariable with
    | Some name => set_var fid name (VInt 0)
    | None => ret tt
    end ;;;
    resultList <- lambdaSelect_loop fuel (lambda_body lam) fid valueVariable
                    indexVariable lst 0 [] ;;
    erase_var fid valueVariable ;;;
    match indexVariable with
    | Some name => erase_var fid name
    | None => ret tt
    end ;;;
    l <- alloc (CList resultList) ;;
    ret (VList l)
  end.

(** [KInterpreter::lambdaNone]. *)
Definition lambdaNone (fuel : nat) (lambda : option KLambda) (lst : loc)
  : M Value :=
  selected <- lambdaSelect fuel lambda lst ;;
  match selected with
  | VList l =>
    elements <- read_list l ;;
    ret (VBool (bool_decide (elements = [])))
  | _ => ret (VBool false)
  end.

(** [KInterpreter::lambdaReduce]. *)
Definition lambdaReduce (fuel : nat) (lambda : option KLambda)
    (accumulator : Value) (lst : loc) : M Value :=
  match lambda with
  | None => crash UndefinedBehaviour
  | Some lam =>
    fid <- top_frame_id ;;
    match lambda_parameters lam with
    | [(accumVariable, _); (valueVariable, _)] =>
      set_var fid accumVariable accumulator ;;;
      set_var fid valueVariable (VInt 0) ;;;
      lambdaEach_loop fuel (lambda_body lam) fid valueVariable None lst 0
        default_value ;;;
      result <- index_var fid accumVariable ;;
      erase_var fid accumVariable ;;;
      erase_var fid valueVariable ;;;
      ret result
    | _ => ret accumulator
    end
  end.

End Loops.

(** ** Further inputs used to instantiate the theorems *)

(** [interpret], with the no-op node standing for the statement [return 7]:
    the return statement is not among the node kinds of [ASTNode]. *)
Definition interpret_with_return (fuel : nat) (node : ASTNode) : M Value :=
  match node with
  | NoOpNode => visit_ReturnNode (interpret fuel) (Some (int_lit 7)) None
  | _ => interpret fuel node
  end.

(** ** Proof steps

    [step_with bind_ok tac] runs the first computation of a sequence whose
    result [tac] establishes. *)
Ltac step_with lem tac :=
  cbv beta match; erewrite lem; [| tac]; cbv beta match.

(** * Properties *)

(** ** Frames *)

Lemma updateVariablesInCallerFrame_spec (vars : gmap string Value)
    (caller : CallStackFrame) :
  let caller' := updateVariablesInCallerFrame vars caller in
  returnValue caller' = returnValue caller /\
  objectContext caller' = objectContext caller /\
  flags caller' = flags caller /\
  forall name : string,
    variables caller' !! name =
    match variables caller !! name with
    | Some old => Some (default old (vars !! name))
    | None => None
    end.
Proof.
  unfold updateVariablesInCallerFrame.
  apply (map_fold_weak_ind
           (fun (r : CallStackFrame) (m : gmap string Value) =>
              returnValue r = returnValue caller /\
              objectContext r = objectContext caller /\
              flags r = flags caller /\
              forall name : string,
                variables r !! name =
                match variables caller !! name with
                | Some old => Some (default old (m !! name))
                | None => None
                end)).
  - repeat split; try reflexivity.
    intros name. rewrite lookup_empty. simpl. by destruct (variables caller !! name).
  - intros k v m r Hfresh (Hrv & Hoc & Hfl & Hvars).
    unfold shouldUpdateFrameVariables.
    case_bool_decide as Hk.
    + simpl. repeat split; try assumption.
      intros name. destruct (decide (k = name)) as [<-|Hne].
      * rewrite !lookup_insert_eq.
        destruct Hk as [w Hw]. rewrite Hvars in Hw.
        destruct (variables caller !! k); [done | discriminate].
      * rewrite !lookup_insert_ne by done. apply Hvars.
    + repeat split; try assumption.
      intros name. destruct (decide (k = name)) as [<-|Hne].
      * rewrite lookup_insert_eq. rewrite Hvars in Hk. rewrite Hvars.
        destruct (variables caller !! k); [|done].
        exfalso. apply Hk. eauto.
      * rewrite lookup_insert_ne by done. apply Hvars.
Qed.

Lemma land_lor_self (x flag : Z) : Z.land (Z.lor x flag) flag = flag.
Proof.
  rewrite Z.land_lor_distr_l, Z.land_diag.
  apply Z.bits_inj'. intros n Hn.
  rewrite Z.lor_spec, Z.land_spec.
  destruct (Z.testbit x n), (Z.testbit flag n); reflexivity.
Qed.

(** C6: [dropFrame] moves the return value of the popped frame into the
    caller's slot, sets the caller's Return flag exactly when the caller has
    SubFrame (the flags are left as they were otherwise), overwrites the
    caller's binding of every name that both frames bind with the popped
    frame's value, leaves the caller's other bindings alone and adds none. *)
Theorem dropFrame_effect (st : State) (frame callerFrame : CallStackFrame)
    (rest : list CallStackFrame) :
  callStack st = frame :: callerFrame :: rest ->
  exists callerFrame' : CallStackFrame,
    dropFrame st = (Ok (VInt 0), set_callStack st (callerFrame' :: rest)) /\
    returnValue callerFrame' = returnValue frame /\
    flags callerFrame' =
      (if isFlagSet callerFrame SubFrame
       then Z.lor (flags callerFrame) ReturnFlag
       else flags callerFrame) /\
    (isFlagSet callerFrame SubFrame = true ->
     isFlagSet callerFrame' ReturnFlag = true) /\
    (forall (name : string) (v old : Value),
        variables frame !! name = Some v ->
        variables callerFrame !! name = Some old ->
        variables callerFrame' !! name = Some v) /\
    (forall name : string,
        variables frame !! name = None ->
        variables callerFrame' !! name = variables callerFrame !! name) /\
    (forall name : string,
        variables callerFrame !! name = None ->
        variables callerFrame' !! name = None).
Proof.
  intros Hstack. unfold dropFrame. rewrite Hstack.
  set (c1 := set_returnValue callerFrame (returnValue frame)).
  set (c2 := if isFlagSet c1 SubFrame then setFlag c1 ReturnFlag else c1).
  destruct (updateVariablesInCallerFrame_spec (variables frame) c2)
    as (Hrv & _ & Hfl & Hvars).
  assert (Hsub : isFlagSet c1 SubFrame = isFlagSet callerFrame SubFrame)
    by reflexivity.
  assert (Hc2vars : variables c2 = variables callerFrame).
  { unfold c2. destruct (isFlagSet c1 SubFrame); reflexivity. }
  assert (Hc2flags : flags c2 =
            if isFlagSet callerFrame SubFrame
            then Z.lor (flags callerFrame) ReturnFlag else flags callerFrame).
  { unfold c2. rewrite Hsub. destruct (isFlagSet callerFrame SubFrame); reflexivity. }
  eexists. split; [reflexivity|].
  split.
  { rewrite Hrv. unfold c2. destruct (isFlagSet c1 SubFrame); reflexivity. }
  split.
  { rewrite Hfl. exact Hc2flags. }
  split.
  { intros Hset. unfold isFlagSet. rewrite Hfl, Hc2flags, Hset.
    rewrite land_lor_self. apply Z.eqb_refl. }
  split.
  { intros name v old Hv Hold. rewrite Hvars, Hc2vars, Hold, Hv. reflexivity. }
  split.
  { intros name Hnone. rewrite Hvars, Hc2vars, Hnone.
    destruct (variables callerFrame !! name); reflexivity. }
  intros name Hnone. rewrite Hvars, Hc2vars, Hnone. reflexivity.
Qed.

(** [dropFrame_effect] on [call_state]: the callee returns 42 and binds [i]
    and [tmp]; the caller has SubFrame and binds [i] and [n]. *)
Lemma dropFrame_effect_witness :
  callStack call_state = [callee_frame; caller_frame] /\
  exists callerFrame' : CallStackFrame,
    dropFrame call_state = (Ok (VInt 0), set_callStack call_state [callerFrame']) /\
    returnValue callerFrame' = VInt 42 /\
    isFlagSet callerFrame' ReturnFlag = true /\
    variables callerFrame' !! "i" = Some (VInt 3) /\
    variables callerFrame' !! "n" = Some (VInt 10) /\
    variables callerFrame' !! "tmp" = None.
Proof.
  split; [reflexivity|].
  destruct (dropFrame_effect call_state callee_frame caller_frame [] eq_refl)
    as (c & Hdrop & Hrv & _ & Hflag & Hboth & Hcaller & Hnone).
  exists c. split; [exact Hdrop|]. split; [exact Hrv|].
  split; [apply Hflag; reflexivity|].
  split; [apply (Hboth "i" (VInt 3) (VInt 0)); reflexivity|].
  split; [rewrite (Hcaller "n"); reflexivity|].
  apply Hnone. reflexivity.
Defined.

(** ** Identifiers *)

(** C7 (amended): an identifier that is not an instance-variable reference
    (the frame has no object context, or the name does not start with @) is
    resolved in this order: the local binding of the top frame, then the class
    registry (a ClassRef), then the lambda registry (a LambdaRef of the name),
    then the lambda indirection table (a LambdaRef of the mapped identifier,
    when that identifier is registered); otherwise it is integer 0. No error
    is raised and the state is unchanged. *)
Theorem identifier_resolution_order `{Collaborators} (name : string)
    (st : State) (frame : CallStackFrame) (rest : list CallStackFrame) :
  callStack st = frame :: rest ->
  (inObjectContext frame = false \/
   exists (c : ascii) (s : string), name = String c s /\ c <> "@"%char) ->
  (forall v : Value,
      variables frame !! name = Some v ->
      visit_IdentifierNode name st = (Ok v, st)) /\
  (variables frame !! name = None ->
   (is_Some (classes st !! name) ->
    visit_IdentifierNode name st = (Ok (VClass name), st)) /\
   (classes st !! name = None ->
    (is_Some (lambdas st !! name) ->
     visit_IdentifierNode name st = (Ok (VLambda name), st)) /\
    (lambdas st !! name = None ->
     (forall mappedId : string,
         lambdaTable st !! name = Some mappedId ->
         is_Some (lambdas st !! mappedId) ->
         visit_IdentifierNode name st = (Ok (VLambda mappedId), st)) /\
     (forall mappedId : string,
         lambdaTable st !! name = Some mappedId ->
         lambdas st !! mappedId = None ->
         visit_IdentifierNode name st = (Ok (VInt 0), st)) /\
     (lambdaTable st !! name = None ->
      visit_IdentifierNode name st = (Ok (VInt 0), st))))).
Proof.
  intros Hstack Hplain.
  assert (Hpre : forall k : bool -> M Value,
             bind (if inObjectContext frame
                   then lift (starts_with_at name) else ret false) k st
             = k false st).
  { intros k. destruct Hplain as [Hno | (c & s & -> & Hc)].
    - rewrite Hno. reflexivity.
    - destruct (inObjectContext frame); [|reflexivity].
      unfold bind, lift. simpl.
      replace (Ascii.eqb c "@") with false; [reflexivity|].
      symmetry. apply Ascii.eqb_neq. exact Hc. }
  assert (Hvisit : visit_IdentifierNode name st =
            match variables frame !! name with
            | Some v => (Ok v, st)
            | None =>
              if bool_decide (is_Some (classes st !! name))
              then (Ok (VClass name), st)
              else if bool_decide (is_Some (lambdas st !! name))
              then (Ok (VLambda name), st)
              else match lambdaTable st !! name with
                   | Some mappedId =>
                     if bool_decide (is_Some (lambdas st !! mappedId))
                     then (Ok (VLambda mappedId), st)
                     else (Ok (VInt 0), st)
                   | None => (Ok (VInt 0), st)
                   end
            end).
  { unfold visit_IdentifierNode.
    unfold bind at 1. unfold top_frame. rewrite Hstack.
    rewrite Hpre. unfold bind, get_state, ret.
    destruct (variables frame !! name); [reflexivity|].
    repeat case_bool_decide; try reflexivity.
    destruct (lambdaTable st !! name); [|reflexivity].
    case_bool_decide; reflexivity. }
  rewrite Hvisit. split.
  - intros v ->. reflexivity.
  - intros ->. split.
    + intros Hc. rewrite bool_decide_eq_true_2 by exact Hc. reflexivity.
    + intros Hc. rewrite bool_decide_eq_false_2
        by (rewrite Hc; apply is_Some_None).
      split.
      * intros Hl. rewrite bool_decide_eq_true_2 by exact Hl. reflexivity.
      * intros Hl. rewrite bool_decide_eq_false_2
          by (rewrite Hl; apply is_Some_None).
        split; [|split].
        -- intros m -> Hm. rewrite bool_decide_eq_true_2 by exact Hm. reflexivity.
        -- intros m -> Hm. rewrite bool_decide_eq_false_2
             by (rewrite Hm; apply is_Some_None). reflexivity.
        -- intros ->. reflexivity.
Qed.

(** [identifier_resolution_order] on [registry_state]: [x] is the local 5, [A]
    a class, [f] a lambda, [g] the lambda [f] through the table, [z] is 0. *)
Lemma identifier_resolution_order_witness :
  visit_IdentifierNode "x" registry_state = (Ok (VInt 5), registry_state) /\
  visit_IdentifierNode "A" registry_state = (Ok (VClass "A"), registry_state) /\
  visit_IdentifierNode "f" registry_state = (Ok (VLambda "f"), registry_state) /\
  visit_IdentifierNode "g" registry_state = (Ok (VLambda "f"), registry_state) /\
  visit_IdentifierNode "z" registry_state = (Ok (VInt 0), registry_state).
Proof.
  pose proof (fun name : string =>
                identifier_resolution_order name registry_state
                  (mkFrame {[ "x" := VInt 5 ]} default_value None FlagNone) []
                  eq_refl (or_introl eq_refl)) as Hres.
  split; [apply (Hres "x"); reflexivity|].
  split.
  { destruct (Hres "A") as [_ HA]. destruct (HA eq_refl) as [HA1 _].
    apply HA1. eexists. reflexivity. }
  split.
  { destruct (Hres "f") as [_ Hf]. destruct (Hf eq_refl) as [_ Hf1].
    destruct (Hf1 eq_refl) as [Hf2 _]. apply Hf2. eexists. reflexivity. }
  split.
  { destruct (Hres "g") as [_ Hg]. destruct (Hg eq_refl) as [_ Hg1].
    destruct (Hg1 eq_refl) as [_ Hg2]. destruct (Hg2 eq_refl) as [Hg3 _].
    apply (Hg3 "f"); [reflexivity | eexists; reflexivity]. }
  destruct (Hres "z") as [_ Hz]. destruct (Hz eq_refl) as [_ Hz1].
  destruct (Hz1 eq_refl) as [_ Hz2]. destruct (Hz2 eq_refl) as (_ & _ & Hz3).
  apply Hz3. reflexivity.
Defined.

(** C7, the claim as stated fails: in an object context the name ["@x"] is read
    from the instance variables of the object (here 7), although the top frame
    binds ["@x"] locally (to 1). *)
Lemma identifier_instance_variable_first :
  variables object_frame !! "@x" = Some (VInt 1) /\
  visit_IdentifierNode "@x" object_state = (Ok (VInt 7), object_state).
Proof. split; reflexivity. Qed.

(** X9. The guard that comes first in the identifier visitor: in a frame with an
    object context, a name that starts with @ is the instance variable of that
    name of the object, whatever the frame and the registries bind. *)
Theorem identifier_instance_reference `{Collaborators} (s : string)
    (st : State) (frame : CallStackFrame) (rest : list CallStackFrame)
    (o : loc) (obj : Object) (v : Value) :
  callStack st = frame :: rest ->
  inObjectContext frame = true ->
  objectContext frame = Some o ->
  heap st !! o = Some (CObject obj) ->
  instanceVariables obj !! String "@" s = Some v ->
  visit_IdentifierNode (String "@" s) st = (Ok v, st).
Proof.
  intros Hstack Hin Hctx Hcell Hvar.
  unfold visit_IdentifierNode, bind, top_frame. rewrite Hstack, Hin.
  unfold lift. cbn [starts_with_at]. rewrite Ascii.eqb_refl.
  unfold object_of_frame. rewrite Hctx. unfold ret, read_object.
  rewrite Hcell, Hvar. reflexivity.
Qed.

Lemma identifier_instance_reference_witness :
  visit_IdentifierNode "@x" object_state = (Ok (VInt 7), object_state).
Proof.
  apply (identifier_instance_reference "x" object_state object_frame [] 0%nat
           (mkObject "A" {[ "@x" := VInt 7 ]} "") (VInt 7));
    reflexivity.
Defined.

(** ** Range literals *)

Lemma range_loop_counts (n : nat) :
  forall (fuel : nat) (stop step i : Z) (acc : list Value),
    (n < fuel)%nat ->
    (step = 1 \/ step = -1) ->
    stop = i + Z.of_nat n * step ->
    range_loop fuel stop step i acc =
    Ok (acc ++ map (fun k : nat => VInt (i + Z.of_nat k * step)) (seq 0 n)).
Proof.
  induction n as [|n IH]; intros fuel stop step i acc Hfuel Hstep Hstop.
  - destruct fuel as [|fuel]; [lia|]. simpl.
    replace (i =? stop) with true
      by (symmetry; apply Z.eqb_eq; destruct Hstep; subst; lia).
    by rewrite app_nil_r.
  - destruct fuel as [|fuel]; [lia|]. simpl range_loop.
    replace (i =? stop) with false
      by (symmetry; apply Z.eqb_neq; destruct Hstep; subst; lia).
    rewrite (IH fuel stop step (i + step) (acc ++ [VInt i]));
      [|lia|done|destruct Hstep; subst; lia].
    rewrite <- app_assoc.
    change (seq 0 (S n)) with (0%nat :: seq 1 n).
    rewrite <- seq_shift. cbn [map Z.of_nat app].
    rewrite List.map_map, Z.mul_0_l, Z.add_0_r.
    rewrite (List.map_ext (fun k : nat => VInt (i + step + Z.of_nat k * step))
               (fun k : nat => VInt (i + Z.of_nat (S k) * step))); [reflexivity|].
    intros k. apply (f_equal VInt). destruct Hstep; subst; lia.
Qed.

(** C8: the range literal [a..b], for 64-bit integers [a] and [b] whose
    distance [|b-a|] is itself a 64-bit value and whose number of elements
    [|b-a|+1] is within the greatest size of a vector, is a new list of
    [|b-a|+1] integers; the k-th is [a+k] when [b >= a] and [a-k] when
    [b < a], so that the first is [a], the last is [b] and neighbours differ
    by +1 or by -1; [a..a] is [[a]]. The loop ends within [|b-a|+1] turns. *)
Theorem range_literal_inclusive `{Collaborators} (ev : ASTNode -> M Value)
    (fuel : nat) (rangeStart rangeEnd : ASTNode) (a b : Z)
    (st st1 st2 : State) :
  ev rangeStart st = (Ok (VInt a), st1) ->
  ev rangeEnd st1 = (Ok (VInt b), st2) ->
  K_INT_MIN <= a <= K_INT_MAX ->
  K_INT_MIN <= b <= K_INT_MAX ->
  Z.abs (b - a) <= K_INT_MAX ->
  Z.abs (b - a) + 1 <= vector_max_size ->
  (Z.to_nat (Z.abs (b - a)) < fuel)%nat ->
  exists elements : list Value,
    visit_RangeLiteralNode ev fuel rangeStart rangeEnd st =
    (Ok (VList (length (heap st2))),
     set_heap st2 (heap st2 ++ [CList elements])) /\
    length elements = S (Z.to_nat (Z.abs (b - a))) /\
    (forall k : nat,
        (k < length elements)%nat ->
        elements !! k =
        Some (VInt (if b <? a then a - Z.of_nat k else a + Z.of_nat k))) /\
    head elements = Some (VInt a) /\
    last elements = Some (VInt b).
Proof.
  intros Hstart Hstop Ha Hb_range Hdist Hsize Hfuel.
  set (n := Z.to_nat (Z.abs (b - a))) in *.
  set (step := if b <? a then -1 else 1).
  assert (Hstep : step = 1 \/ step = -1).
  { unfold step. destruct (b <? a); auto. }
  assert (Hb : b = a + Z.of_nat n * step).
  { unfold step, n. destruct (Z.ltb_spec b a); lia. }
  assert (Hform : forall k : nat,
             a + Z.of_nat k * step =
             if b <? a then a - Z.of_nat k else a + Z.of_nat k).
  { intros k. unfold step. destruct (b <? a); lia. }
  assert (Hdistance : range_distance a b = Ok (Z.abs (b - a))).
  { unfold range_distance.
    replace (K_INT_MIN <? b - a) with true
      by (symmetry; apply Z.ltb_lt; unfold K_INT_MIN, K_INT_MAX in *; lia).
    replace (b - a <=? K_INT_MAX) with true
      by (symmetry; apply Z.leb_le; lia).
    reflexivity. }
  exists (map (fun k : nat => VInt (a + Z.of_nat k * step)) (seq 0 n) ++ [VInt b]).
  split.
  { unfold visit_RangeLiteralNode.
    unfold bind at 1. rewrite Hstart.
    unfold bind at 1. rewrite Hstop.
    cbn [as_int]. fold step.
    unfold bind at 1, lift at 1. rewrite Hdistance.
    replace (vector_max_size <? Z.abs (b - a) + 1) with false
      by (symmetry; apply Z.ltb_ge; exact Hsize).
    unfold bind, lift.
    rewrite (range_loop_counts n fuel b step a [] Hfuel Hstep Hb).
    reflexivity. }
  assert (Hlen : length (map (fun k : nat => VInt (a + Z.of_nat k * step))
                           (seq 0 n) ++ [VInt b]) = S n).
  { rewrite length_app, length_map, length_seq. simpl. lia. }
  split; [exact Hlen|]. split; [|split].
  - intros k Hk. rewrite Hlen in Hk.
    destruct (decide (k < n)%nat) as [Hlt|Hge].
    + rewrite lookup_app_l by (rewrite length_map, length_seq; lia).
      rewrite list_lookup_fmap, lookup_seq_lt by lia. simpl.
      by rewrite Hform.
    + assert (k = n) as -> by lia.
      rewrite lookup_app_r by (rewrite length_map, length_seq; lia).
      rewrite length_map, length_seq, Nat.sub_diag. simpl.
      by rewrite <- Hform, <- Hb.
  - destruct n as [|n'] eqn:Hn.
    + simpl. rewrite Hb. do 2 f_equal. lia.
    + simpl. do 2 f_equal. lia.
  - apply last_snoc.
Qed.

(** [range_literal_inclusive] on the descending range [3..1], whose bounds
    are evaluated by the interpreter. *)
Lemma range_literal_inclusive_witness :
  interpret 1 (int_lit 3) root_state = (Ok (VInt 3), root_state) /\
  interpret 1 (int_lit 1) root_state = (Ok (VInt 1), root_state) /\
  exists elements : list Value,
    visit_RangeLiteralNode (interpret 1) 3 (int_lit 3) (int_lit 1) root_state =
    (Ok (VList 0%nat), set_heap root_state [CList elements]) /\
    length elements = 3%nat /\
    head elements = Some (VInt 3) /\
    elements !! 1%nat = Some (VInt 2) /\
    last elements = Some (VInt 1).
Proof.
  split; [reflexivity|]. split; [reflexivity|].
  destruct (range_literal_inclusive (interpret 1) 3 (int_lit 3) (int_lit 1)
              3 1 root_state root_state root_state eq_refl eq_refl)
    as (elements & Hrun & Hlen & Hnth & Hhead & Hlast).
  { vm_compute. split; discriminate. }
  { vm_compute. split; discriminate. }
  { vm_compute. discriminate. }
  { vm_compute. discriminate. }
  { vm_compute. lia. }
  exists elements. split; [exact Hrun|]. split; [exact Hlen|].
  split; [exact Hhead|]. split; [|exact Hlast].
  apply (Hnth 1%nat). rewrite Hlen. vm_compute. lia.
Defined.

(** C8, the excluded inputs: the range from the least to the greatest 64-bit
    integer produces no list. [stop - start] overflows, which is undefined
    behaviour; and the range from 0 to the greatest 64-bit integer asks for
    [2^63] elements, which [reserve] refuses with [std::length_error] on
    every implementation, since no vector holds more than [2^63 - 1]. *)
Lemma range_literal_full_span_fails :
  fst (interpret 2 (RangeLiteralNode (int_lit K_INT_MIN) (int_lit K_INT_MAX))
         root_state) = Crash UndefinedBehaviour /\
  fst (interpret 2 (RangeLiteralNode (int_lit 0) (int_lit K_INT_MAX))
         root_state) = Crash HostException.
Proof. split; vm_compute; reflexivity. Qed.

(** ** Member access *)

(** C10: member access on a receiver that is not a hash is integer 0 and raises
    nothing; on a hash it is the value under the member name, and it fails, with
    HashKeyError, exactly when the member name is not a key. *)
Theorem member_access_only_hash_fails (ev : ASTNode -> M Value)
    (object : ASTNode) (memberName : string) (st st' : State) (v : Value) :
  ev object st = (Ok v, st') ->
  ((forall l : loc, v <> VHash l) ->
   visit_MemberAccessNode ev object memberName st = (Ok (VInt 0), st')) /\
  (forall (l : loc) (h : Hash),
      v = VHash l ->
      heap st' !! l = Some (CHash h) ->
      (kvp h !! memberName = None ->
       visit_MemberAccessNode ev object memberName st =
       (Throw (mkError HashKeyError memberName), st')) /\
      (forall x : Value,
          kvp h !! memberName = Some x ->
          visit_MemberAccessNode ev object memberName st = (Ok x, st'))).
Proof.
  intros Hev. unfold visit_MemberAccessNode, bind. rewrite Hev. split.
  - intros Hnot. destruct v; try reflexivity. exfalso. by eapply Hnot.
  - intros l h -> Hcell. unfold read_hash. rewrite Hcell.
    unfold hasKey, hash_get, throw, ret. split.
    + intros Hnone. rewrite bool_decide_eq_false_2; [reflexivity|].
      rewrite Hnone. apply is_Some_None.
    + intros x Hx. rewrite bool_decide_eq_true_2 by (rewrite Hx; eauto).
      rewrite Hx. reflexivity.
Qed.

(** [member_access_only_hash_fails] on [list_state]: a member of the list at
    address 0 is 0; on the hash [{"a": 1}] the member [a] is 1 and the member
    [b] fails with HashKeyError. *)
Lemma member_access_only_hash_fails_witness :
  visit_MemberAccessNode (interpret 1) (LiteralNode (VList 0%nat)) "a" list_state
  = (Ok (VInt 0), list_state) /\
  visit_MemberAccessNode (interpret 1) (LiteralNode (VHash 2%nat)) "a" list_state
  = (Ok (VInt 1), list_state) /\
  visit_MemberAccessNode (interpret 1) (LiteralNode (VHash 2%nat)) "b" list_state
  = (Throw (mkError HashKeyError "b"), list_state).
Proof.
  split.
  { apply (member_access_only_hash_fails (interpret 1)
             (LiteralNode (VList 0%nat)) "a" list_state list_state
             (VList 0%nat) eq_refl).
    intros l. discriminate. }
  split.
  { destruct (member_access_only_hash_fails (interpret 1)
                (LiteralNode (VHash 2%nat)) "a" list_state list_state
                (VHash 2%nat) eq_refl) as [_ Hhash].
    destruct (Hhash 2%nat (mkHash ["a"] {[ "a" := VInt 1 ]}) eq_refl eq_refl)
      as [_ Hfound].
    apply Hfound. reflexivity. }
  destruct (member_access_only_hash_fails (interpret 1)
              (LiteralNode (VHash 2%nat)) "b" list_state list_state
              (VHash 2%nat) eq_refl) as [_ Hhash].
  destruct (Hhash 2%nat (mkHash ["a"] {[ "a" := VInt 1 ]}) eq_refl eq_refl)
    as [Hmissing _].
  apply Hmissing. reflexivity.
Defined.

(** ** Try, catch and finally *)

(** C9: when the try body raises a [KiwiError] and the catch body is empty, the
    error is dropped: the finally body runs from the state at the raise, and
    when it completes (or is empty) the try statement returns integer 0. *)
Theorem try_without_catch_discards_error (ev : ASTNode -> M Value)
    (tryBody finallyBody : list ASTNode) (errorType errorMessage : option ASTNode)
    (st st1 : State) (e : KiwiError) :
  run_stmts ev tryBody st = (Throw e, st1) ->
  (finallyBody = [] ->
   visit_TryNode ev tryBody [] finallyBody errorType errorMessage st =
   (Ok (VInt 0), st1)) /\
  (forall st2 : State,
      run_stmts ev finallyBody st1 = (Ok tt, st2) ->
      visit_TryNode ev tryBody [] finallyBody errorType errorMessage st =
      (Ok (VInt 0), st2)).
Proof.
  intros Htry. unfold visit_TryNode, bind, try_catch. rewrite Htry.
  cbn -[run_stmts]. split.
  - intros ->. reflexivity.
  - intros st2 Hfin. destruct finallyBody as [|s rest].
    + cbn in Hfin. unfold ret in Hfin. by inversion Hfin.
    + cbn -[run_stmts]. rewrite Hfin. reflexivity.
Qed.

(** [try_without_catch_discards_error] on
    [try throw "oops" finally println "done" end]: the statement returns 0 and
    [done] has been printed. *)
Lemma try_without_catch_discards_error_witness :
  run_stmts (interpret 2) [ThrowNode (Some (str_lit "oops")) None] root_state
  = (Throw (mkError (KiwiErrorNamed "KiwiError") "oops"), root_state) /\
  visit_TryNode (interpret 2) [ThrowNode (Some (str_lit "oops")) None] []
    [PrintNode (str_lit "done") true] None None root_state
  = (Ok (VInt 0), set_stdout root_state [String.append "done" endl]) /\
  visit_TryNode (interpret 2) [ThrowNode (Some (str_lit "oops")) None] []
    [] None None root_state
  = (Ok (VInt 0), root_state).
Proof.
  split; [reflexivity|].
  destruct (try_without_catch_discards_error (interpret 2)
              [ThrowNode (Some (str_lit "oops")) None]
              [PrintNode (str_lit "done") true] None None root_state root_state
              (mkError (KiwiErrorNamed "KiwiError") "oops") eq_refl)
    as [_ Hfinally].
  split; [apply Hfinally; reflexivity|].
  apply (try_without_catch_discards_error (interpret 2)
           [ThrowNode (Some (str_lit "oops")) None] [] None None
           root_state root_state
           (mkError (KiwiErrorNamed "KiwiError") "oops") eq_refl).
  reflexivity.
Defined.

(** C5: the code does not do what the claim says. When the catch body raises,
    the error leaves the try statement at once and the finally body is not
    run: nothing is printed by
    [try throw "oops" catch (e, m) throw "again" finally println "done" end]. *)
Theorem finally_skipped_when_catch_raises :
  fst (interpret 8 program_catch_raises initial_state)
  = Throw (mkError (KiwiErrorNamed "KiwiError") "again") /\
  stdout (snd (interpret 8 program_catch_raises initial_state)) = [].
Proof. split; vm_compute; reflexivity. Qed.

(** Scenario S4 prints [oops] and then [done]. *)
Theorem scenario_S4_prints_oops_done :
  fst (interpret 8 program_S4 initial_state) = Ok (VInt 0) /\
  stdout (snd (interpret 8 program_S4 initial_state))
  = [String.append "oops" endl; String.append "done" endl].
Proof. split; vm_compute; reflexivity. Qed.

(** X7. The try statement when nothing is raised in the try body: the catch body
    is not run, the finally body runs once, after the try body, and the
    statement returns integer 0 when the finally body completes. *)
Theorem try_completes_then_finally (ev : ASTNode -> M Value)
    (tryBody catchBody finallyBody : list ASTNode)
    (errorType errorMessage : option ASTNode) (st st1 st2 : State) :
  run_stmts ev tryBody st = (Ok tt, st1) ->
  run_stmts ev finallyBody st1 = (Ok tt, st2) ->
  visit_TryNode ev tryBody catchBody finallyBody errorType errorMessage st
  = (Ok (VInt 0), st2).
Proof.
  intros Htry Hfin. unfold visit_TryNode, bind, try_catch. rewrite Htry.
  destruct finallyBody as [|s rest].
  - cbn in Hfin. unfold ret in Hfin. by inversion Hfin.
  - cbn -[run_stmts]. rewrite Hfin. reflexivity.
Qed.

Lemma try_completes_then_finally_witness :
  visit_TryNode (interpret 2) [PrintNode (str_lit "a") true]
    [PrintNode (str_lit "b") true] [PrintNode (str_lit "c") true] None None
    root_state
  = (Ok (VInt 0),
     set_stdout root_state [String.append "a" endl; String.append "c" endl]).
Proof.
  apply (try_completes_then_finally (interpret 2) [PrintNode (str_lit "a") true]
           [PrintNode (str_lit "b") true] [PrintNode (str_lit "c") true]
           None None root_state
           (set_stdout root_state [String.append "a" endl]));
    reflexivity.
Defined.

(** X8. The try statement when the try body raises a [KiwiError] and the catch
    body, here without catch variables, raises in its turn: the second error
    leaves the try statement from the state at its raise, and the finally body
    is not run. *)
Theorem try_catch_raises_skips_finally (ev : ASTNode -> M Value)
    (tryBody catchBody finallyBody : list ASTNode) (st st1 st2 : State)
    (e e' : KiwiError) (frame : CallStackFrame) (rest : list CallStackFrame) :
  run_stmts ev tryBody st = (Throw e, st1) ->
  callStack st1 = frame :: rest ->
  run_stmts ev catchBody st1 = (Throw e', st2) ->
  visit_TryNode ev tryBody catchBody finallyBody None None st = (Throw e', st2).
Proof.
  intros Htry Hstack Hcatch. unfold visit_TryNode, bind, try_catch.
  rewrite Htry.
  destruct catchBody as [|s rest'].
  - cbn in Hcatch. discriminate.
  - cbn -[run_stmts]. unfold top_frame_id. rewrite Hstack.
    unfold ret. rewrite Hcatch. reflexivity.
Qed.

Lemma try_catch_raises_skips_finally_witness :
  visit_TryNode (interpret 2) [ThrowNode (Some (str_lit "oops")) None]
    [ThrowNode (Some (str_lit "again")) None] [PrintNode (str_lit "done") true]
    None None root_state
  = (Throw (mkError (KiwiErrorNamed "KiwiError") "again"), root_state).
Proof.
  apply (try_catch_raises_skips_finally (interpret 2)
           [ThrowNode (Some (str_lit "oops")) None]
           [ThrowNode (Some (str_lit "again")) None]
           [PrintNode (str_lit "done") true] root_state root_state root_state
           (mkError (KiwiErrorNamed "KiwiError") "oops")
           (mkError (KiwiErrorNamed "KiwiError") "again") new_frame []);
    reflexivity.
Defined.

(** ** The slice engine *)

Lemma set_heap_same (st : State) (l : loc) (c : Cell) :
  heap st !! l = Some c -> set_heap st (<[l := c]> (heap st)) = st.
Proof.
  intros Hl. rewrite list_insert_id by exact Hl. by destruct st.
Qed.

Lemma to_int_small (z : Z) : INT_MIN <= z <= INT_MAX -> to_int z = z.
Proof.
  unfold INT_MIN, INT_MAX, to_int. intros Hz.
  rewrite Z.mod_small by lia. lia.
Qed.

Lemma to_int_range (z : Z) : INT_MIN <= to_int z <= INT_MAX.
Proof.
  unfold INT_MIN, INT_MAX, to_int.
  pose proof (Z.mod_pos_bound (z + 2 ^ 31) (2 ^ 32)). lia.
Qed.

(** With step 0 the loop of the [step != 1] branch stores nothing. *)
Lemma update_loop_step_zero (n : nat) (stop : Z) (aliased : bool)
    (rhs : list Value) (rhsIndex : nat) (i : Z) (elems : list Value) :
  update_loop n 0 stop aliased rhs rhsIndex i elems = Ok elems.
Proof.
  destruct n as [|n]; [reflexivity|]. simpl.
  destruct (i =? stop); reflexivity.
Qed.

(** With step 0 the forward loop never advances: it stops at once when
    [i >= stop], and uses up any fuel otherwise. *)
Lemma slice_up_step_zero (fuel : nat) (stop i : Z) (elems sliced : list Value) :
  0 <= i <= INT_MAX ->
  stop <= Z.of_nat (length elems) ->
  (stop <= i -> slice_up (S fuel) 0 stop elems i sliced = Ok sliced) /\
  (i < stop -> slice_up fuel 0 stop elems i sliced = Crash OutOfFuel).
Proof.
  intros Hi Hstop. split.
  - intros Hge. simpl.
    replace (i <? stop) with false by (symmetry; apply Z.ltb_ge; lia).
    reflexivity.
  - intros Hlt. revert sliced.
    induction fuel as [|fuel IH]; intros sliced; [reflexivity|].
    simpl.
    replace (i <? stop) with true by (symmetry; apply Z.ltb_lt; lia).
    replace (Z.of_nat (length elems) <=? i) with false
      by (symmetry; apply Z.leb_gt; lia).
    replace (i <? 0) with false by (symmetry; apply Z.ltb_ge; lia).
    destruct (lookup_lt_is_Some_2 elems (Z.to_nat i)) as [v Hv]; [lia|].
    rewrite Hv. unfold int_add. rewrite Z.add_0_r.
    replace ((INT_MIN <=? i) && (i <=? INT_MAX)) with true.
    + apply IH.
    + symmetry. apply andb_true_iff. unfold INT_MIN, INT_MAX in *.
      split; [apply Z.leb_le | apply Z.leb_le]; lia.
Qed.

Lemma read_start_range (start listSize : Z) :
  INT_MIN <= start <= INT_MAX -> 0 <= listSize <= INT_MAX ->
  0 <= read_start start listSize <= INT_MAX.
Proof.
  unfold read_start, INT_MIN, INT_MAX. intros Hs Hl.
  destruct (Z.ltb_spec start 0); lia.
Qed.

Lemma read_stop_step_zero (stop listSize : Z) :
  0 <= listSize -> read_stop stop 0 listSize <= listSize.
Proof.
  unfold read_stop. intros Hl. simpl.
  destruct (Z.ltb_spec stop 0); lia.
Qed.

(** The read slice with step 0 is the forward loop with step 0. *)
Lemma interpretListSlice_step_zero (fuel : nat) (lst : loc) (start stop : Z)
    (elems : list Value) (st : State) :
  heap st !! lst = Some (CList elems) ->
  interpretListSlice fuel (mkSlice true (VInt start) (VInt stop) (VInt 0)) lst st
  = match slice_up fuel 0 (read_stop (to_int stop) 0 (Z.of_nat (length elems)))
            elems (read_start (to_int start) (Z.of_nat (length elems))) [] with
    | Ok sliced =>
      (Ok (VList (length (heap st))), set_heap st (heap st ++ [CList sliced]))
    | Throw e => (Throw e, st)
    | Crash c => (Crash c, st)
    end.
Proof.
  intros Hlst. unfold interpretListSlice. simpl.
  unfold bind, read_list. rewrite Hlst. unfold lift, slice_elements.
  change (to_int 0) with 0. change (0 <? 0) with false. cbv iota.
  destruct (slice_up fuel 0 _ elems _ []); reflexivity.
Qed.

(** C4 (amended): a slice whose start and stop are integers and whose step is
    the integer 0 never fails with IndexError. Slice assignment to a list
    returns normally and leaves the target list (and the whole state) as it
    was; slice assignment to a string returns the string as it was. Read
    slicing of a list raises nothing either: whenever it returns, it returns a
    new, empty list, and it does so as soon as the adjusted start is not below
    the adjusted stop. *)
Theorem slice_step_zero_raises_nothing (insertOp is_slice : bool)
    (lst rhs : loc) (start stop : Z) (elems rhsElems : list Value) (st : State) :
  heap st !! lst = Some (CList elems) ->
  heap st !! rhs = Some (CList rhsElems) ->
  Z.of_nat (length elems) <= INT_MAX ->
  updateListSlice insertOp lst (mkSlice is_slice (VInt start) (VInt stop) (VInt 0))
    rhs st = (Ok tt, st) /\
  doSliceAssignment (VList lst) (mkSlice true (VInt start) (VInt stop) (VInt 0))
    (VList rhs) st = (Ok (VList lst), st) /\
  (forall (s : string) (newValue : Value),
     doSliceAssignment (VString s)
       (mkSlice true (VInt start) (VInt stop) (VInt 0)) newValue st =
     (Ok (VString s), st)) /\
  (forall fuel : nat,
     interpretListSlice fuel
       (mkSlice true (VInt start) (VInt stop) (VInt 0)) lst st =
     (Ok (VList (length (heap st))), set_heap st (heap st ++ [CList []])) \/
     interpretListSlice fuel
       (mkSlice true (VInt start) (VInt stop) (VInt 0)) lst st =
     (Crash OutOfFuel, st)) /\
  (read_stop (to_int stop) 0 (Z.of_nat (length elems))
   <= read_start (to_int start) (Z.of_nat (length elems)) ->
   forall fuel : nat,
     interpretListSlice (S fuel)
       (mkSlice true (VInt start) (VInt stop) (VInt 0)) lst st =
     (Ok (VList (length (heap st))), set_heap st (heap st ++ [CList []]))).
Proof.
  intros Hlst Hrhs Hsize.
  assert (Hupd : forall io b : bool,
             updateListSlice io lst
               (mkSlice b (VInt start) (VInt stop) (VInt 0)) rhs st = (Ok tt, st)).
  { intros io b. unfold updateListSlice. simpl.
    unfold bind, read_list. rewrite Hlst, Hrhs.
    unfold lift, update_elements.
    change (to_int 0) with 0. change (0 =? 1) with false. cbv iota.
    rewrite update_loop_step_zero.
    unfold write_list, modify. by rewrite set_heap_same. }
  pose proof (to_int_range start) as Hs.
  pose proof (read_start_range (to_int start) (Z.of_nat (length elems)) Hs
                ltac:(lia)) as Hstart.
  pose proof (read_stop_step_zero (to_int stop) (Z.of_nat (length elems))
                ltac:(lia)) as Hstop.
  assert (Hdone : read_stop (to_int stop) 0 (Z.of_nat (length elems))
                  <= read_start (to_int start) (Z.of_nat (length elems)) ->
                  forall fuel : nat,
                    interpretListSlice (S fuel)
                      (mkSlice true (VInt start) (VInt stop) (VInt 0)) lst st =
                    (Ok (VList (length (heap st))),
                     set_heap st (heap st ++ [CList []]))).
  { intros Hge fuel. rewrite (interpretListSlice_step_zero _ _ _ _ _ _ Hlst).
    destruct (slice_up_step_zero fuel _ _ elems [] Hstart Hstop) as [Hok _].
    rewrite (Hok Hge). reflexivity. }
  split; [apply Hupd|]. split.
  { unfold doSliceAssignment, bind. rewrite Hupd. reflexivity. }
  split; [reflexivity|].
  split; [|exact Hdone].
  intros fuel.
  destruct (Z.le_gt_cases (read_stop (to_int stop) 0 (Z.of_nat (length elems)))
              (read_start (to_int start) (Z.of_nat (length elems))))
    as [Hge|Hlt].
  - destruct fuel as [|fuel].
    + right. rewrite (interpretListSlice_step_zero _ _ _ _ _ _ Hlst). reflexivity.
    + left. apply Hdone. exact Hge.
  - right. rewrite (interpretListSlice_step_zero _ _ _ _ _ _ Hlst).
    destruct (slice_up_step_zero fuel _ _ elems [] Hstart Hstop) as [_ Hloop].
    rewrite (Hloop Hlt). reflexivity.
Qed.

(** [slice_step_zero_raises_nothing] on [x = [1, 2, 3]]: the assignment
    [x[0:3:0] = [9]] changes nothing and the read [x[2:1:0]] is a new,
    empty list. *)
Lemma slice_step_zero_raises_nothing_witness :
  updateListSlice false 0%nat (mkSlice true (VInt 0) (VInt 3) (VInt 0)) 1%nat
    list_state = (Ok tt, list_state) /\
  interpretListSlice 1 (mkSlice true (VInt 2) (VInt 1) (VInt 0)) 0%nat
    list_state =
  (Ok (VList 3%nat), set_heap list_state (heap list_state ++ [CList []])).
Proof.
  split.
  - apply (slice_step_zero_raises_nothing false true 0%nat 1%nat 0 3
             [VInt 1; VInt 2; VInt 3] [VInt 9] list_state eq_refl eq_refl).
    vm_compute. discriminate.
  - destruct (slice_step_zero_raises_nothing false true 0%nat 1%nat 2 1
                [VInt 1; VInt 2; VInt 3] [VInt 9] list_state eq_refl eq_refl)
      as (_ & _ & _ & _ & Hread).
    + vm_compute. discriminate.
    + apply (Hread ltac:(vm_compute; discriminate) 0%nat).
Defined.

(** C4, the claim as stated fails: [x[0:3:0] = [9]] on [x = [1, 2, 3]] returns
    normally and leaves [x] as it was, and the read [x[2:1:0]] returns an
    empty list; neither fails with IndexError. *)
Lemma slice_step_zero_returns_normally :
  updateListSlice false 0%nat (mkSlice true (VInt 0) (VInt 3) (VInt 0)) 1%nat
    list_state = (Ok tt, list_state) /\
  interpretListSlice 1 (mkSlice true (VInt 2) (VInt 1) (VInt 0)) 0%nat
    list_state =
  (Ok (VList 3%nat), set_heap list_state (heap list_state ++ [CList []])) /\
  fst (interpret 8 program_step_zero initial_state) = Ok (VInt 0) /\
  stdout (snd (interpret 8 program_step_zero initial_state))
  = [String.append "[]" endl].
Proof. repeat split; vm_compute; reflexivity. Qed.

(** X3. Read slicing with step 0 when the adjusted start is below the adjusted
    stop: the loop never advances, and no amount of fuel yields a result. *)
Theorem read_slice_step_zero_never_returns (lst : loc) (start stop : Z)
    (elems : list Value) (st : State) :
  heap st !! lst = Some (CList elems) ->
  Z.of_nat (length elems) <= INT_MAX ->
  read_start (to_int start) (Z.of_nat (length elems))
  < read_stop (to_int stop) 0 (Z.of_nat (length elems)) ->
  forall fuel : nat,
    interpretListSlice fuel
      (mkSlice true (VInt start) (VInt stop) (VInt 0)) lst st =
    (Crash OutOfFuel, st).
Proof.
  intros Hlst Hsize Hlt fuel.
  pose proof (to_int_range start) as Hs.
  pose proof (read_start_range (to_int start) (Z.of_nat (length elems)) Hs
                ltac:(lia)) as Hstart.
  pose proof (read_stop_step_zero (to_int stop) (Z.of_nat (length elems))
                ltac:(lia)) as Hstop.
  rewrite (interpretListSlice_step_zero _ _ _ _ _ _ Hlst).
  destruct (slice_up_step_zero fuel _ _ elems [] Hstart Hstop) as [_ Hloop].
  rewrite (Hloop Hlt). reflexivity.
Qed.

Lemma read_slice_step_zero_never_returns_witness :
  interpretListSlice 1000 (mkSlice true (VInt 0) (VInt 3) (VInt 0)) 0%nat
    list_state = (Crash OutOfFuel, list_state).
Proof.
  apply (read_slice_step_zero_never_returns 0%nat 0 3
           [VInt 1; VInt 2; VInt 3] list_state eq_refl).
  - vm_compute. discriminate.
  - vm_compute. reflexivity.
Defined.

(** C1: the code does not do what the claim says. On [x = [1,2,3,4,5]] the
    assignment [x[1:4] = [9,9]] takes the branch for [start < stop], which
    copies the right-hand side over the positions 1 and 2 and removes nothing:
    [x] is [[1, 9, 9, 4, 5]], of length 5, not [[1, 9, 9, 5]]. *)
Theorem slice_assignment_S1_overwrites_in_place :
  update_elements false true false 1 4 1
    [VInt 1; VInt 2; VInt 3; VInt 4; VInt 5] [VInt 9; VInt 9]
  = Ok [VInt 1; VInt 9; VInt 9; VInt 4; VInt 5] /\
  fst (interpret 8 program_S1 initial_state) = Ok (VInt 0) /\
  heap (snd (interpret 8 program_S1 initial_state)) !! 1%nat
  = Some (CList [VInt 1; VInt 9; VInt 9; VInt 4; VInt 5]) /\
  stdout (snd (interpret 8 program_S1 initial_state))
  = [String.append "[1, 9, 9, 4, 5]" endl].
Proof. repeat split; vm_compute; reflexivity. Qed.

(** X1. Slice assignment with step 1 and [start = stop]: a pure insertion of the
    right-hand side at [start]; the length grows by the length of the
    right-hand side. *)
Theorem slice_assignment_insertion (elems rhs : list Value) (s : Z) :
  0 <= s <= Z.of_nat (length elems) ->
  update_elements false true false s s 1 elems rhs
  = Ok (take (Z.to_nat s) elems ++ rhs ++ drop (Z.to_nat s) elems) /\
  length (take (Z.to_nat s) elems ++ rhs ++ drop (Z.to_nat s) elems)
  = (length elems + length rhs)%nat.
Proof.
  intros Hs. split.
  - assert (H1 : (s <? 0) = false) by (apply Z.ltb_ge; lia).
    assert (H2 : (Z.of_nat (length elems) <? s) = false) by (apply Z.ltb_ge; lia).
    assert (H3 : (s <=? s) = true) by (apply Z.leb_le; lia).
    assert (H4 : (0 <=? s) = true) by (apply Z.leb_le; lia).
    assert (H5 : (s <=? Z.of_nat (length elems)) = true) by (apply Z.leb_le; lia).
    unfold update_elements, update_step1. cbn [negb andb]. cbv zeta.
    change (1 <? 0) with false. change (1 =? 1) with true. cbn [negb andb].
    rewrite !H1, !H2. cbv iota. rewrite H3, Z.eqb_refl, H4, H5. reflexivity.
  - rewrite !length_app, length_take, length_drop. lia.
Qed.

Lemma slice_assignment_insertion_witness :
  update_elements false true false 1 1 1 [VInt 1; VInt 2; VInt 3] [VInt 9; VInt 8]
  = Ok [VInt 1; VInt 9; VInt 8; VInt 2; VInt 3].
Proof.
  apply (slice_assignment_insertion [VInt 1; VInt 2; VInt 3] [VInt 9; VInt 8] 1).
  vm_compute. split; discriminate.
Defined.

(** X2. Slice assignment with step 1 and [start < stop]: the right-hand side is
    copied over the elements from [start] on, [stop] is not used, nothing is
    removed and the length stays the same; a right-hand side that does not fit
    before the end of the list is written past it (undefined behaviour). *)
Theorem slice_assignment_overwrite (elems rhs : list Value) (s e : Z) :
  0 <= s < e -> e <= Z.of_nat (length elems) ->
  (s + Z.of_nat (length rhs) <= Z.of_nat (length elems) ->
   update_elements false true false s e 1 elems rhs
   = Ok (take (Z.to_nat s) elems ++ rhs
           ++ drop (Z.to_nat (s + Z.of_nat (length rhs))) elems) /\
   length (take (Z.to_nat s) elems ++ rhs
             ++ drop (Z.to_nat (s + Z.of_nat (length rhs))) elems)
   = length elems) /\
  (Z.of_nat (length elems) < s + Z.of_nat (length rhs) ->
   update_elements false true false s e 1 elems rhs = Crash UndefinedBehaviour).
Proof.
  intros Hs He.
  assert (Hnorm : update_elements false true false s e 1 elems rhs =
                  update_step1 elems rhs s e).
  { assert (H1 : (s <? 0) = false) by (apply Z.ltb_ge; lia).
    assert (H2 : (e <? 0) = false) by (apply Z.ltb_ge; lia).
    assert (H3 : (Z.of_nat (length elems) <? e) = false)
      by (apply Z.ltb_ge; lia).
    unfold update_elements. cbn [negb andb]. cbv zeta.
    change (1 <? 0) with false. change (1 =? 1) with true. cbn [negb andb].
    rewrite !H1, !H2. cbv iota. rewrite H3. reflexivity. }
  rewrite Hnorm. unfold update_step1.
  replace (e <=? s) with false by (symmetry; apply Z.leb_gt; lia).
  replace (0 <=? s) with true by (symmetry; apply Z.leb_le; lia).
  split.
  - intros Hfit.
    replace (s + Z.of_nat (length rhs) <=? Z.of_nat (length elems)) with true
      by (symmetry; apply Z.leb_le; lia).
    split; [reflexivity|].
    rewrite !length_app, length_take, length_drop. lia.
  - intros Hover.
    replace (s + Z.of_nat (length rhs) <=? Z.of_nat (length elems)) with false
      by (symmetry; apply Z.leb_gt; lia).
    reflexivity.
Qed.

Lemma slice_assignment_overwrite_witness :
  update_elements false true false 1 4 1
    [VInt 1; VInt 2; VInt 3; VInt 4; VInt 5] [VInt 9; VInt 9]
  = Ok [VInt 1; VInt 9; VInt 9; VInt 4; VInt 5] /\
  update_elements false true false 3 5 1
    [VInt 1; VInt 2; VInt 3; VInt 4; VInt 5] [VInt 9; VInt 9; VInt 9]
  = Crash UndefinedBehaviour.
Proof.
  split.
  - apply (slice_assignment_overwrite [VInt 1; VInt 2; VInt 3; VInt 4; VInt 5]
             [VInt 9; VInt 9] 1 4); vm_compute;
      try split; try discriminate; reflexivity.
  - apply (slice_assignment_overwrite [VInt 1; VInt 2; VInt 3; VInt 4; VInt 5]
             [VInt 9; VInt 9; VInt 9] 3 5); vm_compute;
      try split; try discriminate; reflexivity.
Defined.

(** ** Indexing *)

(** C2: the code does not do what the claim says. The indexing visitor rejects
    every negative index: [[10,20,30][-1]] fails with RangeError instead of
    yielding 30. *)
Theorem indexing_rejects_minus_one :
  fst (interpret 8 program_negative_index initial_state)
  = Throw (mkError RangeError "The index was outside the bounds of the list.") /\
  stdout (snd (interpret 8 program_negative_index initial_state)) = [].
Proof. split; vm_compute; reflexivity. Qed.



(** X5. The single-index read of the helper [interpretListSlice], on a list
    whose length fits in [int]: the index is narrowed to [int] first; when the
    narrowed index is [-k] with [1 <= k <= len] the read yields the element at
    [len - k], and when it is [-k] with [k > len] the read fails with
    RangeError. *)
Theorem helper_negative_index_wraps (fuel : nat) (lst : loc) (index k : Z)
    (elems : list Value) (st : State) :
  heap st !! lst = Some (CList elems) ->
  Z.of_nat (length elems) <= INT_MAX ->
  to_int index = - k ->
  1 <= k ->
  (k <= Z.of_nat (length elems) ->
   exists v : Value,
     elems !! (length elems - Z.to_nat k)%nat = Some v /\
     interpretListSlice fuel
       (mkSlice false (VInt index) default_value default_value) lst st
     = (Ok v, st)) /\
  (Z.of_nat (length elems) < k ->
   interpretListSlice fuel
     (mkSlice false (VInt index) default_value default_value) lst st
   = (Throw (mkError RangeError "List index out of range."), st)).
Proof.
  intros Hcell Hsize Hint Hk.
  split.
  - intros Hle.
    destruct (lookup_lt_is_Some_2 elems (length elems - Z.to_nat k)%nat)
      as [v Hv]; [lia|].
    exists v. split; [exact Hv|].
    unfold interpretListSlice. simpl. unfold bind, read_list. rewrite Hcell.
    rewrite Hint.
    replace (- k <? 0) with true by (symmetry; apply Z.ltb_lt; lia).
    replace ((- k + Z.of_nat (length elems) <? 0)
             || (Z.of_nat (length elems) <=? - k + Z.of_nat (length elems)))
      with false.
    + replace (Z.to_nat (- k + Z.of_nat (length elems)))
        with (length elems - Z.to_nat k)%nat by lia.
      rewrite Hv. reflexivity.
    + symmetry. apply orb_false_iff. split;
        [apply Z.ltb_ge | apply Z.leb_gt]; lia.
  - intros Hgt.
    unfold interpretListSlice. simpl. unfold bind, read_list. rewrite Hcell.
    rewrite Hint.
    replace (- k <? 0) with true by (symmetry; apply Z.ltb_lt; lia).
    replace (- k + Z.of_nat (length elems) <? 0) with true
      by (symmetry; apply Z.ltb_lt; lia).
    reflexivity.
Qed.

(** [helper_negative_index_wraps] on [[1, 2, 3]]: the index -1 reads the last
    element, the index -4 fails, and the index [-(2^32 + 1)], which narrows
    to -1, reads the last element too. *)
Lemma helper_negative_index_wraps_witness :
  interpretListSlice 0
    (mkSlice false (VInt (- 1)) default_value default_value) 0%nat list_state
  = (Ok (VInt 3), list_state) /\
  interpretListSlice 0
    (mkSlice false (VInt (- 4)) default_value default_value) 0%nat list_state
  = (Throw (mkError RangeError "List index out of range."), list_state) /\
  interpretListSlice 0
    (mkSlice false (VInt (- (2 ^ 32 + 1))) default_value default_value) 0%nat
    list_state
  = (Ok (VInt 3), list_state).
Proof.
  split; [|split].
  - destruct (helper_negative_index_wraps 0 0%nat (- 1) 1
                [VInt 1; VInt 2; VInt 3] list_state eq_refl) as [Hin _].
    + vm_compute. discriminate.
    + reflexivity.
    + lia.
    + destruct Hin as (v & Hv & Hrun).
      * vm_compute. discriminate.
      * injection Hv as <-. exact Hrun.
  - apply (helper_negative_index_wraps 0 0%nat (- 4) 4
             [VInt 1; VInt 2; VInt 3] list_state eq_refl).
    + vm_compute. discriminate.
    + reflexivity.
    + lia.
    + vm_compute. reflexivity.
  - destruct (helper_negative_index_wraps 0 0%nat (- (2 ^ 32 + 1)) 1
                [VInt 1; VInt 2; VInt 3] list_state eq_refl) as [Hin _].
    + vm_compute. discriminate.
    + reflexivity.
    + lia.
    + destruct Hin as (v & Hv & Hrun).
      * vm_compute. discriminate.
      * injection Hv as <-. exact Hrun.
Defined.

(** ** The [map] built-in *)

(** C3: the code does not do what the claim says. [map] stores the value of
    every statement of the lambda body, not only of the last one: with the
    two-statement body [x * 2; x] the list [[1,2,3]] is mapped to the six
    values [[2, 1, 4, 2, 6, 3]], not to [[1, 2, 3]]. *)
Theorem map_collects_every_statement :
  fst (interpret 8 program_map_two_statements initial_state) = Ok (VInt 0) /\
  heap (snd (interpret 8 program_map_two_statements initial_state)) !! 2%nat
  = Some (CList [VInt 2; VInt 1; VInt 4; VInt 2; VInt 6; VInt 3]) /\
  stdout (snd (interpret 8 program_map_two_statements initial_state))
  = [String.append "[2, 1, 4, 2, 6, 3]" endl].
Proof. repeat split; vm_compute; reflexivity. Qed.

(** Scenario S3: with the one-statement body [x * 2], [[1,2,3].map(f)] prints
    [[2, 4, 6]]. *)
Theorem scenario_S3_prints_doubles :
  fst (interpret 8 program_S3 initial_state) = Ok (VInt 0) /\
  stdout (snd (interpret 8 program_S3 initial_state))
  = [String.append "[2, 4, 6]" endl].
Proof. split; vm_compute; reflexivity. Qed.

Lemma modify_frame_heap (fid : nat) (g : CallStackFrame -> CallStackFrame)
    (st st' : State) (r : Result unit) :
  modify_frame fid g st = (r, st') -> heap st' = heap st.
Proof.
  unfold modify_frame. destruct (fid <? length (callStack st))%nat;
    intros [= _ <-]; reflexivity.
Qed.

Section MapCount.

Variable ev : ASTNode -> M Value.
Variable lst : loc.
Variable body : list ASTNode.

(** The statements of the lambda body leave the mapped list alone. *)
Hypothesis body_keeps_list :
  forall (stmt : ASTNode) (st st' : State) (r : Result Value),
    In stmt body -> ev stmt st = (r, st') -> heap st' !! lst = heap st !! lst.

Lemma collect_stmts_length (stmts : list ASTNode) :
  (forall stmt : ASTNode, In stmt stmts -> In stmt body) ->
  forall (acc r : list Value) (st st' : State),
    collect_stmts ev stmts acc st = (Ok r, st') ->
    length r = (length acc + length stmts)%nat /\
    heap st' !! lst = heap st !! lst.
Proof.
  induction stmts as [|stmt stmts IH]; intros Hsub acc r st st' Hrun.
  - cbn in Hrun. unfold ret in Hrun. injection Hrun as <- <-.
    split; [cbn; lia|done].
  - cbn in Hrun. unfold bind in Hrun.
    destruct (ev stmt st) as [[v|e|c] st1] eqn:Hev; try discriminate.
    apply IH in Hrun as [Hlen Hheap]; [|intros s Hs; apply Hsub; by right].
    rewrite length_app in Hlen. cbn in Hlen. split; [cbn; lia|].
    rewrite Hheap. eapply body_keeps_list; [|exact Hev]. apply Hsub. by left.
Qed.

Lemma lambdaMap_loop_length (fid : nat) (mapVariable : string)
    (elems : list Value) (fuel : nat) :
  forall (i : nat) (acc r : list Value) (st st' : State),
    heap st !! lst = Some (CList elems) ->
    (i <= length elems)%nat ->
    lambdaMap_loop ev fuel body fid mapVariable lst i acc st = (Ok r, st') ->
    length r = (length acc + (length elems - i) * length body)%nat /\
    heap st' !! lst = Some (CList elems).
Proof.
  induction fuel as [|fuel IH]; intros i acc r st st' Hcell Hi Hrun.
  - discriminate.
  - cbn -[Nat.ltb] in Hrun. unfold bind, read_list, crash in Hrun.
    rewrite Hcell in Hrun.
    destruct (Nat.ltb_spec i (length elems)) as [Hlt|Hge].
    + destruct (elems !! i) as [x|] eqn:Hx; [|discriminate].
      destruct (set_var fid mapVariable x st) as [[[]|e|c] st1] eqn:Hset;
        try discriminate.
      apply modify_frame_heap in Hset.
      destruct (collect_stmts ev body acc st1) as [[acc'|e|c] st2] eqn:Hcol;
        try discriminate.
      apply collect_stmts_length in Hcol as [Hlen Hheap]; [|done].
      apply IH in Hrun as [Hlen' Hheap']; [|by rewrite Hheap, Hset|lia].
      split; [|exact Hheap']. rewrite Hlen', Hlen.
      replace (length elems - i)%nat with (S (length elems - S i)) by lia.
      lia.
    + unfold ret in Hrun. injection Hrun as <- <-. split; [|exact Hcell].
      replace (length elems - i)%nat with 0%nat by lia. lia.
Qed.

(** X6. [map] with a lambda of at least one parameter, over a list that the
    body leaves alone: when it returns, the result is a new list, the cell
    appended last to the heap, that holds one value for every statement of
    the body and every element of the list, that is [len * |body|] values;
    there is one value per element exactly when the body is a single
    statement. *)
Theorem lambdaMap_result_length (fuel : nat) (lam : KLambda)
    (mapVariable : string) (dflt : Value) (others : list (string * Value))
    (elems : list Value) (st st' : State) (v : Value) :
  lambda_body lam = body ->
  lambda_parameters lam = (mapVariable, dflt) :: others ->
  heap st !! lst = Some (CList elems) ->
  lambdaMap ev fuel (Some lam) lst st = (Ok v, st') ->
  exists (l' : loc) (results : list Value),
    v = VList l' /\
    heap st' !! l' = Some (CList results) /\
    length results = (length elems * length body)%nat /\
    exists earlier : list Cell,
      heap st' = earlier ++ [CList results] /\ l' = length earlier.
Proof.
  intros Hbody Hparams Hcell Hrun.
  unfold lambdaMap in Hrun. rewrite Hparams, Hbody in Hrun.
  unfold bind in Hrun.
  destruct (top_frame_id st) as [[fid|e|c] st0] eqn:Hfid; try discriminate.
  assert (st0 = st) as ->.
  { unfold top_frame_id in Hfid. destruct (callStack st); by inversion Hfid. }
  destruct (set_var fid mapVariable (VInt 0) st) as [[[]|e|c] st1] eqn:Hset;
    try discriminate.
  apply modify_frame_heap in Hset.
  destruct (lambdaMap_loop ev fuel body fid mapVariable lst 0 [] st1)
    as [[results|e|c] st2] eqn:Hloop; try discriminate.
  apply (lambdaMap_loop_length _ _ elems) in Hloop as [Hlen _];
    [|by rewrite Hset|lia].
  destruct (erase_var fid mapVariable st2) as [[[]|e|c] st3] eqn:Herase;
    try discriminate.
  apply modify_frame_heap in Herase.
  unfold alloc, ret in Hrun. injection Hrun as <- <-.
  exists (length (heap st3)), results. split; [reflexivity|]. split; [|split].
  - cbn. apply list_lookup_middle. reflexivity.
  - rewrite Hlen. cbn. lia.
  - exists (heap st3). split; reflexivity.
Qed.

End MapCount.

(** [lambdaMap_result_length] on the list [[1, 2, 3]] and a lambda whose body
    is the two literals [7] and [8]: six values. *)
Lemma lambdaMap_result_length_witness :
  exists (l' : loc) (results : list Value),
    heap (snd (lambdaMap (interpret 1) 4
                 (Some (mkLambda [int_lit 7; int_lit 8] [("x", VInt 0)] []))
                 0%nat list_state)) !! l' = Some (CList results) /\
    length results = 6%nat.
Proof.
  destruct (lambdaMap_result_length (interpret 1) 0%nat [int_lit 7; int_lit 8])
    with (fuel := 4%nat)
         (lam := mkLambda [int_lit 7; int_lit 8] [("x", VInt 0)] [])
         (mapVariable := "x") (dflt := VInt 0)
         (others := @nil (string * Value))
         (elems := [VInt 1; VInt 2; VInt 3]) (st := list_state)
         (st' := snd (lambdaMap (interpret 1) 4
                        (Some (mkLambda [int_lit 7; int_lit 8] [("x", VInt 0)] []))
                        0%nat list_state))
         (v := VList 3%nat)
    as (l' & results & _ & Hcell & Hlen & _).
  - intros stmt st st' r [<- | [<- | []]] Hev; cbn in Hev;
      injection Hev as _ <-; reflexivity.
  - reflexivity.
  - reflexivity.
  - reflexivity.
  - vm_compute. reflexivity.
  - exists l', results. split; [exact Hcell | exact Hlen].
Defined.

(** ** Steps of the evaluation monad *)

Lemma bind_ok (A B : Type) (m : M A) (k : A -> M B) (st st' : State) (a : A) :
  m st = (Ok a, st') -> bind m k st = k a st'.
Proof. intros Hm. unfold bind. rewrite Hm. reflexivity. Qed.

Lemma bind_throw (A B : Type) (m : M A) (k : A -> M B) (st st' : State)
    (e : KiwiError) :
  m st = (Throw e, st') -> bind m k st = (Throw e, st').
Proof. intros Hm. unfold bind. rewrite Hm. reflexivity. Qed.

Lemma top_frame_run (st : State) (f : CallStackFrame)
    (rest : list CallStackFrame) :
  callStack st = f :: rest -> top_frame st = (Ok f, st).
Proof. intros Hs. unfold top_frame. rewrite Hs. reflexivity. Qed.

Lemma top_frame_id_run (st : State) (f : CallStackFrame)
    (rest : list CallStackFrame) :
  callStack st = f :: rest -> top_frame_id st = (Ok (length rest), st).
Proof. intros Hs. unfold top_frame_id. rewrite Hs. reflexivity. Qed.

Lemma read_frame_top (st : State) (f : CallStackFrame)
    (rest : list CallStackFrame) (fid : nat) :
  callStack st = f :: rest -> fid = length rest ->
  read_frame fid st = (Ok f, st).
Proof.
  intros Hs ->. unfold read_frame, frame_index. rewrite Hs.
  replace (length rest <? length (f :: rest))%nat with true
    by (symmetry; apply Nat.ltb_lt; simpl; lia).
  replace (length (f :: rest) - 1 - length rest)%nat with 0%nat
    by (simpl; lia).
  reflexivity.
Qed.

Lemma modify_frame_top (st : State) (f : CallStackFrame)
    (rest : list CallStackFrame) (fid : nat)
    (g : CallStackFrame -> CallStackFrame) :
  callStack st = f :: rest -> fid = length rest ->
  modify_frame fid g st = (Ok tt, set_callStack st (g f :: rest)).
Proof.
  intros Hs ->. unfold modify_frame, frame_index. rewrite Hs.
  replace (length rest <? length (f :: rest))%nat with true
    by (symmetry; apply Nat.ltb_lt; simpl; lia).
  replace (length (f :: rest) - 1 - length rest)%nat with 0%nat
    by (simpl; lia).
  reflexivity.
Qed.

(** ** Frame flags, frame construction and the frame of a call *)

Lemma isFlagSet_bit (f : CallStackFrame) (k : Z) :
  0 <= k -> isFlagSet f (Z.shiftl 1 k) = Z.testbit (flags f) k.
Proof.
  intros Hk. unfold isFlagSet. rewrite Z.shiftl_1_l.
  destruct (Z.testbit (flags f) k) eqn:Hbit.
  - apply Z.eqb_eq. apply Z.bits_inj'. intros n Hn.
    rewrite Z.land_spec, Z.pow2_bits_eqb by lia.
    destruct (Z.eqb_spec k n) as [->|Hne].
    + rewrite Hbit. reflexivity.
    + apply andb_false_r.
  - apply Z.eqb_neq. intros Heq.
    assert (Hb : Z.testbit (Z.land (flags f) (2 ^ k)) k = true).
    { rewrite Heq. rewrite Z.pow2_bits_eqb by lia. apply Z.eqb_refl. }
    rewrite Z.land_spec, Hbit in Hb. discriminate.
Qed.

Lemma frame_flags_bits (a : FrameFlags) :
  In a frame_flags -> exists k : Z, 0 <= k < 6 /\ a = Z.shiftl 1 k.
Proof.
  unfold frame_flags, ReturnFlag, SubFrame, LoopBreak, LoopContinue, InTry,
    InObject.
  simpl. intros [<-|[<-|[<-|[<-|[<-|[<-|[]]]]]]];
    [exists 0|exists 1|exists 2|exists 3|exists 4|exists 5]; split;
    (lia || reflexivity).
Qed.

(** X10. The six frame flags are independent bits: setting one flag sets it
    and leaves the reading of every other flag as it was; clearing one flag
    clears it and leaves the reading of every other flag as it was. *)
Theorem flag_operations_independent (f : CallStackFrame) (a b : FrameFlags) :
  In a frame_flags -> In b frame_flags ->
  isFlagSet (setFlag f a) b = (bool_decide (a = b) || isFlagSet f b) /\
  isFlagSet (clearFlag f a) b = (negb (bool_decide (a = b)) && isFlagSet f b).
Proof.
  intros Ha Hb.
  destruct (frame_flags_bits a Ha) as (i & Hi & ->).
  destruct (frame_flags_bits b Hb) as (j & Hj & ->).
  assert (Hdec : 2 ^ i = 2 ^ j <-> i = j).
  { split; [|intros ->; reflexivity].
    intros Heq. apply (Z.pow_inj_r 2); lia. }
  rewrite !isFlagSet_bit by lia.
  unfold setFlag, clearFlag, flag_not. cbn [flags].
  rewrite !Z.shiftl_1_l.
  rewrite Z.lor_spec, Z.land_spec, Z.lxor_spec, !Z.pow2_bits_eqb by lia.
  assert (H255 : Z.testbit 255 j = true).
  { assert (Hc : j = 0 \/ j = 1 \/ j = 2 \/ j = 3 \/ j = 4 \/ j = 5) by lia.
    destruct Hc as [->|[->|[->|[->|[->| ->]]]]]; reflexivity. }
  rewrite H255.
  case_bool_decide as Hab.
  - apply Hdec in Hab. subst j. rewrite Z.eqb_refl.
    split; [apply orb_true_r | apply andb_false_r].
  - assert (Hij : (i =? j) = false).
    { apply Z.eqb_neq. intros ->. apply Hab. reflexivity. }
    rewrite Hij. split; [apply orb_false_r|].
    simpl. destruct (Z.testbit (flags f) j); reflexivity.
Qed.

Lemma flag_operations_independent_witness :
  isFlagSet (setFlag new_frame ReturnFlag) InTry = false /\
  isFlagSet (clearFlag (setFlag new_frame InTry) ReturnFlag) InTry = true.
Proof.
  split.
  - destruct (flag_operations_independent new_frame ReturnFlag InTry)
      as [Hset _]; [simpl; tauto | simpl; tauto |].
    rewrite Hset. reflexivity.
  - destruct (flag_operations_independent (setFlag new_frame InTry)
                ReturnFlag InTry) as [_ Hclear]; [simpl; tauto | simpl; tauto |].
    rewrite Hclear. reflexivity.
Defined.

Lemma map_fold_insert_copy (m : gmap string Value) :
  map_fold (fun (name : string) (v : Value) (vars : gmap string Value) =>
              <[name := v]> vars) ∅ m = m.
Proof.
  apply (map_fold_weak_ind
           (fun (r : gmap string Value) (m' : gmap string Value) => r = m')).
  - reflexivity.
  - intros k v m' r _ ->. reflexivity.
Qed.

(** X11. [createFrame] leaves the state alone and returns a frame that
    holds a copy of the caller's locals, or no local for a method invocation,
    a default return slot, the caller's object context with the InObject flag
    when the caller has one, and the caller's InTry and SubFrame flags. The
    Return, LoopBreak and LoopContinue flags are never inherited. *)
Theorem createFrame_inherits (st : State) (frame : CallStackFrame)
    (rest : list CallStackFrame) (isMethodInvocation : bool) :
  callStack st = frame :: rest ->
  exists subFrame : CallStackFrame,
    createFrame isMethodInvocation st = (Ok subFrame, st) /\
    variables subFrame = (if isMethodInvocation then ∅ else variables frame) /\
    returnValue subFrame = default_value /\
    objectContext subFrame =
      (if inObjectContext frame then objectContext frame else None) /\
    isFlagSet subFrame InObject = inObjectContext frame /\
    isFlagSet subFrame InTry = isFlagSet frame InTry /\
    isFlagSet subFrame SubFrame = isFlagSet frame SubFrame /\
    isFlagSet subFrame ReturnFlag = false /\
    isFlagSet subFrame LoopBreak = false /\
    isFlagSet subFrame LoopContinue = false.
Proof.
  intros Hstack.
  unfold createFrame, bind, top_frame, ret. rewrite Hstack.
  eexists. split; [reflexivity|].
  rewrite map_fold_insert_copy.
  destruct isMethodInvocation, (inObjectContext frame), (isFlagSet frame InTry),
    (isFlagSet frame SubFrame); repeat split; reflexivity.
Qed.

Lemma createFrame_inherits_witness :
  exists subFrame : CallStackFrame,
    createFrame false call_state = (Ok subFrame, call_state) /\
    variables subFrame = variables callee_frame /\
    isFlagSet subFrame ReturnFlag = false.
Proof.
  destruct (createFrame_inherits call_state callee_frame [caller_frame] false)
    as (subFrame & Hrun & Hvars & _ & _ & _ & _ & _ & Hret & _);
    [reflexivity|].
  exists subFrame. repeat split; assumption.
Defined.

Lemma createFrame_run (st : State) (frame : CallStackFrame)
    (rest : list CallStackFrame) (isMethodInvocation : bool) :
  callStack st = frame :: rest ->
  exists subFrame : CallStackFrame,
    createFrame isMethodInvocation st = (Ok subFrame, st) /\
    variables subFrame = (if isMethodInvocation then ∅ else variables frame) /\
    returnValue subFrame = default_value.
Proof.
  intros Hstack.
  unfold createFrame, bind, top_frame, ret. rewrite Hstack.
  eexists. split; [reflexivity|].
  rewrite map_fold_insert_copy.
  destruct isMethodInvocation, (inObjectContext frame), (isFlagSet frame InTry),
    (isFlagSet frame SubFrame); split; reflexivity.
Qed.

(** [dropFrame] when the popped frame and the caller agree on every name
    that both bind: the caller keeps its locals. *)
Lemma dropFrame_agreeing (st : State) (frame callerFrame : CallStackFrame)
    (rest : list CallStackFrame) :
  callStack st = frame :: callerFrame :: rest ->
  (forall (name : string) (v old : Value),
      variables frame !! name = Some v ->
      variables callerFrame !! name = Some old -> v = old) ->
  dropFrame st =
  (Ok (VInt 0),
   set_callStack st
     (mkFrame (variables callerFrame) (returnValue frame)
        (objectContext callerFrame)
        (if isFlagSet callerFrame SubFrame
         then Z.lor (flags callerFrame) ReturnFlag
         else flags callerFrame) :: rest)).
Proof.
  intros Hstack Hagree. unfold dropFrame. rewrite Hstack.
  f_equal. f_equal. f_equal.
  match goal with
  | |- updateVariablesInCallerFrame ?vars ?caller = _ =>
    pose proof (updateVariablesInCallerFrame_spec vars caller) as Hspec;
    cbv zeta in Hspec;
    destruct (updateVariablesInCallerFrame vars caller) as [vs rv oc fl]
  end.
  cbn [variables returnValue objectContext flags] in Hspec.
  destruct Hspec as (Hrv' & Hoc' & Hfl' & Hvs).
  assert (Hsub : isFlagSet (set_returnValue callerFrame (returnValue frame))
                   SubFrame = isFlagSet callerFrame SubFrame) by reflexivity.
  rewrite Hsub in *.
  assert (Hvs' : vs = variables callerFrame).
  { apply map_eq. intros name. rewrite Hvs.
    destruct (isFlagSet callerFrame SubFrame);
      cbn [variables setFlag set_returnValue];
      destruct (variables callerFrame !! name) as [old|] eqn:Hold;
      try reflexivity;
      destruct (variables frame !! name) as [v'|] eqn:Hv; try reflexivity;
      simpl; f_equal; eapply Hagree; eassumption. }
  subst vs.
  destruct (isFlagSet callerFrame SubFrame);
    cbn [returnValue objectContext flags setFlag set_returnValue] in *;
    subst; reflexivity.
Qed.

(** X12. A call that does nothing between [createFrame], the push and
    [dropFrame] gives the caller back its locals unchanged and its object
    context; the caller's return slot is reset to the default value, and the
    caller gets the Return flag exactly when it has SubFrame. *)
Theorem empty_call_restores_caller (st : State) (frame : CallStackFrame)
    (rest : list CallStackFrame) (isMethodInvocation : bool) :
  callStack st = frame :: rest ->
  (subFrame <- createFrame isMethodInvocation ;;
   push_frame subFrame ;;;
   dropFrame) st =
  (Ok (VInt 0),
   set_callStack st
     (mkFrame (variables frame) default_value (objectContext frame)
        (if isFlagSet frame SubFrame
         then Z.lor (flags frame) ReturnFlag
         else flags frame) :: rest)).
Proof.
  intros Hstack.
  destruct (createFrame_run st frame rest isMethodInvocation Hstack)
    as (subFrame & Hrun & Hvars & Hrv).
  step_with bind_ok ltac:(exact Hrun).
  step_with bind_ok ltac:(reflexivity).
  rewrite (dropFrame_agreeing _ subFrame frame rest).
  - rewrite Hrv. reflexivity.
  - cbn [callStack set_callStack]. rewrite Hstack. reflexivity.
  - intros name v old Hv Hold. rewrite Hvars in Hv.
    destruct isMethodInvocation.
    + rewrite lookup_empty in Hv. discriminate.
    + congruence.
Qed.

Lemma empty_call_restores_caller_witness :
  (subFrame <- createFrame false ;; push_frame subFrame ;;; dropFrame)
    call_state =
  (Ok (VInt 0),
   set_callStack call_state
     [mkFrame (variables callee_frame) default_value None FlagNone;
      caller_frame]).
Proof.
  apply (empty_call_restores_caller call_state callee_frame [caller_frame] false).
  reflexivity.
Defined.

Lemma visit_ReturnNode_run `{Collaborators} (ev : ASTNode -> M Value)
    (e : ASTNode) (v : Value) (st st2 : State) (f f2 : CallStackFrame)
    (rest rest2 : list CallStackFrame) :
  callStack st = f :: rest ->
  ev e st = (Ok v, st2) ->
  callStack st2 = f2 :: rest2 ->
  length rest2 = length rest ->
  visit_ReturnNode ev (Some e) None st =
  (Ok v,
   set_callStack st2 (set_returnValue (setFlag f2 ReturnFlag) v :: rest2)).
Proof.
  intros Hstack He Hstack2 Hlen.
  unfold visit_ReturnNode.
  step_with bind_ok ltac:(eapply top_frame_id_run; exact Hstack).
  step_with bind_ok ltac:(cbn [ev_opt]; exact He).
  step_with bind_ok ltac:(reflexivity).
  step_with bind_ok ltac:(eapply modify_frame_top; [exact Hstack2 | symmetry; exact Hlen]).
  reflexivity.
Qed.

Lemma isFlagSet_setFlag_same (f : CallStackFrame) (flag : FrameFlags) :
  isFlagSet (setFlag f flag) flag = true.
Proof.
  unfold isFlagSet, setFlag. cbn [flags]. apply Z.eqb_eq. apply land_lor_self.
Qed.

(** ** Function calls *)

Section CallDepth.

Context `{Collaborators}.
Variable ev : ASTNode -> M Value.

(** The statements and arguments that a call evaluates leave the height of
    the call stack as it was whenever they return or throw. *)
Variable nodes : list ASTNode.
Hypothesis ev_keeps_depth :
  forall (node : ASTNode) (s s' : State) (r : Result Value),
    In node nodes ->
    ev node s = (r, s') ->
    (forall c : CrashKind, r <> Crash c) ->
    length (callStack s') = length (callStack s).

Lemma bind_parameters_depth (functionName : string)
    (defaultParameters : list string) (parameters : list (string * Value)) :
  forall (arguments : list ASTNode) (functionFrame : CallStackFrame)
         (st st' : State) (r : Result CallStackFrame),
    (forall node : ASTNode, In node arguments -> In node nodes) ->
    bind_parameters ev functionName defaultParameters parameters arguments
      functionFrame st = (r, st') ->
    (forall c : CrashKind, r <> Crash c) ->
    length (callStack st') = length (callStack st).
Proof.
  induction parameters as [|[paramName paramDefault] rest IH];
    intros arguments functionFrame st st' r Hargs Hrun Hr.
  - cbn in Hrun. unfold ret in Hrun. congruence.
  - cbn [bind_parameters] in Hrun. unfold bind at 1 in Hrun.
    assert (Harg :
      forall (argValue : Value) (s : State),
        length (callStack s) = length (callStack st) ->
        (functionFrame' <-
           match argValue with
           | VLambda lambdaId =>
             modify (fun st0 =>
                       set_lambdaTable st0
                         (<[paramName := lambdaId]> (lambdaTable st0))) ;;;
             ret functionFrame
           | _ =>
             ret (set_variables functionFrame
                    (<[paramName := argValue]> (variables functionFrame)))
           end ;;
         bind_parameters ev functionName defaultParameters rest
           (tail arguments) functionFrame') s = (r, st') ->
        length (callStack st') = length (callStack st)).
    { intros argValue s Hs Hk. rewrite <- Hs.
      assert (Htail : forall node : ASTNode,
                 In node (tail arguments) -> In node nodes).
      { intros node Hin. apply Hargs. destruct arguments; [destruct Hin|].
        right. exact Hin. }
      unfold bind at 1 in Hk.
      destruct argValue; cbn in Hk;
        try (eapply IH; [exact Htail | exact Hk | exact Hr]).
      unfold bind, modify, ret in Hk. cbn in Hk.
      apply (IH _ _ _ _ _ Htail) in Hk; [|exact Hr].
      rewrite Hk. reflexivity. }
    destruct arguments as [|arg arguments'].
    + case_bool_decide.
      * unfold ret at 1 in Hrun. eapply Harg; [reflexivity | exact Hrun].
      * unfold throw in Hrun. congruence.
    + destruct (ev arg st) as [r0 s0] eqn:Hev.
      assert (Hin : In arg nodes) by (apply Hargs; left; reflexivity).
      destruct r0 as [v|e|c].
      * eapply Harg; [|exact Hrun].
        eapply ev_keeps_depth; [exact Hin | exact Hev | discriminate].
      * inversion Hrun; subst.
        eapply ev_keeps_depth; [exact Hin | exact Hev | discriminate].
      * inversion Hrun; subst. exfalso. eapply Hr. reflexivity.
Qed.

Lemma executeFunctionBody_depth (body : list ASTNode) :
  forall (result : Value) (st st' : State) (r : Result Value),
    (forall node : ASTNode, In node body -> In node nodes) ->
    executeFunctionBody ev body result st = (r, st') ->
    (forall c : CrashKind, r <> Crash c) ->
    length (callStack st') = length (callStack st).
Proof.
  induction body as [|stmt rest IH]; intros result st st' r Hbody Hrun Hr.
  - cbn in Hrun. unfold ret in Hrun. congruence.
  - cbn [executeFunctionBody] in Hrun. unfold bind at 1 in Hrun.
    destruct (ev stmt st) as [r0 s0] eqn:Hev.
    assert (Hin : In stmt nodes) by (apply Hbody; left; reflexivity).
    destruct r0 as [v|e|c].
    + assert (Hs0 : length (callStack s0) = length (callStack st)).
      { eapply ev_keeps_depth; [exact Hin | exact Hev | discriminate]. }
      unfold bind, top_frame in Hrun.
      destruct (callStack s0) as [|frame cs] eqn:Hcs.
      * inversion Hrun; subst. exfalso. eapply Hr. reflexivity.
      * destruct (isFlagSet frame ReturnFlag).
        -- unfold ret in Hrun. inversion Hrun; subst. rewrite Hcs. exact Hs0.
        -- rewrite <- Hs0, <- Hcs.
           eapply IH; [|exact Hrun | exact Hr].
           intros node Hnode. apply Hbody. right. exact Hnode.
    + inversion Hrun; subst.
      eapply ev_keeps_depth; [exact Hin | exact Hev | discriminate].
    + inversion Hrun; subst. exfalso. eapply Hr. reflexivity.
Qed.

Lemma dropFrame_depth (st : State) (frame callerFrame : CallStackFrame)
    (rest : list CallStackFrame) :
  callStack st = frame :: callerFrame :: rest ->
  exists st' : State,
    dropFrame st = (Ok (VInt 0), st') /\
    length (callStack st') = S (length rest).
Proof.
  intros Hstack. unfold dropFrame. rewrite Hstack.
  eexists. split; [reflexivity|]. reflexivity.
Qed.

(** X13. [callFunction] is balanced: when the arguments and the statements
    of the body leave the height of the call stack as it was, the call does
    too, whether it returns a value or throws a [KiwiError]: the frame that
    it pushed has been dropped. *)
Theorem callFunction_keeps_stack_depth (function : KFunction)
    (arguments : list ASTNode) (functionName : string) (st st' : State)
    (r : Result Value) :
  (forall node : ASTNode,
      In node (arguments ++ function_body function) -> In node nodes) ->
  callFunction ev function arguments functionName st = (r, st') ->
  (forall c : CrashKind, r <> Crash c) ->
  length (callStack st') = length (callStack st).
Proof.
  intros Hnodes Hrun Hr.
  unfold callFunction in Hrun. unfold bind at 1 in Hrun.
  unfold createFrame in Hrun. unfold bind at 1, top_frame in Hrun.
  destruct (callStack st) as [|frame rest] eqn:Hstack.
  { inversion Hrun; subst. exfalso. eapply Hr. reflexivity. }
  unfold ret at 1 in Hrun. unfold bind at 1 in Hrun.
  match type of Hrun with
  | context [bind_parameters ev ?n ?d ?p ?a ?f st] =>
    destruct (bind_parameters ev n d p a f st) as [r1 s1] eqn:Hbind
  end.
  assert (Hargs : forall node : ASTNode, In node arguments -> In node nodes).
  { intros node Hin. apply Hnodes. apply in_or_app. left. exact Hin. }
  assert (Hbody : forall node : ASTNode,
             In node (function_body function) -> In node nodes).
  { intros node Hin. apply Hnodes. apply in_or_app. right. exact Hin. }
  destruct r1 as [functionFrame|e|c].
  - assert (Hs1 : length (callStack s1) = length (callStack st)).
    { eapply bind_parameters_depth; [exact Hargs | exact Hbind | discriminate]. }
    rewrite Hstack in Hs1.
    unfold bind at 1, push_frame, modify in Hrun.
    unfold try_catch in Hrun. unfold bind at 1 in Hrun.
    match type of Hrun with
    | context [executeFunctionBody ev ?b ?d ?s] =>
      destruct (executeFunctionBody ev b d s) as [r2 s2] eqn:Hexec
    end.
    assert (Hdepth2 :
      (forall c : CrashKind, r2 <> Crash c) ->
      exists (f c : CallStackFrame) (rest' : list CallStackFrame),
        callStack s2 = f :: c :: rest' /\ length rest' = length rest).
    { intros Hr2.
      apply executeFunctionBody_depth in Hexec; [|exact Hbody | exact Hr2].
      cbn in Hexec. rewrite Hs1 in Hexec.
      destruct (callStack s2) as [|f [|c rest']]; simpl in Hexec; try lia.
      exists f, c, rest'. split; [reflexivity | simpl in Hexec; lia]. }
    destruct r2 as [v|e|c].
    + destruct Hdepth2 as (f & c & rest' & Hcs2 & Hlen); [discriminate|].
      destruct (dropFrame_depth s2 f c rest' Hcs2) as (s3 & Hdrop & Hlen3).
      unfold bind at 1 in Hrun. rewrite Hdrop in Hrun. unfold ret in Hrun.
      inversion Hrun; subst. rewrite Hlen3. simpl. lia.
    + destruct Hdepth2 as (f & c & rest' & Hcs2 & Hlen); [discriminate|].
      destruct (dropFrame_depth s2 f c rest' Hcs2) as (s3 & Hdrop & Hlen3).
      unfold bind at 1 in Hrun. rewrite Hdrop in Hrun. unfold rethrow in Hrun.
      inversion Hrun; subst. rewrite Hlen3. simpl. lia.
    + inversion Hrun; subst. exfalso. eapply Hr. reflexivity.
  - inversion Hrun; subst. rewrite <- Hstack.
    eapply bind_parameters_depth; [exact Hargs | exact Hbind | discriminate].
  - inversion Hrun; subst. exfalso. eapply Hr. reflexivity.
Qed.

End CallDepth.

Lemma callFunction_keeps_stack_depth_witness :
  length
    (callStack
       (snd (callFunction (interpret 3)
               (mkFunction [PrintNode (int_lit 2) true] [("n", VInt 0)] [])
               [int_lit 4] "f" root_state))) =
  length (callStack root_state).
Proof.
  apply (callFunction_keeps_stack_depth (interpret 3)
           [int_lit 4; PrintNode (int_lit 2) true]) with
    (function := mkFunction [PrintNode (int_lit 2) true] [("n", VInt 0)] [])
    (arguments := [int_lit 4]) (functionName := "f")
    (r := Ok (VInt 0)).
  - intros node s s' r [<-|[<-|[]]] Hrun _; cbn in Hrun;
      inversion Hrun; reflexivity.
  - intros node Hin. exact Hin.
  - reflexivity.
  - discriminate.
Defined.

Lemma bind_parameters_missing `{Collaborators} (ev : ASTNode -> M Value)
    (functionName : string) (defaultParameters : list string)
    (name : string) (dflt : Value) (more : list (string * Value))
    (bound : list (string * Value)) :
  forall (arguments : list ASTNode) (values : list Value)
         (functionFrame : CallStackFrame) (st st1 : State),
    length arguments = length bound ->
    name ∉ defaultParameters ->
    eval_all ev arguments st = (Ok values, st1) ->
    Forall (fun v : Value => forall identifier : string,
                v <> VLambda identifier) values ->
    bind_parameters ev functionName defaultParameters
      (bound ++ (name, dflt) :: more) arguments functionFrame st =
    (Throw (mkError ParameterCountMismatchError functionName), st1).
Proof.
  induction bound as [|[paramName paramDefault] bound IH];
    intros arguments values functionFrame st st1 Hlen Hname Heval Hvalues.
  - destruct arguments; [|discriminate].
    cbn in Heval. unfold ret in Heval. inversion Heval; subst.
    cbn [app bind_parameters]. unfold bind at 1.
    rewrite bool_decide_eq_false_2 by exact Hname. reflexivity.
  - destruct arguments as [|arg arguments]; [discriminate|].
    cbn [eval_all] in Heval. unfold bind at 1 in Heval.
    cbn [app bind_parameters]. unfold bind at 1.
    destruct (ev arg st) as [[v|e|c] s0]; try discriminate.
    unfold bind at 1 in Heval.
    destruct (eval_all ev arguments s0) as [[vs|e|c] s1] eqn:Hrest;
      try discriminate.
    unfold ret in Heval. inversion Heval; subst.
    inversion Hvalues as [|? ? Hv Hvs]; subst.
    unfold bind at 1.
    assert (Hframe :
      match v with
      | VLambda lambdaId =>
        modify (fun st0 =>
                  set_lambdaTable st0
                    (<[paramName := lambdaId]> (lambdaTable st0))) ;;;
        ret functionFrame
      | _ =>
        ret (set_variables functionFrame
               (<[paramName := v]> (variables functionFrame)))
      end s0 =
      (Ok (set_variables functionFrame
             (<[paramName := v]> (variables functionFrame))), s0)).
    { destruct v; try reflexivity. exfalso. eapply Hv. reflexivity. }
    rewrite Hframe. cbn [tail].
    apply (IH arguments vs); try assumption.
    simpl in Hlen. lia.
Qed.

(** X14. A call with fewer arguments than parameters fails with
    [ParameterCountMismatchError] when the first parameter left without an
    argument has no default: the arguments are evaluated (here to values that
    are not lambdas), no frame is pushed and the body is not run. *)
Theorem callFunction_missing_argument `{Collaborators}
    (ev : ASTNode -> M Value) (function : KFunction)
    (arguments : list ASTNode) (functionName : string) (st st1 : State)
    (values : list Value) (frame : CallStackFrame)
    (rest : list CallStackFrame) (bound more : list (string * Value))
    (name : string) (dflt : Value) :
  callStack st = frame :: rest ->
  function_parameters function = bound ++ (name, dflt) :: more ->
  length arguments = length bound ->
  name ∉ function_defaultParameters function ->
  eval_all ev arguments st = (Ok values, st1) ->
  Forall (fun v : Value => forall identifier : string,
              v <> VLambda identifier) values ->
  callFunction ev function arguments functionName st =
  (Throw (mkError ParameterCountMismatchError functionName), st1).
Proof.
  intros Hstack Hparams Hlen Hname Heval Hvalues.
  destruct (createFrame_run st frame rest false Hstack)
    as (subFrame & Hcreate & _).
  unfold callFunction. unfold bind at 1. rewrite Hcreate.
  unfold bind at 1. rewrite Hparams.
  rewrite (bind_parameters_missing ev functionName _ name dflt more bound
             arguments values subFrame st st1 Hlen Hname Heval Hvalues).
  reflexivity.
Qed.

Lemma callFunction_missing_argument_witness :
  callFunction (interpret 3)
    (mkFunction [PrintNode (int_lit 2) true] [("a", VInt 0); ("b", VInt 0)] [])
    [int_lit 4] "f" root_state =
  (Throw (mkError ParameterCountMismatchError "f"), root_state).
Proof.
  apply (callFunction_missing_argument (interpret 3) _ [int_lit 4] "f"
           root_state root_state [VInt 4] new_frame [] [("a", VInt 0)] []
           "b" (VInt 0)).
  - reflexivity.
  - reflexivity.
  - reflexivity.
  - cbn. apply not_elem_of_nil.
  - reflexivity.
  - constructor; [discriminate | constructor].
Defined.

(** X15. A function without parameters whose first statement is [return e]
    yields the value of [e] (evaluated in the new frame, leaving the call
    stack as it is): no later statement of the body is evaluated, the frame
    of the call is dropped, the caller keeps its locals and its return slot
    holds the value. *)
Theorem callFunction_return_statement `{Collaborators}
    (ev : ASTNode -> M Value) (function : KFunction)
    (arguments later : list ASTNode) (functionName : string)
    (stmt e : ASTNode) (v : Value) (st st2 : State)
    (frame subFrame : CallStackFrame) (rest : list CallStackFrame) :
  callStack st = frame :: rest ->
  function_parameters function = [] ->
  function_body function = stmt :: later ->
  (forall s : State, ev stmt s = visit_ReturnNode ev (Some e) None s) ->
  createFrame false st = (Ok subFrame, st) ->
  ev e (set_callStack st (subFrame :: frame :: rest)) = (Ok v, st2) ->
  callStack st2 = subFrame :: frame :: rest ->
  callFunction ev function arguments functionName st =
  (Ok v,
   set_callStack st2
     (mkFrame (variables frame) v (objectContext frame)
        (if isFlagSet frame SubFrame
         then Z.lor (flags frame) ReturnFlag
         else flags frame) :: rest)).
Proof.
  intros Hstack Hparams Hbody Hstmt Hcreate He Hstack2.
  destruct (createFrame_run st frame rest false Hstack)
    as (sub' & Hcreate' & Hvars & _).
  rewrite Hcreate in Hcreate'. inversion Hcreate'; subst sub'. clear Hcreate'.
  set (subFrame' := set_returnValue (setFlag subFrame ReturnFlag) v).
  assert (Hexec :
    executeFunctionBody ev (stmt :: later) default_value
      (set_callStack st (subFrame :: frame :: rest)) =
    (Ok v, set_callStack st2 (subFrame' :: frame :: rest))).
  { cbn [executeFunctionBody].
    step_with bind_ok ltac:(rewrite Hstmt;
                    eapply (visit_ReturnNode_run ev e v _ st2 subFrame subFrame
                              (frame :: rest) (frame :: rest));
                    [reflexivity | exact He | exact Hstack2 | reflexivity]).
    step_with bind_ok ltac:(eapply top_frame_run; reflexivity).
    fold subFrame'.
    replace (isFlagSet subFrame' ReturnFlag) with true
      by (symmetry; apply isFlagSet_setFlag_same).
    reflexivity. }
  unfold callFunction.
  step_with bind_ok ltac:(exact Hcreate).
  rewrite Hparams, Hbody. cbn [bind_parameters].
  step_with bind_ok ltac:(reflexivity).
  step_with bind_ok ltac:(reflexivity).
  rewrite Hstack.
  unfold try_catch.
  step_with bind_ok ltac:(exact Hexec).
  step_with bind_ok ltac:(eapply (dropFrame_agreeing _ subFrame' frame rest);
                  [reflexivity |
                   intros name v' old Hv' Hold;
                   cbn [subFrame' variables set_returnValue setFlag] in Hv';
                   rewrite Hvars in Hv'; congruence]).
  reflexivity.
Qed.

Lemma callFunction_return_statement_witness :
  callFunction (interpret_with_return 3)
    (mkFunction [NoOpNode; PrintNode (int_lit 2) true] [] []) [] "f"
    root_state =
  (Ok (VInt 7),
   set_callStack root_state [mkFrame ∅ (VInt 7) None FlagNone]).
Proof.
  apply (callFunction_return_statement (interpret_with_return 3)
           (mkFunction [NoOpNode; PrintNode (int_lit 2) true] [] []) []
           [PrintNode (int_lit 2) true] "f" NoOpNode (int_lit 7) (VInt 7)
           root_state (set_callStack root_state [new_frame; new_frame])
           new_frame new_frame []).
  - reflexivity.
  - reflexivity.
  - reflexivity.
  - intros s. reflexivity.
  - reflexivity.
  - reflexivity.
  - reflexivity.
Defined.

(** ** Reading slices with a step other than zero *)

Lemma int_add_ok (i step : Z) :
  INT_MIN <= i + step <= INT_MAX -> int_add i step = Ok (i + step).
Proof.
  intros [Hlo Hhi]. unfold int_add.
  replace (INT_MIN <=? i + step) with true by (symmetry; apply Z.leb_le; lia).
  replace (i + step <=? INT_MAX) with true by (symmetry; apply Z.leb_le; lia).
  reflexivity.
Qed.

Lemma lookup_in_range (elems : list Value) (i : Z) :
  0 <= i < Z.of_nat (length elems) ->
  exists v : Value, elems !! Z.to_nat i = Some v.
Proof.
  intros Hi. apply lookup_lt_is_Some_2. lia.
Qed.

(** The forward loop picks the elements at [i], [i + step], ... below
    [stop]. *)
Lemma slice_up_picks (step stop : Z) (elems : list Value) :
  0 < step ->
  stop <= Z.of_nat (length elems) ->
  Z.of_nat (length elems) + step <= INT_MAX ->
  forall (n fuel : nat) (i : Z) (sliced : list Value),
    0 <= i -> (n < fuel)%nat ->
    Z.of_nat n = Z.max 0 ((stop - i + step - 1) / step) ->
    exists picked : list Value,
      slice_up fuel step stop elems i sliced = Ok (sliced ++ picked) /\
      length picked = n /\
      forall j : nat, (j < n)%nat ->
        picked !! j = elems !! Z.to_nat (i + Z.of_nat j * step).
Proof.
  intros Hstep Hstop Hmax.
  induction n as [|n IH]; intros fuel i sliced Hi Hfuel Hn.
  - destruct fuel as [|fuel]; [lia|]. cbn [slice_up].
    assert (Hq : (stop - i + step - 1) / step <= 0) by lia.
    assert (Hle : stop <= i).
    { destruct (Z.le_gt_cases stop i) as [Hc|Hc]; [exact Hc|].
      assert (1 <= (stop - i + step - 1) / step).
      { apply Z.div_le_lower_bound; lia. }
      lia. }
    replace (i <? stop) with false by (symmetry; apply Z.ltb_ge; lia).
    exists []. rewrite app_nil_r. repeat split. intros j Hj. lia.
  - destruct fuel as [|fuel]; [lia|]. cbn [slice_up].
    assert (Hq : (stop - i + step - 1) / step = Z.of_nat (S n)) by lia.
    assert (Hlt : i < stop).
    { destruct (Z.le_gt_cases stop i) as [Hc|Hc]; [|lia].
      assert ((stop - i + step - 1) / step <= 0).
      { apply Z.lt_succ_r. apply Z.div_lt_upper_bound; lia. }
      lia. }
    replace (i <? stop) with true by (symmetry; apply Z.ltb_lt; lia).
    replace (Z.of_nat (length elems) <=? i) with false
      by (symmetry; apply Z.leb_gt; lia).
    replace (i <? 0) with false by (symmetry; apply Z.ltb_ge; lia).
    destruct (lookup_in_range elems i) as [v Hv]; [lia|].
    rewrite Hv.
    rewrite int_add_ok by (unfold INT_MIN; unfold INT_MAX in *; lia).
    destruct (IH fuel (i + step) (sliced ++ [v])) as (picked & Hrun & Hlen & Hpick).
    + lia.
    + lia.
    + replace (stop - (i + step) + step - 1)
        with ((stop - i + step - 1) + (-1) * step) by lia.
      rewrite Z.div_add by lia. lia.
    + exists (v :: picked). rewrite Hrun. split.
      * rewrite <- app_assoc. reflexivity.
      * split; [simpl; lia|].
        intros [|j] Hj.
        -- simpl. rewrite <- Hv. f_equal. lia.
        -- simpl. rewrite Hpick by lia. f_equal. lia.
Qed.


Lemma interpretListSlice_run (fuel : nat) (lst : loc) (start stop step : Z)
    (elems sliced : list Value) (st : State) :
  heap st !! lst = Some (CList elems) ->
  slice_elements fuel (to_int start) (to_int stop) (to_int step) elems
    = Ok sliced ->
  interpretListSlice fuel (mkSlice true (VInt start) (VInt stop) (VInt step))
    lst st =
  (Ok (VList (length (heap st))), set_heap st (heap st ++ [CList sliced])).
Proof.
  intros Hheap Hslice.
  unfold interpretListSlice. cbn [isSlice indexOrStart stopIndex stepValue as_int].
  unfold bind, read_list, lift, alloc, ret. rewrite Hheap, Hslice. reflexivity.
Qed.

(** X16. Reading a slice with a positive step returns a new list, appended
    to the heap, that holds the elements at the normalised start, start +
    step, start + 2 step, ... below the normalised stop; the sliced list is
    not changed. *)
Theorem read_slice_forward (fuel : nat) (lst : loc) (start stop step : Z)
    (elems : list Value) (st : State) :
  heap st !! lst = Some (CList elems) ->
  0 < to_int step ->
  Z.of_nat (length elems) + to_int step <= INT_MAX ->
  (length elems < fuel)%nat ->
  let first := read_start (to_int start) (Z.of_nat (length elems)) in
  let last :=
    read_stop (to_int stop) (to_int step) (Z.of_nat (length elems)) in
  let n := Z.to_nat ((last - first + to_int step - 1) / to_int step) in
  exists sliced : list Value,
    interpretListSlice fuel
      (mkSlice true (VInt start) (VInt stop) (VInt step)) lst st =
    (Ok (VList (length (heap st))), set_heap st (heap st ++ [CList sliced])) /\
    length sliced = n /\
    forall j : nat, (j < n)%nat ->
      sliced !! j = elems !! Z.to_nat (first + Z.of_nat j * to_int step).
Proof.
  intros Hheap Hstep Hmax Hfuel first last n.
  assert (Hfirst : 0 <= first).
  { unfold first, read_start. destruct (to_int start <? 0) eqn:Hneg; [lia|].
    apply Z.ltb_ge in Hneg. exact Hneg. }
  assert (Hlast : last <= Z.of_nat (length elems)).
  { unfold last, read_stop.
    replace (to_int step <? 0) with false by (symmetry; apply Z.ltb_ge; lia).
    cbn [andb].
    destruct (to_int stop <? 0) eqn:Hneg; [apply Z.ltb_lt in Hneg|]; lia. }
  assert (Hn : (n <= length elems)%nat).
  { unfold n.
    destruct (Z.le_gt_cases ((last - first + to_int step - 1) / to_int step) 0)
      as [Hc|Hc]; [lia|].
    assert ((last - first + to_int step - 1) / to_int step
            < Z.of_nat (length elems) + 1).
    { apply Z.div_lt_upper_bound; [lia|]. nia. }
    lia. }
  destruct (slice_up_picks (to_int step) last elems Hstep Hlast Hmax n fuel
              first []) as (picked & Hrun & Hlen & Hpick).
  - exact Hfirst.
  - lia.
  - unfold n. lia.
  - exists picked. split; [|split; assumption].
    apply (interpretListSlice_run _ _ _ _ _ elems); [exact Hheap|].
    unfold slice_elements. fold first. fold last.
    replace (to_int step <? 0) with false by (symmetry; apply Z.ltb_ge; lia).
    exact Hrun.
Qed.

Lemma read_slice_forward_witness :
  exists sliced : list Value,
    interpretListSlice 4 (mkSlice true (VInt 0) (VInt 3) (VInt 2)) 0%nat
      list_state =
    (Ok (VList 3%nat),
     set_heap list_state (heap list_state ++ [CList sliced])) /\
    length sliced = 2%nat /\
    forall j : nat, (j < 2)%nat ->
      sliced !! j = [VInt 1; VInt 2; VInt 3] !! Z.to_nat (0 + Z.of_nat j * 2).
Proof.
  apply (read_slice_forward 4 0%nat 0 3 2 [VInt 1; VInt 2; VInt 3] list_state).
  - reflexivity.
  - reflexivity.
  - vm_compute. discriminate.
  - simpl. lia.
Defined.

(** X17. A slice without bounds and without a step, [x[:]], is a copy: a
    new list with the elements of the sliced one, which is left as it is. *)
Theorem slice_without_bounds_copies `{Collaborators}
    (ev : ASTNode -> M Value) (fuel : nat) (sliced : ASTNode) (l : loc)
    (elems : list Value) (st st1 : State) :
  ev sliced st = (Ok (VList l), st1) ->
  heap st1 !! l = Some (CList elems) ->
  (length elems < fuel)%nat ->
  Z.of_nat (length elems) < INT_MAX ->
  visit_SliceNode ev fuel (Some sliced) None None None st =
  (Ok (VList (length (heap st1))), set_heap st1 (heap st1 ++ [CList elems])).
Proof.
  intros Hev Hheap Hfuel Hmax.
  unfold visit_SliceNode.
  step_with bind_ok ltac:(exact Hev).
  assert (Hslice :
    getSlice ev None None None (VList l) st1 =
    (Ok (mkSlice true (VInt 0) (VInt (Z.of_nat (length elems))) (VInt 1)), st1)).
  { unfold getSlice, bind, read_list, ret. rewrite Hheap. reflexivity. }
  step_with bind_ok ltac:(exact Hslice).
  apply (interpretListSlice_run _ _ _ _ _ elems); [exact Hheap|].
  assert (Hlen : to_int (Z.of_nat (length elems)) = Z.of_nat (length elems)).
  { apply to_int_small. unfold INT_MIN. unfold INT_MAX in *. lia. }
  rewrite Hlen.
  change (to_int 0) with 0. change (to_int 1) with 1.
  unfold slice_elements, read_start, read_stop.
  change (0 <? 0) with false. change (1 <? 0) with false. cbv iota. cbn [andb].
  replace (Z.of_nat (length elems) <? 0) with false
    by (symmetry; apply Z.ltb_ge; lia).
  rewrite Z.min_id.
  destruct (slice_up_picks 1 (Z.of_nat (length elems)) elems) with
    (n := length elems) (fuel := fuel) (i := 0) (sliced := @nil Value)
    as (picked & Hrun & Hplen & Hpick); try lia.
  - rewrite Z.div_1_r. lia.
  - rewrite Hrun. f_equal. simpl.
    apply list_eq. intros j.
    destruct (decide (j < length elems)%nat) as [Hj|Hj].
    + rewrite Hpick by exact Hj. f_equal. lia.
    + rewrite !lookup_ge_None_2 by lia. reflexivity.
Qed.

Lemma slice_without_bounds_copies_witness :
  visit_SliceNode (interpret 2) 4 (Some (LiteralNode (VList 0%nat)))
    None None None list_state =
  (Ok (VList 3%nat),
   set_heap list_state
     (heap list_state ++ [CList [VInt 1; VInt 2; VInt 3]])).
Proof.
  apply (slice_without_bounds_copies (interpret 2) 4
           (LiteralNode (VList 0%nat)) 0%nat [VInt 1; VInt 2; VInt 3]
           list_state list_state).
  - reflexivity.
  - reflexivity.
  - simpl. lia.
  - reflexivity.
Defined.



(** ** Assignment to a slice with a step above 1 *)

Lemma update_loop_forward (step stop : Z) (aliased : bool)
    (rhs : list Value) :
  0 < step ->
  forall (n rhsIndex : nat) (i : Z) (elems : list Value),
    0 <= i ->
    Z.of_nat (length elems) + step <= INT_MAX ->
    (rhsIndex + n <= length (if aliased then elems else rhs))%nat ->
    exists elems' : list Value,
      update_loop n step stop aliased rhs rhsIndex i elems = Ok elems' /\
      length elems' = length elems /\
      forall j : nat, (j < Z.to_nat i)%nat -> elems' !! j = elems !! j.
Proof.
  intros Hstep.
  induction n as [|n IH]; intros rhsIndex i elems Hi Hmax Hrhs.
  - exists elems. repeat split.
  - cbn [update_loop].
    destruct (i =? stop); [exists elems; repeat split|].
    replace (0 <? step) with true by (symmetry; apply Z.ltb_lt; lia).
    replace (step <? 0) with false by (symmetry; apply Z.ltb_ge; lia).
    cbn [andb orb]. rewrite orb_false_r.
    destruct (Z.ltb_spec i (Z.of_nat (length elems))) as [Hin|Hout];
      [|exists elems; repeat split].
    destruct (lookup_lt_is_Some_2 (if aliased then elems else rhs) rhsIndex)
      as [v Hv]; [lia|].
    rewrite Hv.
    replace (0 <=? i) with true by (symmetry; apply Z.leb_le; lia).
    cbn [andb].
    rewrite int_add_ok by (unfold INT_MIN; unfold INT_MAX in *; lia).
    destruct (IH (S rhsIndex) (i + step) (<[Z.to_nat i := v]> elems))
      as (elems' & Hrun & Hlen & Hkeep).
    + lia.
    + rewrite length_insert. exact Hmax.
    + destruct aliased; [rewrite length_insert|]; lia.
    + exists elems'. rewrite Hrun. split; [reflexivity|].
      rewrite length_insert in Hlen. split; [exact Hlen|].
      intros j Hj. rewrite Hkeep by lia.
      apply list_lookup_insert_ne. lia.
Qed.

(** X19. Assigning to a slice with a step above 1 never resizes the list:
    the call returns normally, the target has its length of before, and the
    elements before the normalised start are the ones of before. *)
Theorem stepped_slice_assignment_keeps_length (insertOp is_slice : bool)
    (targetList rhsValues : loc) (start stop step : Z)
    (elems rhs : list Value) (st : State) :
  heap st !! targetList = Some (CList elems) ->
  heap st !! rhsValues = Some (CList rhs) ->
  1 < to_int step ->
  Z.of_nat (length elems) + to_int step <= INT_MAX ->
  exists elems' : list Value,
    updateListSlice insertOp targetList
      (mkSlice is_slice (VInt start) (VInt stop) (VInt step)) rhsValues st =
    (Ok tt, set_heap st (<[targetList := CList elems']> (heap st))) /\
    length elems' = length elems /\
    forall j : nat,
      Z.of_nat j < read_start (to_int start) (Z.of_nat (length elems)) ->
      elems' !! j = elems !! j.
Proof.
  intros Htarget Hrhs Hstep Hmax.
  unfold updateListSlice.
  cbn [indexOrStart stopIndex stepValue isSlice as_int].
  unfold bind at 1, read_list at 1. rewrite Htarget.
  unfold bind at 1, read_list at 1. rewrite Hrhs.
  unfold update_elements. cbv zeta.
  replace (to_int step =? 1) with false by (symmetry; apply Z.eqb_neq; lia).
  assert (Hpos : 0 < to_int step) by lia.
  match goal with
  | |- context [update_loop ?n (to_int step) ?e ?a ?r 0 ?i elems] =>
    destruct (update_loop_forward (to_int step) e a r Hpos n 0%nat i elems)
      as (elems' & Hrun & Hlen & Hkeep)
  end.
  - destruct (Z.ltb_spec (to_int start) 0) as [Hneg|Hneg];
      match goal with
      | |- context [?a <? 0] => destruct (Z.ltb_spec a 0)
      end; lia.
  - exact Hmax.
  - case_bool_decide as Halias; [|simpl; lia].
    subst rhsValues. rewrite Htarget in Hrhs. inversion Hrhs; subst.
    simpl. lia.
  - exists elems'. unfold bind, lift, write_list, modify.
    rewrite Hrun. split; [reflexivity|]. split; [exact Hlen|].
    intros j Hj. apply Hkeep. unfold read_start in Hj.
    destruct (Z.ltb_spec (to_int start) 0) as [Hneg|Hneg];
      match goal with
      | |- context [?a <? 0] => destruct (Z.ltb_spec a 0)
      end; lia.
Qed.

Lemma stepped_slice_assignment_keeps_length_witness :
  exists elems' : list Value,
    updateListSlice false 0%nat (mkSlice true (VInt 1) (VInt 3) (VInt 2))
      1%nat list_state =
    (Ok tt, set_heap list_state (<[0%nat := CList elems']> (heap list_state))) /\
    length elems' = 3%nat /\
    forall j : nat, Z.of_nat j < 1 -> elems' !! j = [VInt 1; VInt 2; VInt 3] !! j.
Proof.
  apply (stepped_slice_assignment_keeps_length false true 0%nat 1%nat 1 3 2
           [VInt 1; VInt 2; VInt 3] [VInt 9] list_state).
  - reflexivity.
  - reflexivity.
  - reflexivity.
  - vm_compute. discriminate.
Defined.

(** ** Token look-ahead *)

Lemma slice_assignment_loop_scan (toks : list Token) :
  forall (fuel pos : nat) (token : Token),
    toks !! pos = Some token ->
    (length toks - pos <= fuel)%nat ->
    slice_assignment_loop fuel toks pos token =
    if existsb is_colon_or_operator (drop pos toks)
    then Ok true else Crash HostException.
Proof.
  induction fuel as [|fuel IH]; intros pos token Htoken Hfuel.
  - apply lookup_lt_Some in Htoken. lia.
  - cbn [slice_assignment_loop].
    pose proof (lookup_lt_Some _ _ _ Htoken) as Hpos.
    replace (pos <? length toks)%nat with true
      by (symmetry; apply Nat.ltb_lt; exact Hpos).
    rewrite (drop_S _ _ _ Htoken). cbn [existsb].
    destruct (is_colon_or_operator token); [reflexivity|]. cbn [orb].
    destruct (toks !! S pos) as [token'|] eqn:Hnext.
    + apply IH; [exact Hnext | lia].
    + apply lookup_ge_None_1 in Hnext.
      rewrite drop_ge by lia. reflexivity.
Qed.

(** X20. [isSliceAssignmentExpression] never answers "no": it returns
    true when a colon or an operator token stands at or after the stream
    position, and otherwise it runs off the end of the token vector, where
    [tokens.at] throws [std::out_of_range]. *)
Theorem isSliceAssignmentExpression_never_false (fuel : nat)
    (stream : TokenStream) :
  (length (tokens stream) - position stream < fuel)%nat ->
  isSliceAssignmentExpression fuel stream =
  if existsb is_colon_or_operator (drop (position stream) (tokens stream))
  then Ok true else Crash HostException.
Proof.
  intros Hfuel. unfold isSliceAssignmentExpression.
  destruct (tokens stream !! position stream) as [token|] eqn:Htoken.
  - apply slice_assignment_loop_scan; [exact Htoken | lia].
  - apply lookup_ge_None_1 in Htoken.
    rewrite drop_ge by lia. reflexivity.
Qed.

Lemma isSliceAssignmentExpression_never_false_witness :
  isSliceAssignmentExpression 3
    (mkStream [mkToken IDENTIFIER "x"; mkToken LITERAL "1"] 0) =
  Crash HostException.
Proof.
  apply (isSliceAssignmentExpression_never_false 3
           (mkStream [mkToken IDENTIFIER "x"; mkToken LITERAL "1"] 0)).
  simpl. lia.
Defined.

Lemma range_expression_loop_flat (close : Token) (after : list Token) :
  is_close_bracket close = true ->
  forall (inner pre : list Token) (fuel : nat),
    (length inner < fuel)%nat ->
    Forall (fun t : Token =>
              is_open_bracket t = false /\ is_close_bracket t = false) inner ->
    range_expression_loop fuel (pre ++ inner ++ close :: after) (length pre)
      (hd close inner) 1 =
    Ok (existsb is_range inner).
Proof.
  intros Hclose.
  assert (Hclose_type : getType close = CLOSE_BRACKET).
  { unfold is_close_bracket in Hclose.
    destruct (getType close); try discriminate. reflexivity. }
  induction inner as [|t inner IH]; intros pre fuel Hfuel Hflat.
  - destruct fuel as [|fuel]; [simpl in Hfuel; lia|].
    cbn [range_expression_loop hd app].
    replace (length pre <? length (pre ++ close :: after))%nat with true
      by (symmetry; apply Nat.ltb_lt; rewrite length_app; simpl; lia).
    unfold is_open_bracket, is_close_bracket, is_range.
    rewrite Hclose_type. reflexivity.
  - destruct fuel as [|fuel]; [simpl in Hfuel; lia|].
    inversion Hflat as [|? ? [Hopen Hnotclose] Hflat']; subst.
    cbn [range_expression_loop hd].
    replace (length pre <? length (pre ++ (t :: inner) ++ close :: after))%nat
      with true
      by (symmetry; apply Nat.ltb_lt; rewrite length_app; simpl; lia).
    rewrite Hopen, Hnotclose. cbn [andb negb existsb].
    change (0 <? 1) with true. cbv iota.
    destruct (is_range t); [reflexivity|]. cbn [orb].
    assert (Hnext :
      (pre ++ (t :: inner) ++ close :: after) !! S (length pre)
      = Some (hd close inner)).
    { rewrite lookup_app_r by lia.
      replace (S (length pre) - length pre)%nat with 1%nat by lia.
      destruct inner; reflexivity. }
    rewrite Hnext.
    replace (pre ++ (t :: inner) ++ close :: after)
      with ((pre ++ [t]) ++ inner ++ close :: after)
      by (rewrite <- app_assoc; reflexivity).
    replace (S (length pre)) with (length (pre ++ [t]))
      by (rewrite length_app; simpl; lia).
    apply IH; [simpl in Hfuel; lia | exact Hflat'].
Qed.

(** X21. For a bracket whose content holds no further bracket,
    [isRangeExpression] tells whether a range token stands between the
    opening bracket, on which the stream stands, and the closing one; what
    follows the closing bracket is not looked at. *)
Theorem isRangeExpression_flat_bracket (fuel : nat)
    (before inner after : list Token) (open close : Token) :
  is_close_bracket close = true ->
  Forall (fun t : Token =>
            is_open_bracket t = false /\ is_close_bracket t = false) inner ->
  (length inner < fuel)%nat ->
  isRangeExpression fuel
    (mkStream (before ++ open :: inner ++ close :: after) (length before)) =
  Ok (existsb is_range inner).
Proof.
  intros Hclose Hflat Hfuel.
  unfold isRangeExpression. cbn [tokens position].
  assert (Hfirst :
    (before ++ open :: inner ++ close :: after) !! S (length before)
    = Some (hd close inner)).
  { rewrite lookup_app_r by lia.
    replace (S (length before) - length before)%nat with 1%nat by lia.
    destruct inner; reflexivity. }
  rewrite Hfirst.
  replace (before ++ open :: inner ++ close :: after)
    with ((before ++ [open]) ++ inner ++ close :: after)
    by (rewrite <- app_assoc; reflexivity).
  replace (S (length before)) with (length (before ++ [open]))
    by (rewrite length_app; simpl; lia).
  apply range_expression_loop_flat; assumption.
Qed.

Lemma isRangeExpression_flat_bracket_witness :
  isRangeExpression 4
    (mkStream
       [mkToken IDENTIFIER "x"; mkToken OPEN_BRACKET "[";
        mkToken LITERAL "1"; mkToken RANGE ".."; mkToken LITERAL "3";
        mkToken CLOSE_BRACKET "]"; mkToken RANGE ".."] 1) =
  Ok true.
Proof.
  apply (isRangeExpression_flat_bracket 4 [mkToken IDENTIFIER "x"]
           [mkToken LITERAL "1"; mkToken RANGE ".."; mkToken LITERAL "3"]
           [mkToken RANGE ".."] (mkToken OPEN_BRACKET "[")
           (mkToken CLOSE_BRACKET "]")).
  - reflexivity.
  - repeat constructor.
  - simpl. lia.
Defined.

(** ** Assignment and lookup through the evaluator *)

Lemma visit_IdentifierNode_pure `{Collaborators} (name : string) (st : State)
    (frame : CallStackFrame) (rest : list CallStackFrame) :
  callStack st = frame :: rest ->
  inObjectContext frame = false ->
  exists w : Value, visit_IdentifierNode name st = (Ok w, st).
Proof.
  intros Hstack Hobj. unfold visit_IdentifierNode.
  step_with bind_ok ltac:(eapply top_frame_run; exact Hstack).
  rewrite Hobj.
  step_with bind_ok ltac:(reflexivity).
  step_with bind_ok ltac:(reflexivity).
  destruct (variables frame !! name); [eexists; reflexivity|].
  destruct (bool_decide (is_Some (classes st !! name))); [eexists; reflexivity|].
  destruct (bool_decide (is_Some (lambdas st !! name))); [eexists; reflexivity|].
  destruct (lambdaTable st !! name) as [mappedId|]; [|eexists; reflexivity].
  destruct (bool_decide (is_Some (lambdas st !! mappedId)));
    eexists; reflexivity.
Qed.

Lemma visit_IdentifierNode_local `{Collaborators} (name : string) (st : State)
    (frame : CallStackFrame) (rest : list CallStackFrame) (v : Value) :
  callStack st = frame :: rest ->
  inObjectContext frame = false ->
  variables frame !! name = Some v ->
  visit_IdentifierNode name st = (Ok v, st).
Proof.
  intros Hstack Hobj Hvar. unfold visit_IdentifierNode.
  step_with bind_ok ltac:(eapply top_frame_run; exact Hstack).
  rewrite Hobj.
  step_with bind_ok ltac:(reflexivity).
  step_with bind_ok ltac:(reflexivity).
  rewrite Hvar. reflexivity.
Qed.

Lemma set_var_top (st : State) (f : CallStackFrame)
    (rest : list CallStackFrame) (fid : nat) (name : string) (v : Value) :
  callStack st = f :: rest -> fid = length rest ->
  set_var fid name v st =
  (Ok tt,
   set_callStack st (set_variables f (<[name := v]> (variables f)) :: rest)).
Proof.
  intros Hs Hfid. unfold set_var.
  exact (modify_frame_top st f rest fid _ Hs Hfid).
Qed.

Lemma erase_var_top (st : State) (f : CallStackFrame)
    (rest : list CallStackFrame) (fid : nat) (name : string) :
  callStack st = f :: rest -> fid = length rest ->
  erase_var fid name st =
  (Ok tt,
   set_callStack st (set_variables f (delete name (variables f)) :: rest)).
Proof.
  intros Hs Hfid. unfold erase_var.
  exact (modify_frame_top st f rest fid _ Hs Hfid).
Qed.

Lemma index_var_bound (st : State) (f : CallStackFrame)
    (rest : list CallStackFrame) (fid : nat) (name : string) (v : Value) :
  callStack st = f :: rest -> fid = length rest ->
  variables f !! name = Some v ->
  index_var fid name st = (Ok v, st).
Proof.
  intros Hs Hfid Hv. unfold index_var.
  step_with bind_ok ltac:(eapply read_frame_top; [exact Hs | exact Hfid]).
  rewrite Hv. reflexivity.
Qed.

(** X22. After [name = v], for a value that is neither a lambda nor an
    object, a name other than [global] and a frame outside an object
    context, the frame binds the name to the value, nothing else changes,
    and the identifier evaluates to the value. *)
Theorem assignment_then_identifier `{Collaborators} (fuel : nat)
    (name : string) (v : Value) (st : State) (frame : CallStackFrame)
    (rest : list CallStackFrame) :
  callStack st = frame :: rest ->
  inObjectContext frame = false ->
  name <> "global" ->
  (forall identifier : string, v <> VLambda identifier) ->
  (forall l : loc, v <> VObject l) ->
  let st' :=
    set_callStack st
      (set_variables frame (<[name := v]> (variables frame)) :: rest) in
  interpret (S (S fuel))
    (AssignmentNode (IdentifierNode name) name Ops_Assign (LiteralNode v)) st
  = (Ok v, st') /\
  interpret (S fuel) (IdentifierNode name) st' = (Ok v, st').
Proof.
  intros Hstack Hobj Hname Hlambda Hobject st'.
  assert (Hread : interpret (S fuel) (IdentifierNode name) st' = (Ok v, st')).
  { cbn [interpret].
    eapply visit_IdentifierNode_local; [reflexivity | exact Hobj |].
    cbn [variables set_variables]. apply lookup_insert_eq. }
  split; [|exact Hread].
  cbn [interpret]. unfold visit_AssignmentNode.
  step_with bind_ok ltac:(eapply top_frame_id_run; exact Hstack).
  destruct (visit_IdentifierNode_pure name st frame rest Hstack Hobj)
    as [w Hw].
  step_with bind_ok ltac:(cbn [interpret]; exact Hw).
  step_with bind_ok ltac:(reflexivity).
  cbn [is_assign].
  replace (String.eqb name "global") with false
    by (symmetry; apply String.eqb_neq; exact Hname).
  assert (Hstore :
    (frame0 <- read_frame (length rest) ;;
     instance_ref <- (if inObjectContext frame0
                      then lift (starts_with_at name) else ret false) ;;
     if instance_ref then
       o <- object_of_frame frame0 ;;
       obj <- read_object o ;;
       write_object o (set_instanceVariable obj name v) ;;;
       ret v
     else
       match v with
       | VObject l =>
         obj <- read_object l ;;
         write_object l
           (mkObject (className obj) (instanceVariables obj) name)
       | _ => ret tt
       end ;;;
       set_var (length rest) name v ;;;
       index_var (length rest) name) st = (Ok v, st')).
  { step_with bind_ok ltac:(eapply read_frame_top; [exact Hstack | reflexivity]).
    rewrite Hobj.
    step_with bind_ok ltac:(reflexivity).
    assert (Hunit :
      match v with
      | VObject l =>
        obj <- read_object l ;;
        write_object l (mkObject (className obj) (instanceVariables obj) name)
      | _ => ret tt
      end st = (Ok tt, st)).
    { destruct v; try reflexivity. exfalso. eapply Hobject. reflexivity. }
    step_with bind_ok ltac:(exact Hunit).
    step_with bind_ok ltac:(eapply set_var_top; [exact Hstack | reflexivity]).
    eapply index_var_bound; [reflexivity | reflexivity |].
    cbn [variables set_variables]. apply lookup_insert_eq. }
  destruct v; try exact Hstore.
  exfalso. eapply Hlambda. reflexivity.
Qed.

Lemma assignment_then_identifier_witness :
  interpret 2
    (AssignmentNode (IdentifierNode "x") "x" Ops_Assign (LiteralNode (VInt 4)))
    root_state =
  (Ok (VInt 4),
   set_callStack root_state
     [set_variables new_frame (<["x" := VInt 4]> (variables new_frame))]) /\
  interpret 1 (IdentifierNode "x")
    (set_callStack root_state
       [set_variables new_frame (<["x" := VInt 4]> (variables new_frame))]) =
  (Ok (VInt 4),
   set_callStack root_state
     [set_variables new_frame (<["x" := VInt 4]> (variables new_frame))]).
Proof.
  apply (assignment_then_identifier 0 "x" (VInt 4) root_state new_frame []).
  - reflexivity.
  - reflexivity.
  - discriminate.
  - discriminate.
  - discriminate.
Defined.

(** ** Index assignment on lists *)



(** X24. [x[n] = v] on a local list with an index outside its bounds, a
    negative one included, fails with IndexError and changes nothing. *)
Theorem index_assignment_out_of_bounds `{Collaborators} (fuel : nat)
    (x : string) (n : Z) (v : Value) (op : KName) (l : loc)
    (elems : list Value) (st : State) (frame : CallStackFrame)
    (rest : list CallStackFrame) :
  callStack st = frame :: rest ->
  variables frame !! x = Some (VList l) ->
  heap st !! l = Some (CList elems) ->
  get_integer (VInt n) = Ok n ->
  to_int n < 0 \/ Z.of_nat (length elems) <= to_int n ->
  interpret (S (S (S fuel)))
    (IndexAssignmentNode (IndexingNode (Some (IdentifierNode x)) (int_lit n))
       op (LiteralNode v)) st
  = (Throw (mkError IndexError "The index was outside the bounds of the list."),
     st).
Proof.
  intros Hstack Hx Hheap Hint Hn.
  unfold int_lit. cbn [interpret]. unfold visit_IndexAssignmentNode.
  step_with bind_ok ltac:(eapply top_frame_id_run; exact Hstack).
  step_with bind_ok ltac:(reflexivity).
  unfold bind at 1.
  step_with bind_ok ltac:(eapply index_var_bound; [exact Hstack | reflexivity | exact Hx]).
  step_with bind_ok ltac:(reflexivity).
  unfold bind at 1, lift at 1. rewrite Hint.
  unfold bind at 1, read_list at 1. rewrite Hheap.
  replace ((to_int n <? 0) || (Z.of_nat (length elems) <=? to_int n))
    with true.
  - reflexivity.
  - symmetry. apply orb_true_iff.
    destruct Hn as [Hn|Hn]; [left; apply Z.ltb_lt | right; apply Z.leb_le];
      exact Hn.
Qed.

Lemma index_assignment_out_of_bounds_witness :
  interpret 3
    (IndexAssignmentNode
       (IndexingNode (Some (IdentifierNode "x")) (int_lit (-1))) Ops_Assign
       (LiteralNode (VInt 7)))
    (set_callStack list_state
       [set_variables new_frame {[ "x" := VList 0%nat ]}]) =
  (Throw (mkError IndexError "The index was outside the bounds of the list."),
   set_callStack list_state
     [set_variables new_frame {[ "x" := VList 0%nat ]}]).
Proof.
  apply (index_assignment_out_of_bounds 0 "x" (-1) (VInt 7) Ops_Assign 0%nat
           [VInt 1; VInt 2; VInt 3]
           (set_callStack list_state
              [set_variables new_frame {[ "x" := VList 0%nat ]}])
           (set_variables new_frame {[ "x" := VList 0%nat ]}) []).
  - reflexivity.
  - reflexivity.
  - reflexivity.
  - reflexivity.
  - left. reflexivity.
Defined.

(** ** Lambdas, the root frame and catch variables *)




(** X26. A program that is not a script starts by pushing a root frame
    whose only local is [global], bound to a new empty hash: the identifier
    [global] evaluates to that hash, and an assignment to [global] fails
    with IllegalNameError. *)
Theorem program_root_frame_binds_global `{Collaborators} (fuel : nat)
    (v : Value) (st : State) :
  let root :=
    set_callStack (set_heap st (heap st ++ [CHash (mkHash [] ∅)]))
      (set_variables new_frame {[ "global" := VHash (length (heap st)) ]}
         :: callStack st) in
  interpret (S (S fuel)) (ProgramNode false [IdentifierNode "global"]) st
  = (Ok (VHash (length (heap st))), root) /\
  interpret (S (S (S fuel)))
    (ProgramNode false
       [AssignmentNode (IdentifierNode "global") "global" Ops_Assign
          (LiteralNode v)]) st
  = (Throw (mkError IllegalNameError "global"), root).
Proof.
  intros root.
  assert (Hread : visit_IdentifierNode "global" root
                  = (Ok (VHash (length (heap st))), root)).
  { eapply visit_IdentifierNode_local; [reflexivity | reflexivity |].
    cbn [variables set_variables]. apply lookup_singleton_eq. }
  split.
  - cbn [interpret]. unfold visit_ProgramNode.
    step_with bind_ok ltac:(reflexivity).
    cbn [last_result].
    step_with bind_ok ltac:(exact Hread).
    reflexivity.
  - cbn [interpret]. unfold visit_ProgramNode.
    step_with bind_ok ltac:(reflexivity).
    cbn [last_result].
    apply bind_throw.
    cbn [interpret]. unfold visit_AssignmentNode.
    step_with bind_ok ltac:(reflexivity).
    step_with bind_ok ltac:(exact Hread).
    step_with bind_ok ltac:(reflexivity).
    reflexivity.
Qed.



(** ** Loop variables and lambda parameters *)

Lemma modify_frame_read (fid : nat) (g : CallStackFrame -> CallStackFrame)
    (st st' : State) :
  modify_frame fid g st = (Ok tt, st') ->
  exists f : CallStackFrame,
    read_frame fid st = (Ok f, st) /\
    read_frame fid st' = (Ok (g f), st').
Proof.
  unfold modify_frame, read_frame. intros Hrun.
  destruct (Nat.ltb_spec fid (length (callStack st))) as [Hlt|Hge];
    [|discriminate].
  inversion Hrun; subst st'; clear Hrun.
  cbn [callStack set_callStack].
  assert (Hidx : (frame_index (callStack st) fid < length (callStack st))%nat)
    by (unfold frame_index; lia).
  destruct (lookup_lt_is_Some_2 _ _ Hidx) as [f Hf].
  exists f. rewrite Hf. split; [reflexivity|].
  rewrite length_alter.
  replace (fid <? length (callStack st))%nat with true
    by (symmetry; apply Nat.ltb_lt; exact Hlt).
  unfold frame_index in *. rewrite length_alter.
  rewrite list_lookup_alter_eq, Hf. reflexivity.
Qed.

(** X28. The iterator names of a [for] loop over a list never outlive the
    loop: whenever the loop returns, the frame it ran in binds neither the
    value iterator nor the index iterator, also when the frame bound such a
    name before the loop. *)
Theorem listLoop_erases_iterators `{Collaborators} (ev : ASTNode -> M Value)
    (fuel : nat) (valueIteratorName indexIteratorName : string)
    (body : list LoopStatement) (lst : loc) (st st' : State)
    (frame : CallStackFrame) (rest : list CallStackFrame) (result : Value) :
  callStack st = frame :: rest ->
  listLoop ev fuel (IdentifierNode valueIteratorName)
    (Some (IdentifierNode indexIteratorName)) body lst st = (Ok result, st') ->
  exists frame' : CallStackFrame,
    read_frame (length rest) st' = (Ok frame', st') /\
    variables frame' !! valueIteratorName = None /\
    variables frame' !! indexIteratorName = None.
Proof.
  intros Hstack Hrun. unfold listLoop in Hrun.
  rewrite (bind_ok _ _ _ _ _ _ _ (top_frame_id_run st frame rest Hstack)) in Hrun.
  cbn [id_name] in Hrun.
  unfold bind at 1, ret at 1 in Hrun.
  unfold bind at 1 in Hrun.
  match type of Hrun with
  | context [listLoop_turns ev fuel ?fid ?v ?i body lst 0 false ?d st] =>
    destruct (listLoop_turns ev fuel fid v i body lst 0 false d st)
      as [[r1|e|c] s1]
  end; try discriminate.
  unfold bind at 1 in Hrun.
  destruct (erase_var (length rest) valueIteratorName s1)
    as [[[]|e|c] s2] eqn:Herase1; try discriminate.
  unfold bind at 1 in Hrun.
  destruct (erase_var (length rest) indexIteratorName s2)
    as [[[]|e|c] s3] eqn:Herase2; try discriminate.
  unfold ret in Hrun. inversion Hrun; subst; clear Hrun.
  destruct (modify_frame_read _ _ _ _ Herase1) as (f1 & _ & Hread1).
  destruct (modify_frame_read _ _ _ _ Herase2) as (f2 & Hread2 & Hread3).
  rewrite Hread1 in Hread2. inversion Hread2; subst f2.
  eexists. split; [exact Hread3|].
  cbn [variables set_variables]. split.
  - destruct (decide (indexIteratorName = valueIteratorName)) as [->|Hne].
    + apply lookup_delete_eq.
    + rewrite lookup_delete_ne by exact Hne. apply lookup_delete_eq.
  - apply lookup_delete_eq.
Qed.

Lemma listLoop_erases_iterators_witness :
  exists frame' : CallStackFrame,
    read_frame 0
      (snd (listLoop (interpret 3) 4 (IdentifierNode "v")
              (Some (IdentifierNode "i"))
              [Statement (PrintNode (IdentifierNode "v") true)] 0%nat
              (set_callStack list_state
                 [set_variables new_frame {[ "v" := VInt 5 ]}]))) =
    (Ok frame',
     snd (listLoop (interpret 3) 4 (IdentifierNode "v")
            (Some (IdentifierNode "i"))
            [Statement (PrintNode (IdentifierNode "v") true)] 0%nat
            (set_callStack list_state
               [set_variables new_frame {[ "v" := VInt 5 ]}]))) /\
    variables frame' !! "v" = None /\
    variables frame' !! "i" = None.
Proof.
  apply (listLoop_erases_iterators (interpret 3) 4 "v" "i"
           [Statement (PrintNode (IdentifierNode "v") true)] 0%nat
           (set_callStack list_state
              [set_variables new_frame {[ "v" := VInt 5 ]}])
           _ (set_variables new_frame {[ "v" := VInt 5 ]}) [] (VInt 0)).
  - reflexivity.
  - vm_compute. reflexivity.
Defined.

(** ** The lambda built-ins on an empty list *)

(** X29. On an empty list the body of the lambda is never evaluated:
    [each] returns the default value 0, [map] and [select] return a new empty
    list, [none] returns true, and in every case the parameter name is erased
    from the frame. *)
Theorem list_builtins_on_empty_list `{Collaborators}
    (ev : ASTNode -> M Value) (fuel : nat) (body : list ASTNode)
    (p : string) (dflt : Value) (lst : loc) (st : State)
    (frame : CallStackFrame) (rest : list CallStackFrame) :
  callStack st = frame :: rest ->
  heap st !! lst = Some (CList []) ->
  let lambda := Some (mkLambda body [(p, dflt)] []) in
  let st' :=
    set_callStack st
      (set_variables frame (delete p (<[p := VInt 0]> (variables frame)))
         :: rest) in
  let fresh := set_heap st' (heap st ++ [CList []]) in
  lambdaEach ev (S fuel) lambda lst st = (Ok default_value, st') /\
  lambdaMap ev (S fuel) lambda lst st = (Ok (VList (length (heap st))), fresh) /\
  lambdaSelect ev (S fuel) lambda lst st
    = (Ok (VList (length (heap st))), fresh) /\
  lambdaNone ev (S fuel) lambda lst st = (Ok (VBool true), fresh).
Proof.
  intros Hstack Hheap lambda st' fresh.
  assert (Hset : set_var (length rest) p (VInt 0) st =
                 (Ok tt,
                  set_callStack st
                    (set_variables frame (<[p := VInt 0]> (variables frame))
                       :: rest))).
  { apply set_var_top; [exact Hstack | reflexivity]. }
  assert (Herase :
    erase_var (length rest) p
      (set_callStack st
         (set_variables frame (<[p := VInt 0]> (variables frame)) :: rest))
    = (Ok tt, st')).
  { exact (erase_var_top
             (set_callStack st
                (set_variables frame (<[p := VInt 0]> (variables frame))
                   :: rest))
             (set_variables frame (<[p := VInt 0]> (variables frame))) rest
             (length rest) p eq_refl eq_refl). }
  assert (Hselect : lambdaSelect ev (S fuel) lambda lst st
                    = (Ok (VList (length (heap st))), fresh)).
  { unfold lambdaSelect, lambda.
    step_with bind_ok ltac:(eapply top_frame_id_run; exact Hstack).
    cbn [lambda_parameters lambda_body second_parameter].
    step_with bind_ok ltac:(exact Hset).
    step_with bind_ok ltac:(reflexivity).
    cbn [lambdaSelect_loop].
    unfold bind at 1. unfold bind at 1, read_list at 1.
    cbn [heap set_callStack]. rewrite Hheap. cbn [length Nat.ltb Nat.leb].
    unfold ret at 1.
    step_with bind_ok ltac:(exact Herase).
    step_with bind_ok ltac:(reflexivity).
    reflexivity. }
  repeat split.
  - unfold lambdaEach, lambda.
    step_with bind_ok ltac:(eapply top_frame_id_run; exact Hstack).
    cbn [lambda_parameters lambda_body second_parameter].
    step_with bind_ok ltac:(exact Hset).
    step_with bind_ok ltac:(reflexivity).
    cbn [lambdaEach_loop].
    unfold bind at 1. unfold bind at 1, read_list at 1.
    cbn [heap set_callStack]. rewrite Hheap. cbn [length Nat.ltb Nat.leb].
    unfold ret at 1.
    step_with bind_ok ltac:(exact Herase).
    step_with bind_ok ltac:(reflexivity).
    reflexivity.
  - unfold lambdaMap, lambda.
    step_with bind_ok ltac:(eapply top_frame_id_run; exact Hstack).
    cbn [lambda_parameters lambda_body].
    step_with bind_ok ltac:(exact Hset).
    cbn [lambdaMap_loop].
    unfold bind at 1. unfold bind at 1, read_list at 1.
    cbn [heap set_callStack]. rewrite Hheap. cbn [length Nat.ltb Nat.leb].
    unfold ret at 1.
    step_with bind_ok ltac:(exact Herase).
    step_with bind_ok ltac:(reflexivity).
    reflexivity.
  - exact Hselect.
  - unfold lambdaNone.
    step_with bind_ok ltac:(exact Hselect).
    unfold bind, read_list. cbn [heap fresh st' set_heap set_callStack].
    rewrite list_lookup_middle by reflexivity. reflexivity.
Qed.

Lemma list_builtins_on_empty_list_witness :
  lambdaEach (interpret 2) 1
    (Some (mkLambda [PrintNode (IdentifierNode "x") true] [("x", VInt 0)] []))
    0%nat (mkState [new_frame] [CList []] ∅ ∅ ∅ [] 0) =
  (Ok default_value,
   set_callStack (mkState [new_frame] [CList []] ∅ ∅ ∅ [] 0)
     [set_variables new_frame
        (delete "x" (<["x" := VInt 0]> (variables new_frame)))]).
Proof.
  destruct (list_builtins_on_empty_list (interpret 2) 0
              [PrintNode (IdentifierNode "x") true] "x" (VInt 0) 0%nat
              (mkState [new_frame] [CList []] ∅ ∅ ∅ [] 0) new_frame [])
    as [Heach _].
  - reflexivity.
  - reflexivity.
  - exact Heach.
Defined.

(** X30. [reduce] over an empty list returns the seed: the accumulator
    parameter is bound to it, the body is never evaluated, and both parameter
    names are erased from the frame. With a lambda that does not have exactly
    two parameters, [reduce] returns the seed and touches nothing. *)
Theorem reduce_on_empty_list `{Collaborators} (ev : ASTNode -> M Value)
    (fuel : nat) (body : list ASTNode) (accumVariable valueVariable : string)
    (d1 d2 : Value) (accumulator : Value) (lst : loc) (st : State)
    (frame : CallStackFrame) (rest : list CallStackFrame) :
  callStack st = frame :: rest ->
  heap st !! lst = Some (CList []) ->
  accumVariable <> valueVariable ->
  lambdaReduce ev (S fuel)
    (Some (mkLambda body [(accumVariable, d1); (valueVariable, d2)] []))
    accumulator lst st =
  (Ok accumulator,
   set_callStack st
     (set_variables frame
        (delete valueVariable
           (delete accumVariable
              (<[valueVariable := VInt 0]>
                 (<[accumVariable := accumulator]> (variables frame)))))
        :: rest)) /\
  forall parameters : list (string * Value),
    length parameters <> 2%nat ->
    lambdaReduce ev fuel (Some (mkLambda body parameters [])) accumulator
      lst st = (Ok accumulator, st).
Proof.
  intros Hstack Hheap Hne. split.
  - unfold lambdaReduce.
    step_with bind_ok ltac:(eapply top_frame_id_run; exact Hstack).
    cbn [lambda_parameters lambda_body].
    step_with bind_ok ltac:(eapply set_var_top; [exact Hstack | reflexivity]).
    step_with bind_ok ltac:(eapply set_var_top; [reflexivity | reflexivity]).
    cbn [lambdaEach_loop].
    unfold bind at 1. unfold bind at 1. unfold bind at 1, read_list at 1.
    cbn [heap set_callStack]. rewrite Hheap. cbn [length Nat.ltb Nat.leb].
    unfold ret at 1.
    step_with bind_ok ltac:(eapply index_var_bound;
                    [reflexivity | reflexivity |
                     cbn [variables set_variables];
                     rewrite lookup_insert_ne by (intros Heq; apply Hne;
                                                  symmetry; exact Heq);
                     apply lookup_insert_eq]).
    step_with bind_ok ltac:(eapply erase_var_top; [reflexivity | reflexivity]).
    step_with bind_ok ltac:(eapply erase_var_top; [reflexivity | reflexivity]).
    reflexivity.
  - intros parameters Hlen. unfold lambdaReduce.
    step_with bind_ok ltac:(eapply top_frame_id_run; exact Hstack).
    cbn [lambda_parameters].
    destruct parameters as [|[a ?] [|[b ?] [|? ?]]]; try reflexivity.
    simpl in Hlen. contradiction.
Qed.

Lemma reduce_on_empty_list_witness :
  lambdaReduce (interpret 2) 1
    (Some (mkLambda [IdentifierNode "acc"] [("acc", VInt 0); ("x", VInt 0)] []))
    (VInt 10) 0%nat (mkState [new_frame] [CList []] ∅ ∅ ∅ [] 0) =
  (Ok (VInt 10),
   set_callStack (mkState [new_frame] [CList []] ∅ ∅ ∅ [] 0)
     [set_variables new_frame
        (delete "x"
           (delete "acc"
              (<["x" := VInt 0]>
                 (<["acc" := VInt 10]> (variables new_frame)))))]).
Proof.
  destruct (reduce_on_empty_list (interpret 2) 0 [IdentifierNode "acc"]
              "acc" "x" (VInt 0) (VInt 0) (VInt 10) 0%nat
              (mkState [new_frame] [CList []] ∅ ∅ ∅ [] 0) new_frame [])
    as [Hseed _].
  - reflexivity.
  - reflexivity.
  - discriminate.
  - exact Hseed.
Defined.
